(** * Stock_Analysis_Dashboard: cleaning pipeline, indicators and signal engine

    A shallow embedding of the data-normalisation pipeline
    ([components/data_processor.py], [components/indian_data_loader.py]),
    of the indicator computation and of the rule-based signal engine
    ([components/comprehensive_technical_analysis.py],
    [components/technical_analysis.py]).

    Numbers.  pandas columns hold IEEE-754 doubles.  A double is modelled by
    [float64]: a finite value carried as an exact rational, the two
    infinities, and NaN.  Comparisons and the special cases of the arithmetic
    (NaN absorbs, division by zero yields an infinity or NaN, no exception)
    follow IEEE-754; finite arithmetic is exact, so rounding is abstracted. *)

From Stdlib Require Import ZArith QArith Qround Lia Lqa List String Ascii Bool.
From Stdlib Require Import Permutation Sorted DecimalString.
From stdpp Require Import gmap strings list.
Import ListNotations.

Local Open Scope Q_scope.

(** ** Doubles *)

Inductive float64 : Type :=
| Fin (q : Q)
| PosInf
| NegInf
| NaN.

Definition Qltb (x y : Q) : bool := negb (Qle_bool y x).

(** [a < b], [a <= b], [a > b], [a >= b] on doubles: false as soon as one
    side is NaN. *)
Definition flt (a b : float64) : bool :=
  match a, b with
  | NaN, _ | _, NaN => false
  | Fin x, Fin y => Qltb x y
  | NegInf, NegInf => false
  | NegInf, _ => true
  | _, NegInf => false
  | PosInf, _ => false
  | Fin _, PosInf => true
  end.

Definition fle (a b : float64) : bool :=
  match a, b with
  | NaN, _ | _, NaN => false
  | Fin x, Fin y => Qle_bool x y
  | NegInf, _ => true
  | _, PosInf => true
  | _, _ => false
  end.

Definition fgt (a b : float64) : bool := flt b a.
Definition fge (a b : float64) : bool := fle b a.

Definition isna (a : float64) : bool :=
  match a with NaN => true | _ => false end.

Definition fneg (a : float64) : float64 :=
  match a with
  | Fin x => Fin (- x)
  | PosInf => NegInf
  | NegInf => PosInf
  | NaN => NaN
  end.

(** The infinity carrying the sign of a non-zero rational. *)
Definition inf_of_sign (x : Q) : float64 :=
  if Qltb 0 x then PosInf else NegInf.

Definition fadd (a b : float64) : float64 :=
  match a, b with
  | NaN, _ | _, NaN => NaN
  | Fin x, Fin y => Fin (x + y)
  | PosInf, NegInf | NegInf, PosInf => NaN
  | PosInf, _ | _, PosInf => PosInf
  | NegInf, _ | _, NegInf => NegInf
  end.

Definition fsub (a b : float64) : float64 := fadd a (fneg b).

Definition fmul (a b : float64) : float64 :=
  match a, b with
  | NaN, _ | _, NaN => NaN
  | Fin x, Fin y => Fin (x * y)
  | Fin x, PosInf | PosInf, Fin x =>
      if Qeq_bool x 0 then NaN else inf_of_sign x
  | Fin x, NegInf | NegInf, Fin x =>
      if Qeq_bool x 0 then NaN else fneg (inf_of_sign x)
  | PosInf, PosInf | NegInf, NegInf => PosInf
  | PosInf, NegInf | NegInf, PosInf => NegInf
  end.

(** numpy division: [x / 0] is a signed infinity, [0 / 0] is NaN, and no
    exception is raised. *)
Definition fdiv (a b : float64) : float64 :=
  match a, b with
  | NaN, _ | _, NaN => NaN
  | Fin x, Fin y =>
      if Qeq_bool y 0
      then (if Qeq_bool x 0 then NaN else inf_of_sign x)
      else Fin (x / y)
  | Fin _, _ => Fin 0
  | _, Fin y => if Qltb y 0 then fneg a else a
  | _, _ => NaN
  end.

(** ** Errors *)

Inductive error : Type :=
| ValueError (msg : string)
| KeyError (key : string)
| AttributeError (msg : string)
| TypeError (msg : string)
| Exception (msg : string).

Inductive result (A : Type) : Type :=
| Ok (a : A)
| Raise (e : error).
Arguments Ok {A} a.
Arguments Raise {A} e.

Definition bind {A B : Type} (m : result A) (f : A -> result B) : result B :=
  match m with
  | Ok a => f a
  | Raise e => Raise e
  end.

(** ** Text cells: pandas' string methods and parsers *)

Module Text.

(** The double quote character. *)
Definition dquote : ascii := "034"%char.

Definition is_space (c : ascii) : bool :=
  match nat_of_ascii c with
  | 32%nat | 9%nat | 10%nat | 11%nat | 12%nat | 13%nat => true
  | _ => false
  end.

Fixpoint lstrip_chars (s : list ascii) : list ascii :=
  match s with
  | c :: s' => if is_space c then lstrip_chars s' else s
  | [] => []
  end.

Definition strip_chars (s : list ascii) : list ascii :=
  List.rev (lstrip_chars (List.rev (lstrip_chars s))).

Definition remove_char (c : ascii) (s : list ascii) : list ascii :=
  List.filter (fun x => negb (Ascii.eqb x c)) s.

(** [s.strip()] and [s.replace(c, '')] on strings. *)
Definition strip (s : string) : string :=
  string_of_list_ascii (strip_chars (list_ascii_of_string s)).

Definition remove (c : ascii) (s : string) : string :=
  string_of_list_ascii (remove_char c (list_ascii_of_string s)).

Definition lower_char (c : ascii) : ascii :=
  let n := nat_of_ascii c in
  if ((65 <=? n) && (n <=? 90))%nat then ascii_of_nat (n + 32) else c.

Definition lower (s : string) : string :=
  string_of_list_ascii (List.map lower_char (list_ascii_of_string s)).

Definition digit_of (c : ascii) : option Z :=
  let n := nat_of_ascii c in
  if ((48 <=? n) && (n <=? 57))%nat then Some (Z.of_nat (n - 48)) else None.

(** Leading decimal digits: their value on top of [acc], how many there
    were, and what follows. *)
Fixpoint take_digits (s : list ascii) (acc : Z) (n : nat)
  : Z * nat * list ascii :=
  match s with
  | c :: s' =>
      match digit_of c with
      | Some d => take_digits s' (10 * acc + d)%Z (S n)
      | None => (acc, n, s)
      end
  | [] => (acc, n, [])
  end.

Definition take_sign (s : list ascii) : bool * list ascii :=
  match s with
  | "-"%char :: s' => (true, s')
  | "+"%char :: s' => (false, s')
  | _ => (false, s)
  end.

(** [m * 10 ^ e] as a reduced fraction. *)
Definition pow10 (m : Z) (e : Z) : Q :=
  if (0 <=? e)%Z then inject_Z (m * 10 ^ e)
  else Qred (Qmake m (Z.to_pos (10 ^ (- e)))).

(** A decimal literal: sign, digits with an optional fraction, optional
    exponent. *)
Definition parse_decimal (s : list ascii) : option Q :=
  let (neg, s1) := take_sign s in
  let '(ip, ni, s2) := take_digits s1 0 0 in
  let '(m, nf, s3) :=
    match s2 with
    | "."%char :: t => take_digits t ip 0
    | _ => (ip, 0%nat, s2)
    end in
  if (ni + nf =? 0)%nat then None
  else
    let m' := if neg then (- m)%Z else m in
    match s3 with
    | [] => Some (pow10 m' (- Z.of_nat nf))
    | c :: t =>
        if Ascii.eqb (lower_char c) "e"%char then
          let (eneg, t1) := take_sign t in
          let '(e, ne, t2) := take_digits t1 0 0 in
          match ne, t2 with
          | S _, [] =>
              Some (pow10 m' ((if eneg then - e else e) - Z.of_nat nf))
          | _, _ => None
          end
        else None
    end.

(** [pd.to_numeric(x, errors='coerce')] on the text of one cell: the number
    it spells, an infinity, or NaN for anything else. *)
Definition to_numeric (s : string) : float64 :=
  let t := strip s in
  match parse_decimal (list_ascii_of_string t) with
  | Some q => Fin q
  | None =>
      let w := lower t in
      if existsb (String.eqb w) ["inf"; "+inf"; "infinity"; "+infinity"]%string
      then PosInf
      else if existsb (String.eqb w) ["-inf"; "-infinity"]%string
      then NegInf
      else NaN
  end.

(** Calendar dates; a timestamp is the day count from 1970-01-01. *)
Record date : Type := mkDate { year : Z; month : Z; day : Z }.

Definition is_leap (y : Z) : bool :=
  ((y mod 4 =? 0) && (negb (y mod 100 =? 0) || (y mod 400 =? 0)))%Z.

Definition days_in_month (y m : Z) : Z :=
  match m with
  | 2 => if is_leap y then 29 else 28
  | 4 | 6 | 9 | 11 => 30
  | _ => 31
  end%Z.

Definition days_from_civil (d : date) : Z :=
  let y := (if month d <=? 2 then year d - 1 else year d)%Z in
  let era := (y / 400)%Z in
  let yoe := (y - era * 400)%Z in
  let mp := (if month d <=? 2 then month d + 9 else month d - 3)%Z in
  let doy := ((153 * mp + 2) / 5 + day d - 1)%Z in
  let doe := (yoe * 365 + yoe / 4 - yoe / 100 + doy)%Z in
  (era * 146097 + doe - 719468)%Z.

Definition month_of_abbrev (s : string) : option Z :=
  let names :=
    ["jan"; "feb"; "mar"; "apr"; "may"; "jun";
     "jul"; "aug"; "sep"; "oct"; "nov"; "dec"]%string in
  (fix find (l : list string) (k : Z) : option Z :=
     match l with
     | [] => None
     | n :: l' => if String.eqb n (lower s) then Some k else find l' (k + 1)%Z
     end) names 1%Z.

(** [strptime(s, '%d-%b-%Y')]: one or two day digits, a three-letter month
    abbreviation in any case, four year digits, nothing else, and a day that
    exists in that month. *)
Definition strptime_dmy (s : string) : option date :=
  let '(d, nd, s1) := take_digits (list_ascii_of_string s) 0 0 in
  match nd, s1 with
  | (1 | 2)%nat, "-"%char :: a :: b :: c :: "-"%char :: s2 =>
      match month_of_abbrev (string_of_list_ascii [a; b; c]) with
      | Some m =>
          let '(y, ny, s3) := take_digits s2 0 0 in
          match ny, s3 with
          | 4%nat, [] =>
              if ((1 <=? d) && (d <=? days_in_month y m))%Z
              then Some (mkDate y m d) else None
          | _, _ => None
          end
      | None => None
      end
  | _, _ => None
  end.

(** The strings pandas reads as a missing timestamp. *)
Definition is_nat_string (s : string) : bool :=
  existsb (String.eqb s) [""; "NaT"; "nat"; "NAT"; "nan"; "NaN"; "NAN"]%string.

(** One cell of [pd.to_datetime(col, format='%d-%b-%Y')]: [None] when the
    call raises, [Some None] for NaT. *)
Definition to_datetime_dmy (s : string) : option (option Z) :=
  if is_nat_string s then Some None
  else match strptime_dmy s with
       | Some d => Some (Some (days_from_civil d))
       | None => None
       end.

(** The parsers of pandas that guess the format, one cell at a time.
    [parse_coerce] is [pd.to_datetime(x, errors='coerce')]; the other two
    are [pd.to_datetime(x, dayfirst=True)] and
    [pd.to_datetime(x, infer_datetime_format=True)], with [None] when they
    raise. *)
Record DateParser : Type := mkDateParser {
  parse_coerce : string -> option Z;
  parse_dayfirst : string -> option (option Z);
  parse_inferred : string -> option (option Z)
}.

(** All cells pass through [f], or the call raises. *)
Fixpoint parse_column {A B : Type} (f : A -> option B) (l : list A)
  : option (list B) :=
  match l with
  | [] => Some []
  | x :: l' =>
      match f x, parse_column f l' with
      | Some y, Some ys => Some (y :: ys)
      | _, _ => None
      end
  end.

(** [s.endswith(suffix)] *)
Fixpoint starts_with_chars (p s : list ascii) : bool :=
  match p, s with
  | [], _ => true
  | a :: p', b :: s' => Ascii.eqb a b && starts_with_chars p' s'
  | _ :: _, [] => false
  end.

Definition endswith (s suffix : string) : bool :=
  starts_with_chars (List.rev (list_ascii_of_string suffix))
    (List.rev (list_ascii_of_string s)).


End Text.

(** ** components/data_processor.py *)

Module DataProcessor.

(** One row of the frame, restricted to the six required columns (the only
    ones [_final_data_cleaning] keeps).  [Date] is a timestamp, [None] for
    NaT. *)
Record Row : Type := mkRow {
  Date : option Z;
  Open : float64;
  High : float64;
  Low : float64;
  Close : float64;
  Volume : float64
}.

Record DataFrame : Type := mkFrame {
  columns : list string;
  rows : list Row
}.

Inductive NumCol : Type := ColOpen | ColHigh | ColLow | ColClose | ColVolume.

Definition required_columns : list string :=
  ["Date"; "Open"; "High"; "Low"; "Close"; "Volume"]%string.

Definition numeric_cols : list NumCol :=
  [ColOpen; ColHigh; ColLow; ColClose; ColVolume].

Definition get_col (c : NumCol) (r : Row) : float64 :=
  match c with
  | ColOpen => Open r
  | ColHigh => High r
  | ColLow => Low r
  | ColClose => Close r
  | ColVolume => Volume r
  end.

Definition set_col (c : NumCol) (v : float64) (r : Row) : Row :=
  match c with
  | ColOpen => mkRow (Date r) v (High r) (Low r) (Close r) (Volume r)
  | ColHigh => mkRow (Date r) (Open r) v (Low r) (Close r) (Volume r)
  | ColLow => mkRow (Date r) (Open r) (High r) v (Close r) (Volume r)
  | ColClose => mkRow (Date r) (Open r) (High r) (Low r) v (Volume r)
  | ColVolume => mkRow (Date r) (Open r) (High r) (Low r) (Close r) v
  end.

(** [[col for col in required_columns if col not in df.columns]] *)
Definition missing_columns (df : DataFrame) : list string :=
  List.filter (fun c => negb (existsb (String.eqb c) (columns df)))
    required_columns.

(** [df.replace([np.inf, -np.inf], np.nan)] *)
Definition replace_inf (x : float64) : float64 :=
  match x with
  | PosInf | NegInf => NaN
  | _ => x
  end.

Definition replace_inf_row (r : Row) : Row :=
  mkRow (Date r) (replace_inf (Open r)) (replace_inf (High r))
    (replace_inf (Low r)) (replace_inf (Close r)) (replace_inf (Volume r)).

(** [df.dropna(subset=['Date','Open','High','Low','Close','Volume'])] *)
Definition row_has_na (r : Row) : bool :=
  match Date r with None => true | Some _ => false end
  || isna (Open r) || isna (High r) || isna (Low r)
  || isna (Close r) || isna (Volume r).

Definition dropna (l : list Row) : list Row :=
  List.filter (fun r => negb (row_has_na r)) l.

(** The [invalid_mask] of [_final_data_cleaning]. *)
Definition invalid_mask (r : Row) : bool :=
  flt (High r) (Low r)
  || flt (High r) (Open r)
  || flt (High r) (Close r)
  || fgt (Low r) (Open r)
  || fgt (Low r) (Close r)
  || fle (Open r) (Fin 0)
  || fle (High r) (Fin 0)
  || fle (Low r) (Fin 0)
  || fle (Close r) (Fin 0)
  || flt (Volume r) (Fin 0).

(** [if invalid_count > 0: df = df[~invalid_mask]] *)
Definition drop_invalid (l : list Row) : list Row :=
  if (0 <? List.length (List.filter invalid_mask l))%nat
  then List.filter (fun r => negb (invalid_mask r)) l
  else l.

(** [df.sort_values('Date')]: ascending, NaT last.  The model is the stable
    insertion sort; pandas' default sort gives the same keys in the same
    ascending order and does not promise an order among equal dates. *)
Definition date_leb (a b : Row) : bool :=
  match Date a, Date b with
  | Some x, Some y => (x <=? y)%Z
  | Some _, None => true
  | None, Some _ => false
  | None, None => true
  end.

Fixpoint insert_by {A : Type} (leb : A -> A -> bool) (x : A) (l : list A)
  : list A :=
  match l with
  | [] => [x]
  | y :: l' => if leb x y then x :: y :: l' else y :: insert_by leb x l'
  end.

Fixpoint sort_by {A : Type} (leb : A -> A -> bool) (l : list A) : list A :=
  match l with
  | [] => []
  | x :: l' => insert_by leb x (sort_by leb l')
  end.

Definition sort_values (l : list Row) : list Row := sort_by date_leb l.

(** [Series.quantile(p)], linear interpolation over the sorted non-missing
    values: position [p * (n - 1)], lower neighbour [floor], upper neighbour
    the next index (clipped), result [a + (b - a) * fraction]; NaN on an
    empty column.  Where the cleaner takes quantiles the infinities are
    already gone, so the values are the finite ones. *)
Definition finite_values (l : list float64) : list Q :=
  List.flat_map (fun v => match v with Fin q => [q] | _ => [] end) l.

Definition interpolate (p : Q) (s : list Q) : Q :=
  let n := List.length s in
  let idx := p * inject_Z (Z.of_nat (n - 1)) in
  let lo := Qfloor idx in
  let g := idx - inject_Z lo in
  let i := Z.to_nat lo in
  let j := Nat.min (i + 1) (n - 1) in
  let a := List.nth i s 0 in
  let b := List.nth j s 0 in
  a + (b - a) * g.

Definition quantileQ (p : Q) (l : list Q) : option Q :=
  match sort_by Qle_bool l with
  | [] => None
  | s => Some (interpolate p s)
  end.

Definition quantile (p : Q) (col : list float64) : float64 :=
  match quantileQ p (finite_values col) with
  | Some q => Fin q
  | None => NaN
  end.

(** One turn of the capping loop of [_final_data_cleaning], for column [c]. *)
Definition cap_column (c : NumCol) (l : list Row) : list Row :=
  let q1 := quantile (1 # 100) (List.map (get_col c) l) in
  let q99 := quantile (99 # 100) (List.map (get_col c) l) in
  let extreme_mask r :=
    flt (get_col c r) (fmul q1 (Fin (1 # 100)))
    || fgt (get_col c r) (fmul q99 (Fin 100)) in
  if (0 <? List.length (List.filter extreme_mask l))%nat
  then
    let l1 :=
      List.map (fun r => if flt (get_col c r) (fmul q1 (Fin (1 # 100)))
                         then set_col c q1 r else r) l in
    List.map (fun r => if fgt (get_col c r) (fmul q99 (Fin 100))
                       then set_col c q99 r else r) l1
  else l.

Definition cap_outliers (l : list Row) : list Row :=
  List.fold_left (fun acc c => cap_column c acc) numeric_cols l.

(** The rows left by the drop-missing and drop-invalid steps. *)
Definition kept_rows (df : DataFrame) : list Row :=
  drop_invalid (dropna (List.map replace_inf_row (rows df))).

(** The frame as it stands after the sort, before the capping loop. *)
Definition validated_rows (df : DataFrame) : list Row :=
  sort_values (kept_rows df).

(** The message of the error goes on with the list of the missing names. *)
Definition _final_data_cleaning (df : DataFrame) : result DataFrame :=
  match missing_columns df with
  | _ :: _ =>
      Raise (ValueError "Missing required columns after processing")
  | [] =>
      Ok (mkFrame required_columns (cap_outliers (validated_rows df)))
  end.

(** *** The uploaded table and the two format readers *)

(** The table as [pd.read_csv] hands it over: the header names, and per row
    the text of the six cells that the format reader will file under Date,
    Open, High, Low, Close and Volume. *)
Record RawRow : Type := mkRaw {
  raw_date : string;
  raw_open : string;
  raw_high : string;
  raw_low : string;
  raw_close : string;
  raw_volume : string;
  (** some cell of another column of the row is empty *)
  raw_other_missing : bool
}.

Record RawFrame : Type := mkRawFrame {
  raw_columns : list string;
  raw_rows : list RawRow
}.

Definition has_column (c : string) (cols : list string) : bool :=
  existsb (String.eqb c) cols.

(** A name carried by two columns: [df[name]] is then a frame, not a
    column, and the string and conversion calls on it raise. *)
Definition duplicated (c : string) (cols : list string) : bool :=
  (1 <? List.length (List.filter (String.eqb c) cols))%nat.

(** [df.rename(columns=mapping)] on the header. *)
Definition rename (mapping : list (string * string)) (cols : list string)
  : list string :=
  List.map
    (fun c =>
       match List.find (fun kv => String.eqb (fst kv) c) mapping with
       | Some kv => snd kv
       | None => c
       end) cols.

(** [df.columns.str.strip()], then [.str.replace] of the double quote and of
    the blank by the empty string. *)
Definition clean_header (c : string) : string :=
  Text.remove " "%char (Text.remove Text.dquote (Text.strip c)).

Definition numeric_names : list string :=
  ["Open"; "High"; "Low"; "Close"; "Volume"]%string.

(** [df[col].astype(str)], then [.str.replace] of the double quote and of the
    comma by the empty string, then [.str.strip()]. *)
Definition clean_indian_number (s : string) : string :=
  Text.strip (Text.remove ","%char (Text.remove Text.dquote s)).

(** [df['Date'].astype(str)], then [.str.replace] of the double quote by the
    empty string, then [.str.strip()]. *)
Definition clean_indian_date (s : string) : string :=
  Text.strip (Text.remove Text.dquote s).

Definition indian_column_mapping : list (string * string) :=
  [("Date", "Date"); ("OPEN", "Open"); ("HIGH", "High"); ("LOW", "Low");
   ("close", "Close"); ("VOLUME", "Volume"); ("PREVCLOSE", "PrevClose");
   ("ltp", "LTP")]%string.

Definition indian_required_cols : list string :=
  ["Date"; "OPEN"; "HIGH"; "LOW"; "close"; "VOLUME"]%string.

Definition indian_alt_mapping : list (string * string) :=
  [("Open", "OPEN"); ("High", "HIGH"); ("Low", "LOW"); ("Close", "close");
   ("Volume", "VOLUME")]%string.

(** The header after the alternative-name loop: a missing Indian name whose
    standard spelling is there is added as a copy. *)
Definition add_alternatives (cols : list string) : list string :=
  List.fold_left
    (fun acc sa =>
       if has_column (fst sa) acc && negb (has_column (snd sa) acc)
       then acc ++ [snd sa] else acc)
    indian_alt_mapping cols.

Section Formats.
Variable P : Text.DateParser.

(** The three attempts of [_process_indian_format] on the Date column:
    day-month(abbreviation)-year first, then day-first guessing, then plain
    guessing; the last one lets its exception escape. *)
Definition indian_dates (cells : list string) : result (list (option Z)) :=
  match Text.parse_column Text.to_datetime_dmy cells with
  | Some ds => Ok ds
  | None =>
      match Text.parse_column (Text.parse_dayfirst P) cells with
      | Some ds => Ok ds
      | None =>
          match Text.parse_column (Text.parse_inferred P) cells with
          | Some ds => Ok ds
          | None => Raise (ValueError "Unknown datetime string format")
          end
      end
  end.

Definition _process_indian_format (df : RawFrame) : result DataFrame :=
  let cols := raw_columns df in
  let missing_cols :=
    List.filter (fun c => negb (has_column c cols)) indian_required_cols in
  let cols1 :=
    match missing_cols with
    | [] => cols
    | _ :: _ => add_alternatives cols
    end in
  let cols2 := rename indian_column_mapping cols1 in
  if existsb (fun c => has_column c cols2 && duplicated c cols2) numeric_names
  then Raise (AttributeError "'DataFrame' object has no attribute 'str'")
  else
    let number s := Text.to_numeric (clean_indian_number s) in
    bind
      (if has_column "Date" cols2
       then
         if duplicated "Date" cols2
         then Raise (AttributeError "'DataFrame' object has no attribute 'str'")
         else indian_dates
                (List.map (fun r => clean_indian_date (raw_date r))
                   (raw_rows df))
       else Ok (List.map (fun _ => None) (raw_rows df)))
      (fun dates =>
         Ok (mkFrame cols2
               (List.map
                  (fun dr =>
                     mkRow (fst dr)
                       (number (raw_open (snd dr)))
                       (number (raw_high (snd dr)))
                       (number (raw_low (snd dr)))
                       (number (raw_close (snd dr)))
                       (number (raw_volume (snd dr))))
                  (List.combine dates (raw_rows df))))).

Definition international_column_mapping : list (string * string) :=
  [("date", "Date"); ("open", "Open"); ("high", "High"); ("low", "Low");
   ("close", "Close"); ("volume", "Volume"); ("adj_close", "Adj_Close");
   ("adjclose", "Adj_Close")]%string.

Definition _process_international_format (df : RawFrame) : result DataFrame :=
  let cols1 := List.map Text.lower (raw_columns df) in
  let cols2 := rename international_column_mapping cols1 in
  if existsb (fun c => has_column c cols2 && duplicated c cols2)
       ("Date"%string :: numeric_names)
  then Raise (TypeError "arg must be a list, tuple, 1-d array, or Series")
  else
    Ok (mkFrame cols2
          (List.map
             (fun r =>
                mkRow (Text.parse_coerce P (raw_date r))
                  (Text.to_numeric (raw_open r))
                  (Text.to_numeric (raw_high r))
                  (Text.to_numeric (raw_low r))
                  (Text.to_numeric (raw_close r))
                  (Text.to_numeric (raw_volume r)))
             (raw_rows df))).

(** The reader [process_uploaded_data] picks for [market_type]. *)
Definition read_format (market_type : string) (df : RawFrame)
  : result DataFrame :=
  if String.eqb market_type "Indian Market"
  then _process_indian_format df
  else _process_international_format df.

(** [df.empty] *)
Definition empty (df : DataFrame) : bool :=
  match rows df with
  | [] => true
  | _ :: _ => false
  end.

(** [process_uploaded_data], from the table read from the file on; the
    [except] clause re-raises what it caught. *)
Definition process_uploaded_data (df : RawFrame) (market_type : string)
  : result DataFrame :=
  let df0 := mkRawFrame (List.map clean_header (raw_columns df)) (raw_rows df) in
  bind (read_format market_type df0)
    (fun df1 =>
       bind (_final_data_cleaning df1)
         (fun df2 =>
            if empty df2
            then Raise (ValueError "No valid data remaining after processing")
            else Ok df2)).

End Formats.

(** *** The last check before a chart *)

Definition isinf (x : float64) : bool :=
  match x with
  | PosInf | NegInf => true
  | _ => false
  end.

(** [s.fillna(method='ffill')]: a missing value takes the last value that
    was there before it, and stays missing when there was none. *)
Fixpoint ffill_from (prev : float64) (s : list float64) : list float64 :=
  match s with
  | [] => []
  | x :: s' =>
      if isna x then prev :: ffill_from prev s' else x :: ffill_from x s'
  end.

Definition ffill (s : list float64) : list float64 := ffill_from NaN s.

(** [s.fillna(method='bfill')]: a missing value takes the next value that
    is there after it, and stays missing when there is none. *)
Fixpoint bfill (s : list float64) : list float64 :=
  match s with
  | [] => []
  | x :: s' =>
      let t := bfill s' in
      if isna x then List.hd NaN t :: t else x :: t
  end.

Definition col_name (c : NumCol) : string :=
  match c with
  | ColOpen => "Open"
  | ColHigh => "High"
  | ColLow => "Low"
  | ColClose => "Close"
  | ColVolume => "Volume"
  end.

(** One column through the loop of [validate_data_for_charts]. *)
Definition fix_column (s : list float64) : list float64 :=
  let has_inf := existsb isinf s in
  let has_nan := existsb isna s in
  if has_inf || has_nan then bfill (ffill (List.map replace_inf s)) else s.

(** [df[col] = values] *)
Definition assign (c : NumCol) (values : list float64) (l : list Row)
  : list Row :=
  List.map (fun vr => set_col c (fst vr) (snd vr)) (List.combine values l).

(** One turn of the loop of [validate_data_for_charts] on a column that is
    there. *)
Definition repair_column (c : NumCol) (l : list Row) : list Row :=
  assign c (fix_column (List.map (get_col c) l)) l.

(** [df.dropna(subset=numeric_cols)] *)
Definition numeric_has_na (r : Row) : bool :=
  isna (Open r) || isna (High r) || isna (Low r)
  || isna (Close r) || isna (Volume r).

(** The text Python gives for a list of names. *)
Definition py_list_repr (l : list string) : string :=
  ("[" ++ String.concat ", " (List.map (fun n => "'" ++ n ++ "'") l) ++ "]")
  %string.

(** [validate_data_for_charts].  The columns are repaired in the frame that
    was passed in; the returned frame is the one [dropna] builds from it.
    [dropna] raises KeyError when one of the five names is not a column. *)
Definition validate_data_for_charts (df : DataFrame) : result DataFrame :=
  let repaired :=
    List.fold_left
      (fun acc c =>
         if has_column (col_name c) (columns df)
         then repair_column c acc
         else acc)
      numeric_cols (rows df) in
  match List.filter (fun n => negb (has_column n (columns df))) numeric_names
  with
  | [] =>
      Ok (mkFrame (columns df)
            (List.filter (fun r => negb (numeric_has_na r)) repaired))
  | missing => Raise (KeyError (py_list_repr missing))
  end.

(** *** What a cleaned series is expected to satisfy *)

(** [r] is a complete bar: a date and five finite numbers. *)
Definition bar (r : Row) (d : Z) (o h l c v : Q) : Prop :=
  r = mkRow (Some d) (Fin o) (Fin h) (Fin l) (Fin c) (Fin v).

Definition prices_ordered (r : Row) : Prop :=
  exists d o h l c v,
    bar r d o h l c v /\ l <= o /\ o <= h /\ l <= c /\ c <= h.

Definition prices_positive (r : Row) : Prop :=
  exists d o h l c v,
    bar r d o h l c v /\ 0 < o /\ 0 < h /\ 0 < l /\ 0 < c.

Definition volume_nonneg (r : Row) : Prop :=
  exists d o h l c v, bar r d o h l c v /\ 0 <= v.

Definition odate_le (a b : option Z) : Prop :=
  match a, b with
  | Some x, Some y => (x <= y)%Z
  | _, _ => False
  end.


(** Dates never decrease from one row to the next. *)
Definition dates_ascending (l : list Row) : Prop :=
  Sorted odate_le (List.map Date l).


(** The rule of the capping step on one value, given the two percentiles. *)
Definition cap_value (q1 q99 v : float64) : float64 :=
  if flt v (fmul q1 (Fin (1 # 100))) then q1
  else if fgt v (fmul q99 (Fin 100)) then q99
  else v.

(** The value range the validation leaves in each numeric column: prices
    strictly positive, volume non-negative. *)
Definition col_ok (c : NumCol) (q : Q) : Prop :=
  match c with
  | ColVolume => 0 <= q
  | _ => 0 < q
  end.

Definition sane (r : Row) : Prop :=
  (exists d, Date r = Some d)
  /\ forall c, exists q, get_col c r = Fin q /\ col_ok c q.

(** One row through one turn of the capping loop. *)
Definition cap_row (c : NumCol) (q1 q99 : float64) (r : Row) : Row :=
  if flt (get_col c r) (fmul q1 (Fin (1 # 100))) then set_col c q1 r
  else if fgt (get_col c r) (fmul q99 (Fin 100)) then set_col c q99 r
  else r.


(** *** Sample frames *)

Definition rowQ (d : Z) (o h l c v : Q) : Row :=
  mkRow (Some d) (Fin o) (Fin h) (Fin l) (Fin c) (Fin v).


(** A penny bar next to a bar four orders of magnitude above it, given in
    descending date order. *)
Definition penny_frame : DataFrame :=
  mkFrame required_columns
    [rowQ 2 10000 10000 10000 10000 0; rowQ 1 1 50 1 50 0].


(** The header of an exchange download and the row of 19 August 2025, once
    with bare cells and once with the quote characters left in the cells. *)
Definition indian_header : list string :=
  ["Date "; "series "; "OPEN "; "HIGH "; "LOW "; "PREV. CLOSE "; "ltp ";
   "close "; "vwap "; "52W H "; "52W L "; "VOLUME "; "VALUE ";
   "No of trades "]%string.

Definition quoted (s : string) : string :=
  String Text.dquote (s ++ String Text.dquote EmptyString)%string.

Definition indian_sample : RawFrame :=
  mkRawFrame indian_header
    [mkRaw "19-Aug-2025" "1,390.00" "1,421.00" "1,389.10" "1,420.10"
       "1,43,84,719" false].

Definition indian_sample_quoted : RawFrame :=
  mkRawFrame indian_header
    [mkRaw (quoted "19-Aug-2025") (quoted "1,390.00") (quoted "1,421.00")
       (quoted "1,389.10") (quoted "1,420.10") (quoted "1,43,84,719") false].

(** 2025-08-19 as a day count, and the normalised row. *)
Definition day_2025_08_19 : Z := Text.days_from_civil (Text.mkDate 2025 8 19).

Definition indian_sample_cleaned : DataFrame :=
  mkFrame required_columns
    [rowQ day_2025_08_19 1390 1421 (13891 # 10) (14201 # 10) 14384719].

(** A parser that guesses nothing but year-month-day in digits. *)
Definition iso_date (s : string) : option Z :=
  let '(y, ny, s1) := Text.take_digits (list_ascii_of_string s) 0 0 in
  match ny, s1 with
  | 4%nat, "-"%char :: s2 =>
      let '(m, nm, s3) := Text.take_digits s2 0 0 in
      match nm, s3 with
      | 2%nat, "-"%char :: s4 =>
          let '(d, nd, s5) := Text.take_digits s4 0 0 in
          match nd, s5 with
          | 2%nat, [] =>
              if ((1 <=? m) && (m <=? 12) && (1 <=? d)
                  && (d <=? Text.days_in_month y m))%Z
              then Some (Text.days_from_civil (Text.mkDate y m d))
              else None
          | _, _ => None
          end
      | _, _ => None
      end
  | _, _ => None
  end.

Definition iso_only : Text.DateParser :=
  Text.mkDateParser iso_date
    (fun s => option_map Some (iso_date s))
    (fun s => option_map Some (iso_date s)).

(** An international table: its first row has High below Open, its second
    row has no Open. *)
Definition hopeless_upload : RawFrame :=
  mkRawFrame ["Date"; "Open"; "High"; "Low"; "Close"; "Volume"]%string
    [mkRaw "2024-01-02" "10" "9" "8" "9" "100" false;
     mkRaw "2024-01-03" "n/a" "11" "9" "10" "100" false].

(** The same table with a third, valid row. *)
Definition hopeful_upload : RawFrame :=
  mkRawFrame ["Date"; "Open"; "High"; "Low"; "Close"; "Volume"]%string
    (raw_rows hopeless_upload
     ++ [mkRaw "2024-01-04" "10" "11" "9" "10.5" "100" false]).

Definition plain_cleaned : DataFrame :=
  mkFrame required_columns
    [rowQ 1 100 103 99 102 1000;
     rowQ 2 102 104 100 101 1200;
     rowQ 3 102 105 101 104 1500].

End DataProcessor.

(** ** components/indian_data_loader.py *)

Module IndianDataLoader.
Import DataProcessor.

Definition column_mapping : list (string * string) :=
  [("Date", "Date"); ("OPEN", "Open"); ("HIGH", "High"); ("LOW", "Low");
   ("close", "Close"); ("VOLUME", "Volume")]%string.

Definition error_text (e : error) : string :=
  match e with
  | ValueError m | KeyError m | AttributeError m | TypeError m
  | Exception m => m
  end.

(** [df[col].astype(str)], then [.str.replace] of the double quote and of the
    comma by the empty string. *)
Definition clean_number (s : string) : string :=
  Text.remove ","%char (Text.remove Text.dquote s).

Section Loader.
Variable P : Text.DateParser.

(** Format day-month(abbreviation)-year first, guessing second. *)
Definition load_dates (cells : list string) : result (list (option Z)) :=
  match Text.parse_column Text.to_datetime_dmy cells with
  | Some ds => Ok ds
  | None =>
      match Text.parse_column (Text.parse_inferred P) cells with
      | Some ds => Ok ds
      | None => Raise (ValueError "Unknown datetime string format")
      end
  end.

(** The body of the [try] block of [load_indian_csv], from the table read
    from the file on. *)
Definition load_indian_csv_body (df : RawFrame) : result DataFrame :=
  let cols := List.map clean_header (raw_columns df) in
  let missing :=
    List.filter (fun c => negb (has_column c cols))
      (List.map fst column_mapping) in
  match missing with
  | _ :: _ => Raise (ValueError "Missing required columns")
  | [] =>
      let cols2 := rename column_mapping cols in
      if existsb (fun c => duplicated c cols2) required_columns
      then Raise (AttributeError "'DataFrame' object has no attribute 'str'")
      else
        bind
          (load_dates
             (List.map (fun r => clean_indian_date (raw_date r)) (raw_rows df)))
          (fun dates =>
             let number s := Text.to_numeric (clean_number s) in
             let typed :=
               List.map
                 (fun dr =>
                    (mkRow (fst dr)
                       (number (raw_open (snd dr)))
                       (number (raw_high (snd dr)))
                       (number (raw_low (snd dr)))
                       (number (raw_close (snd dr)))
                       (number (raw_volume (snd dr))),
                     raw_other_missing (snd dr)))
                 (List.combine dates (raw_rows df)) in
             (* sort_values('Date'), dropna(subset=six) *)
             let sorted := sort_by (fun a b => date_leb (fst a) (fst b)) typed in
             let complete :=
               List.filter (fun rm => negb (row_has_na (fst rm))) sorted in
             (* replace(inf, nan).dropna(): any column of the row *)
             let finite :=
               List.filter
                 (fun rm => negb (row_has_na (replace_inf_row (fst rm)))
                            && negb (snd rm)) complete in
             match finite with
             | [] => Raise (ValueError "No valid data found after cleaning")
             | _ :: _ => Ok (mkFrame required_columns (List.map fst finite))
             end)
  end.

(** [load_indian_csv]: any exception leaves as a plain [Exception]. *)
Definition load_indian_csv (df : RawFrame) : result DataFrame :=
  match load_indian_csv_body df with
  | Ok d => Ok d
  | Raise e =>
      Raise (Exception ("Error processing Indian CSV file: " ++ error_text e))
  end.

End Loader.



(** What the loader asks of the [yfinance] package, an external library:
    the price history of a ticker over a period, as rows of the six columns,
    and the company record; either call may raise. *)
Record Yahoo (Info : Type) : Type := mkYahoo {
  history : string -> string -> result (list Row);
  info : string -> result Info
}.
Arguments history {Info} _ _ _.
Arguments info {Info} _ _.

Section Ticker.
Context {Info : Type} (yf : Yahoo Info).

(** The [except] clause of [load_indian_ticker], with the value [ticker]
    holds when the exception arrives. *)
Definition fetch_error (ticker : string) (e : error) : error :=
  Exception
    ("Error fetching Indian stock data for " ++ ticker ++ ": "
     ++ error_text e)%string.

(** From the history on: the two emptiness tests around the cleaning, then
    the company record. *)
Definition clean_history (ticker : string) (hist : list Row)
  : result (DataFrame * Info * string) :=
  match hist with
  | [] =>
      Raise (ValueError
               ("No data found for Indian ticker " ++ ticker
                ++ ". Try adding .NS (NSE) or .BO (BSE) suffix.")%string)
  | _ :: _ =>
      match dropna (List.map replace_inf_row hist) with
      | [] =>
          Raise (ValueError
                   ("No valid data available for ticker " ++ ticker
                    ++ " after cleaning.")%string)
      | df =>
          bind (info yf ticker)
            (fun i => Ok (mkFrame required_columns df, i, ticker))
      end
  end.

Definition reraise {A : Type} (ticker : string) (r : result A) : result A :=
  match r with
  | Ok a => Ok a
  | Raise e => Raise (fetch_error ticker e)
  end.

(** [load_indian_ticker]: a ticker without exchange suffix is tried on the
    NSE first and, when that history is empty, on the BSE. *)
Definition load_indian_ticker (ticker period : string)
  : result (DataFrame * Info * string) :=
  if negb (Text.endswith ticker ".NS") && negb (Text.endswith ticker ".BO")
  then
    let nse_ticker := (ticker ++ ".NS")%string in
    match history yf nse_ticker period with
    | Raise e => Raise (fetch_error ticker e)
    | Ok [] =>
        let bse_ticker := (ticker ++ ".BO")%string in
        match history yf bse_ticker period with
        | Raise e => Raise (fetch_error ticker e)
        | Ok hist => reraise bse_ticker (clean_history bse_ticker hist)
        end
    | Ok hist => reraise nse_ticker (clean_history nse_ticker hist)
    end
  else
    match history yf ticker period with
    | Raise e => Raise (fetch_error ticker e)
    | Ok hist => reraise ticker (clean_history ticker hist)
    end.

End Ticker.

End IndianDataLoader.

(** ** components/data_loader.py *)

Module DataLoader.
Import DataProcessor.

Section Yahoo.
Context {Info : Type} (yf : IndianDataLoader.Yahoo Info).

(** The body of the [try] block of [load_from_yahoo]. *)
Definition load_from_yahoo_body (ticker period : string)
  : result (DataFrame * Info) :=
  bind (IndianDataLoader.history yf ticker period)
    (fun hist =>
       match hist with
       | [] =>
           Raise (ValueError
                    ("No data found for ticker " ++ ticker
                     ++ ". The symbol may be delisted or invalid.")%string)
       | _ :: _ =>
           match dropna (List.map replace_inf_row hist) with
           | [] =>
               Raise (ValueError
                        ("No valid data available for ticker " ++ ticker
                         ++ " after cleaning.")%string)
           | df =>
               bind (IndianDataLoader.info yf ticker)
                 (fun i => Ok (mkFrame required_columns df, i))
           end
       end).

(** [load_from_yahoo]: any exception leaves as a plain [Exception]. *)
Definition load_from_yahoo (ticker period : string)
  : result (DataFrame * Info) :=
  match load_from_yahoo_body ticker period with
  | Ok x => Ok x
  | Raise e =>
      Raise (Exception
               ("Error fetching data for " ++ ticker ++ ": "
                ++ IndianDataLoader.error_text e)%string)
  end.

End Yahoo.

End DataLoader.

(** ** components/simple_candlestick.py *)

Module SimpleCandlestickChart.
Import DataProcessor.




End SimpleCandlestickChart.

(** ** Columns: the pandas operations the analysis uses *)

Module Series.

(** [a op b], element by element over two aligned columns. *)
Fixpoint zip_with (f : float64 -> float64 -> float64) (a b : list float64)
  : list float64 :=
  match a, b with
  | x :: a', y :: b' => f x y :: zip_with f a' b'
  | _, _ => []
  end.

Definition sub := zip_with fsub.
Definition add := zip_with fadd.
Definition mul := zip_with fmul.
Definition div := zip_with fdiv.
Definition scale (k : Q) (a : list float64) : list float64 :=
  List.map (fun x => fmul x (Fin k)) a.
Definition over (k : Q) (a : list float64) : list float64 :=
  List.map (fun x => fdiv x (Fin k)) a.

Definition fmin (a b : float64) : float64 := if flt b a then b else a.
Definition fmax (a b : float64) : float64 := if flt a b then b else a.

(** Smallest, largest and mean value of a window without NaN. *)
Definition min_of (w : list float64) : float64 :=
  match w with
  | [] => NaN
  | x :: w' => List.fold_left fmin w' x
  end.

Definition max_of (w : list float64) : float64 :=
  match w with
  | [] => NaN
  | x :: w' => List.fold_left fmax w' x
  end.

Definition mean_of (w : list float64) : float64 :=
  fdiv (List.fold_left fadd w (Fin 0))
       (Fin (inject_Z (Z.of_nat (List.length w)))).

(** [s.rolling(window=w).agg()]: NaN until [w] values are there, NaN when
    the window holds a NaN, else the aggregate of the last [w] values. *)
Definition window_at (w i : nat) (s : list float64) : list float64 :=
  List.firstn w (List.skipn (i + 1 - w) s).

Definition rolling (agg : list float64 -> float64) (w : nat)
  (s : list float64) : list float64 :=
  List.map
    (fun i =>
       if (i + 1 <? w)%nat then NaN
       else if existsb isna (window_at w i s) then NaN
       else agg (window_at w i s))
    (List.seq 0 (List.length s)).

Definition rolling_min := rolling min_of.
Definition rolling_max := rolling max_of.
Definition rolling_mean := rolling mean_of.

(** [s.cumsum()]: a NaN stays NaN and is left out of the running sum. *)
Fixpoint cumsum_from (acc : float64) (s : list float64) : list float64 :=
  match s with
  | [] => []
  | x :: s' =>
      if isna x then NaN :: cumsum_from acc s'
      else fadd acc x :: cumsum_from (fadd acc x) s'
  end.

Definition cumsum (s : list float64) : list float64 := cumsum_from (Fin 0) s.

(** [s.max()] and [s.min()]: NaN values are skipped. *)
Definition max (s : list float64) : float64 :=
  max_of (List.filter (fun x => negb (isna x)) s).

Definition min (s : list float64) : float64 :=
  min_of (List.filter (fun x => negb (isna x)) s).

(** [s.iloc[-k]] for [k >= 1]: [None] stands for IndexError. *)
Definition iloc_back (k : nat) (s : list float64) : option float64 :=
  if (k <=? List.length s)%nat then List.nth_error s (List.length s - k)
  else None.

End Series.

(** ** Frames held by reference *)

(** A frame: its number of rows and its columns by name.  The Date column is
    carried as day counts.  pandas keeps every column aligned with the index,
    so each column has [nrows] entries; reads that cannot fail on aligned
    columns and feed only the display are left out of the analysis below. *)
Record Frame : Type := mkTable {
  nrows : nat;
  data : gmap string (list float64)
}.

(** The objects the analysis touches: the frames, by reference, and the two
    lists of the [ComprehensiveTechnicalAnalysis] instance. *)
Record World : Type := mkWorld {
  heap : gmap nat Frame;
  signals : list string;
  summary_points : list string
}.

(** Computations that read and write the world and may raise; what was
    written before an exception stays written. *)
Definition M (A : Type) : Type := World -> result A * World.

Definition ret {A : Type} (a : A) : M A := fun w => (Ok a, w).

Definition raise {A : Type} (e : error) : M A := fun w => (Raise e, w).

Definition mbind {A B : Type} (m : M A) (f : A -> M B) : M B :=
  fun w =>
    match m w with
    | (Ok a, w') => f a w'
    | (Raise e, w') => (Raise e, w')
    end.

Notation "'let*' x ':=' m 'in' k" := (mbind m (fun x => k))
  (at level 10, x name, m at level 100, k at level 200).
Notation "m ';;' k" := (mbind m (fun _ => k))
  (at level 100, k at level 200, right associativity).

(** [try: m except Exception as e: h e] *)
Definition try_except {A : Type} (m : M A) (h : error -> M A) : M A :=
  fun w =>
    match m w with
    | (Ok a, w') => (Ok a, w')
    | (Raise e, w') => h e w'
    end.

Definition of_option {A : Type} (e : error) (o : option A) : M A :=
  match o with
  | Some a => ret a
  | None => raise e
  end.

Definition read_frame (df : nat) : M Frame :=
  fun w => of_option (Exception "no such object") (heap w !! df) w.

(** A new object holding [f]. *)
Definition alloc (f : Frame) : M nat :=
  fun w =>
    let l := fresh (dom (heap w)) in
    (Ok l, mkWorld (<[l := f]> (heap w)) (signals w) (summary_points w)).

(** [df.copy()] *)
Definition copy (df : nat) : M nat :=
  let* f := read_frame df in alloc f.

(** [col in df.columns] *)
Definition has_col (df : nat) (col : string) : M bool :=
  let* f := read_frame df in
  ret (match data f !! col with Some _ => true | None => false end).

(** [df[col]] *)
Definition get_column (df : nat) (col : string) : M (list float64) :=
  let* f := read_frame df in of_option (KeyError col) (data f !! col).

(** [df[col] = s] *)
Definition set_column (df : nat) (col : string) (s : list float64) : M unit :=
  let* f := read_frame df in
  fun w =>
    (Ok tt,
     mkWorld (<[df := mkTable (nrows f) (<[col := s]> (data f))]> (heap w))
       (signals w) (summary_points w)).

(** [len(df)] and [df.empty] *)
Definition len (df : nat) : M nat :=
  let* f := read_frame df in ret (nrows f).

Definition is_empty (df : nat) : M bool :=
  let* f := read_frame df in
  ret ((nrows f =? 0)%nat || (size (data f) =? 0)%nat).

(** [df[col].iloc[-k]] *)
Definition last_value (df : nat) (col : string) (k : nat) : M float64 :=
  let* s := get_column df col in
  of_option (Exception "IndexError: single positional indexer is out-of-bounds")
    (Series.iloc_back k s).

(** [self.signals.append(s)] and [self.summary_points.append(s)] *)
Definition append_signal (s : string) : M unit :=
  fun w => (Ok tt, mkWorld (heap w) (signals w ++ [s]) (summary_points w)).

Definition append_summary (s : string) : M unit :=
  fun w => (Ok tt, mkWorld (heap w) (signals w) (summary_points w ++ [s])).

(** The indicator functions of the [ta] package, an external library: each
    takes columns and returns a column aligned with them, or raises
    ([None]). *)
Record TaLib : Type := mkTa {
  sma_indicator : nat -> list float64 -> option (list float64);
  ema_indicator : nat -> list float64 -> option (list float64);
  rsi : nat -> list float64 -> option (list float64);
  macd : list float64 -> option (list float64);
  macd_signal : list float64 -> option (list float64);
  macd_diff : list float64 -> option (list float64);
  bollinger_hband : list float64 -> option (list float64);
  bollinger_mavg : list float64 -> option (list float64);
  bollinger_lband : list float64 -> option (list float64);
  average_true_range :
    list float64 -> list float64 -> list float64 -> option (list float64);
  on_balance_volume : list float64 -> list float64 -> option (list float64);
  stoch :
    list float64 -> list float64 -> list float64 -> option (list float64);
  stoch_signal :
    list float64 -> list float64 -> list float64 -> option (list float64)
}.

Definition of_ta {A : Type} (o : option A) : M A :=
  of_option (Exception "raised inside ta") o.

(** ** components/comprehensive_technical_analysis.py *)

Module ComprehensiveTechnicalAnalysis.

(** [__init__]: both lists start empty. *)
Definition __init__ (h : gmap nat Frame) : World := mkWorld h [] [].

(** The Stochastic %K column as [_calculate_all_indicators] computes it:
    [(Close - Low.rolling(14).min())
     / (High.rolling(14).max() - Low.rolling(14).min()) * 100]. *)
Definition stoch_k (close high low : list float64) : list float64 :=
  Series.scale 100
    (Series.div
       (Series.sub close (Series.rolling_min 14 low))
       (Series.sub (Series.rolling_max 14 high) (Series.rolling_min 14 low))).

(** [(Volume * (High + Low + Close) / 3).cumsum() / Volume.cumsum()] *)
Definition vwap (high low close volume : list float64) : list float64 :=
  Series.div
    (Series.cumsum
       (Series.over 3
          (Series.mul volume (Series.add (Series.add high low) close))))
    (Series.cumsum volume).

(** The columns the analysis writes: the indicators of
    [_calculate_all_indicators] and the volume average of [_volume_chart]. *)
Definition written_columns : list string :=
  ["SMA_20"; "SMA_50"; "SMA_200"; "EMA_20"; "RSI"; "MACD"; "MACD_Signal";
   "MACD_Histogram"; "Stoch_K"; "Stoch_D"; "BB_Upper"; "BB_Middle";
   "BB_Lower"; "ATR"; "OBV"; "VWAP"; "Volume_MA"]%string.

(** [g] has the rows of [f] and, under every other name, the column [f]
    has. *)
Definition extends (f g : Frame) : Prop :=
  nrows g = nrows f
  /\ forall col, ~ List.In col written_columns ->
                 data g !! col = data f !! col.

Section Engine.
Variable ta : TaLib.

(** The [try] block of [_calculate_all_indicators] and its handler. *)
Definition try_indicators (df df_calc : nat) : M nat :=
  try_except
    (let* close := get_column df_calc "Close" in
     let* sma_20 := of_ta (sma_indicator ta 20 close) in
     set_column df_calc "SMA_20" sma_20 ;;
     let* sma_50 := of_ta (sma_indicator ta 50 close) in
     set_column df_calc "SMA_50" sma_50 ;;
     let* sma_200 := of_ta (sma_indicator ta 200 close) in
     set_column df_calc "SMA_200" sma_200 ;;
     let* ema_20 := of_ta (ema_indicator ta 20 close) in
     set_column df_calc "EMA_20" ema_20 ;;
     let* r := of_ta (rsi ta 14 close) in
     set_column df_calc "RSI" r ;;
     let* m := of_ta (macd ta close) in
     let* ms := of_ta (macd_signal ta close) in
     let* md := of_ta (macd_diff ta close) in
     set_column df_calc "MACD" m ;;
     set_column df_calc "MACD_Signal" ms ;;
     set_column df_calc "MACD_Histogram" md ;;
     let* low := get_column df_calc "Low" in
     let* high := get_column df_calc "High" in
     set_column df_calc "Stoch_K" (stoch_k close high low) ;;
     set_column df_calc "Stoch_D"
       (Series.rolling_mean 3 (stoch_k close high low)) ;;
     let* hb := of_ta (bollinger_hband ta close) in
     let* mb := of_ta (bollinger_mavg ta close) in
     let* lb := of_ta (bollinger_lband ta close) in
     set_column df_calc "BB_Upper" hb ;;
     set_column df_calc "BB_Middle" mb ;;
     set_column df_calc "BB_Lower" lb ;;
     let* atr := of_ta (average_true_range ta high low close) in
     set_column df_calc "ATR" atr ;;
     let* volume := get_column df_calc "Volume" in
     let* obv := of_ta (on_balance_volume ta close volume) in
     set_column df_calc "OBV" obv ;;
     let* given := has_col df "vwap" in
     (if given
      then let* v := get_column df "vwap" in set_column df_calc "VWAP" v
      else set_column df_calc "VWAP" (vwap high low close volume)) ;;
     ret df_calc)
    (fun _ => ret df).

Definition _calculate_all_indicators (df : nat) : M nat :=
  let* df_calc := copy df in try_indicators df df_calc.

(** [_support_resistance_analysis] only displays levels read from High and
    Low. *)
Definition _support_resistance_analysis (df : nat) : M unit :=
  get_column df "High" ;; get_column df "Low" ;; ret tt.

Definition _fifty_two_week_analysis (df : nat) : M unit :=
  let* current_price := last_value df "Close" 1 in
  let* given_high := has_col df "52WH" in
  let* given_low := has_col df "52WL" in
  let* week_52_high :=
    (if given_high && given_low then last_value df "52WH" 1
     else let* h := get_column df "High" in ret (Series.max h)) in
  let* week_52_low :=
    (if given_high && given_low then last_value df "52WL" 1
     else let* l := get_column df "Low" in ret (Series.min l)) in
  let range_position :=
    fmul (fdiv (fsub current_price week_52_low)
               (fsub week_52_high week_52_low)) (Fin 100) in
  if fgt range_position (Fin 80)
  then append_summary "Near 52-week high, potential breakout"
  else if flt range_position (Fin 20)
  then append_summary "Near 52-week low, at support levels"
  else ret tt.

Definition _trend_analysis (df : nat) : M unit :=
  _support_resistance_analysis df ;; _fifty_two_week_analysis df.

(** The crossover test of [_cross_analysis] on the last two points. *)
Definition cross_signal (prev_50 prev_200 curr_50 curr_200 : float64)
  : M unit :=
  let prev_50_above_200 := fgt prev_50 prev_200 in
  let curr_50_above_200 := fgt curr_50 curr_200 in
  if negb prev_50_above_200 && curr_50_above_200
  then append_signal "BUY - Golden Cross detected" ;;
       append_summary "Golden Cross bullish signal"
  else if prev_50_above_200 && negb curr_50_above_200
  then append_signal "SELL - Death Cross detected" ;;
       append_summary "Death Cross bearish signal"
  else ret tt.

Definition _cross_analysis (df : nat) : M unit :=
  let* n := len df in
  (* recent_data = df.tail(10) *)
  (if (1 <? Nat.min 10 n)%nat
   then
     let* prev_50 := last_value df "SMA_50" 2 in
     let* prev_200 := last_value df "SMA_200" 2 in
     let* curr_50 := last_value df "SMA_50" 1 in
     let* curr_200 := last_value df "SMA_200" 1 in
     cross_signal prev_50 prev_200 curr_50 curr_200
   else ret tt) ;;
  let* current_close := last_value df "Close" 1 in
  let* current_sma_20 := last_value df "SMA_20" 1 in
  let* current_sma_50 := last_value df "SMA_50" 1 in
  let* current_sma_200 := last_value df "SMA_200" 1 in
  if fgt current_close current_sma_20 && fgt current_sma_20 current_sma_50
     && fgt current_sma_50 current_sma_200
  then append_summary "Perfect bullish MA alignment"
  else if flt current_close current_sma_20 && flt current_sma_20 current_sma_50
          && flt current_sma_50 current_sma_200
  then append_summary "Perfect bearish MA alignment"
  else ret tt.

Definition _moving_averages_analysis (df : nat) : M unit :=
  (* the chart reads the four averages *)
  get_column df "SMA_20" ;; get_column df "SMA_50" ;;
  get_column df "SMA_200" ;; get_column df "EMA_20" ;;
  _cross_analysis df.

Definition _rsi_analysis (df : nat) : M unit :=
  let* current_rsi := last_value df "RSI" 1 in
  if fgt current_rsi (Fin 70)
  then append_signal "SELL - RSI Overbought" ;;
       append_summary "RSI indicates overbought condition"
  else if flt current_rsi (Fin 30)
  then append_signal "BUY - RSI Oversold" ;;
       append_summary "RSI indicates oversold condition"
  else append_summary "RSI in neutral zone".

Definition _macd_analysis (df : nat) : M unit :=
  get_column df "MACD" ;; get_column df "MACD_Signal" ;;
  get_column df "MACD_Histogram" ;;
  let* current_macd := last_value df "MACD" 1 in
  let* current_signal := last_value df "MACD_Signal" 1 in
  let* n := len df in
  if (1 <? n)%nat
  then
    let* prev_macd := last_value df "MACD" 2 in
    let* prev_signal := last_value df "MACD_Signal" 2 in
    if fle prev_macd prev_signal && fgt current_macd current_signal
    then append_signal "BUY - MACD Bullish Crossover" ;;
         append_summary "MACD shows bullish crossover"
    else if fge prev_macd prev_signal && flt current_macd current_signal
    then append_signal "SELL - MACD Bearish Crossover" ;;
         append_summary "MACD shows bearish crossover"
    else ret tt
  else ret tt.

Definition _stochastic_analysis (df : nat) : M unit :=
  let* current_k := last_value df "Stoch_K" 1 in
  let* current_d := last_value df "Stoch_D" 1 in
  if fgt current_k (Fin 80) && fgt current_d (Fin 80)
  then append_signal "SELL - Stochastic Overbought"
  else if flt current_k (Fin 20) && flt current_d (Fin 20)
  then append_signal "BUY - Stochastic Oversold"
  else ret tt.

Definition _momentum_analysis (df : nat) : M unit :=
  _rsi_analysis df ;; _macd_analysis df ;; _stochastic_analysis df.

Definition _bollinger_bands_analysis (df : nat) : M unit :=
  get_column df "BB_Upper" ;; get_column df "BB_Lower" ;;
  get_column df "BB_Middle" ;;
  let* current_close := last_value df "Close" 1 in
  let* current_upper := last_value df "BB_Upper" 1 in
  let* current_lower := last_value df "BB_Lower" 1 in
  if fgt current_close current_upper
  then append_summary "Price above Bollinger upper band"
  else if flt current_close current_lower
  then append_signal "BUY - Price below Bollinger lower band" ;;
       append_summary "Price below Bollinger lower band"
  else ret tt.

Definition _atr_analysis (df : nat) : M unit :=
  let* current_atr := last_value df "ATR" 1 in
  let* current_price := last_value df "Close" 1 in
  let atr_percentage := fmul (fdiv current_atr current_price) (Fin 100) in
  if fgt atr_percentage (Fin 3)
  then append_summary "High volatility environment"
  else if flt atr_percentage (Fin 1)
  then append_summary "Low volatility consolidation"
  else ret tt.

Definition _volatility_analysis (df : nat) : M unit :=
  _bollinger_bands_analysis df ;; _atr_analysis df.

Definition _volume_chart (df : nat) : M unit :=
  let* volume := get_column df "Volume" in
  set_column df "Volume_MA" (Series.rolling_mean 20 volume) ;;
  let* current_volume := last_value df "Volume" 1 in
  let* avg_volume :=
    of_option (Exception "IndexError: single positional indexer is out-of-bounds")
      (Series.iloc_back 1 (Series.rolling_mean 20 volume)) in
  let volume_ratio := fdiv current_volume avg_volume in
  if fgt volume_ratio (Fin 2)
  then append_summary "High trading volume indicates strong interest"
  else if flt volume_ratio (Fin (1 # 2))
  then append_summary "Low volume suggests weak participation"
  else ret tt.

Definition _vwap_analysis (df : nat) : M unit :=
  let* current_close := last_value df "Close" 1 in
  let* current_vwap := last_value df "VWAP" 1 in
  if fgt current_close current_vwap
  then append_summary "Price trading above VWAP"
  else append_summary "Price trading below VWAP".

Definition _obv_analysis (df : nat) : M unit :=
  get_column df "OBV" ;;
  let* n := len df in
  let* current_obv := last_value df "OBV" 1 in
  let* obv_10_days_ago :=
    (if (11 <=? n)%nat then last_value df "OBV" 11 else ret current_obv) in
  let obv_rising := fgt current_obv obv_10_days_ago in
  let* current_price := last_value df "Close" 1 in
  let* price_10_days_ago :=
    (if (11 <=? n)%nat then last_value df "Close" 11 else ret current_price) in
  let price_rising := fgt current_price price_10_days_ago in
  if price_rising && obv_rising
  then append_summary "OBV confirms bullish price momentum"
  else if negb price_rising && negb obv_rising
  then append_summary "OBV confirms bearish price momentum"
  else if price_rising && negb obv_rising
  then append_signal "SELL - OBV bearish divergence" ;;
       append_summary "OBV shows bearish divergence"
  else if negb price_rising && obv_rising
  then append_signal "BUY - OBV bullish divergence" ;;
       append_summary "OBV shows bullish divergence"
  else ret tt.

Definition _liquidity_analysis (df : nat) : M unit :=
  let* given := has_col df "Nooftrades" in
  if negb given then ret tt
  else
    let* trades := get_column df "Nooftrades" in
    let* current_trades := last_value df "Nooftrades" 1 in
    let* avg_trades :=
      of_option
        (Exception "IndexError: single positional indexer is out-of-bounds")
        (Series.iloc_back 1 (Series.rolling_mean 20 trades)) in
    let trades_ratio :=
      if fgt avg_trades (Fin 0) then fdiv current_trades avg_trades
      else Fin 1 in
    if fgt trades_ratio (Fin (3 # 2))
    then append_summary "High liquidity with increased trading activity"
    else if flt trades_ratio (Fin (7 # 10))
    then append_summary "Lower liquidity with reduced trading activity"
    else ret tt.

Definition _volume_analysis (df : nat) : M unit :=
  _volume_chart df ;; _vwap_analysis df ;; _obv_analysis df ;;
  _liquidity_analysis df.

(** What the last tab shows: the two filtered lists and the overall
    signal. *)
Record Summary : Type := mkSummary {
  buy_signals : list string;
  sell_signals : list string;
  overall_signal : string
}.

Definition summarize (sigs : list string) : Summary :=
  let buy := List.filter (String.prefix "BUY") sigs in
  let sell := List.filter (String.prefix "SELL") sigs in
  mkSummary buy sell
    (if (List.length sell <? List.length buy)%nat then "BUY"
     else if (List.length buy <? List.length sell)%nat then "SELL"
     else "NEUTRAL").

(** The summary of [self.signals] as they stand. *)
Definition summary_now : M Summary :=
  fun w => (Ok (summarize (signals w)), w).

Definition _signals_and_summary (df : nat) : M Summary :=
  let* r := summary_now in
  (* the market condition text and the risk assessment read these *)
  last_value df "Close" 1 ;; last_value df "RSI" 1 ;;
  last_value df "MACD" 1 ;; last_value df "MACD_Signal" 1 ;;
  last_value df "ATR" 1 ;;
  ret r.

Definition required_cols : list string :=
  ["Date"; "Open"; "High"; "Low"; "Close"; "Volume"]%string.

(** The six tabs of [analyze_stock], in their order. *)
Definition run_tabs (df_analysis : nat) : M Summary :=
  _trend_analysis df_analysis ;;
  _moving_averages_analysis df_analysis ;;
  _momentum_analysis df_analysis ;;
  _volatility_analysis df_analysis ;;
  _volume_analysis df_analysis ;;
  _signals_and_summary df_analysis.

(** [analyze_stock]: [None] when it returns before analysing. *)
Definition analyze_stock (df : nat) : M (option Summary) :=
  let* e := is_empty df in
  if e then ret None
  else
    let* f := read_frame df in
    match List.filter
            (fun c => match data f !! c with Some _ => false | None => true end)
            required_cols with
    | _ :: _ => ret None
    | [] =>
        let* df_analysis := _calculate_all_indicators df in
        let* r := run_tabs df_analysis in
        ret (Some r)
    end.

End Engine.

End ComprehensiveTechnicalAnalysis.

(** ** components/technical_analysis.py *)

Module TechnicalAnalysis.

(** The columns [calculate_indicators] writes. *)
Definition written_columns : list string :=
  ["SMA_20"; "SMA_50"; "EMA_12"; "EMA_26"; "RSI"; "MACD"; "MACD_signal";
   "MACD_histogram"; "BB_upper"; "BB_middle"; "BB_lower"; "Volume_SMA";
   "Stoch_K"; "Stoch_D"]%string.

Section Indicators.
Variable ta : TaLib.

(** The body of [calculate_indicators]: the columns are written into the
    frame it is given, and that frame is returned.  (Streamlit's
    [st.cache_data] around it runs this body whenever it has no stored
    result for the argument.) *)
Definition calculate_indicators (df : nat) : M nat :=
  let* close := get_column df "Close" in
  let* sma_20 := of_ta (sma_indicator ta 20 close) in
  set_column df "SMA_20" sma_20 ;;
  let* close := get_column df "Close" in
  let* sma_50 := of_ta (sma_indicator ta 50 close) in
  set_column df "SMA_50" sma_50 ;;
  let* close := get_column df "Close" in
  let* ema_12 := of_ta (ema_indicator ta 12 close) in
  set_column df "EMA_12" ema_12 ;;
  let* close := get_column df "Close" in
  let* ema_26 := of_ta (ema_indicator ta 26 close) in
  set_column df "EMA_26" ema_26 ;;
  let* close := get_column df "Close" in
  let* r := of_ta (rsi ta 14 close) in
  set_column df "RSI" r ;;
  let* close := get_column df "Close" in
  let* m := of_ta (macd ta close) in
  set_column df "MACD" m ;;
  let* close := get_column df "Close" in
  let* ms := of_ta (macd_signal ta close) in
  set_column df "MACD_signal" ms ;;
  let* close := get_column df "Close" in
  let* md := of_ta (macd_diff ta close) in
  set_column df "MACD_histogram" md ;;
  let* close := get_column df "Close" in
  let* hb := of_ta (bollinger_hband ta close) in
  set_column df "BB_upper" hb ;;
  let* close := get_column df "Close" in
  let* mb := of_ta (bollinger_mavg ta close) in
  set_column df "BB_middle" mb ;;
  let* close := get_column df "Close" in
  let* lb := of_ta (bollinger_lband ta close) in
  set_column df "BB_lower" lb ;;
  let* volume := get_column df "Volume" in
  set_column df "Volume_SMA" (Series.rolling_mean 20 volume) ;;
  let* high := get_column df "High" in
  let* low := get_column df "Low" in
  let* close := get_column df "Close" in
  let* k := of_ta (stoch ta high low close) in
  set_column df "Stoch_K" k ;;
  let* high := get_column df "High" in
  let* low := get_column df "Low" in
  let* close := get_column df "Close" in
  let* d := of_ta (stoch_signal ta high low close) in
  set_column df "Stoch_D" d ;;
  ret df.

(** The first step of [display_analysis]:
    [self.calculate_indicators(df.copy())]. *)
Definition display_analysis_indicators (df : nat) : M nat :=
  let* c := copy df in calculate_indicators c.

End Indicators.

(** The three labels of the overall sentiment: BULLISH, BEARISH, NEUTRAL. *)
Inductive Sentiment : Type := Bullish | Bearish | Neutral.

Record Score : Type := mkScore {
  bullish_signals : nat;
  bearish_signals : nat;
  total_signals : nat;
  sentiment : Sentiment
}.

(** The five tests of [display_summary] on the values of the last row. *)
Definition score (close sma_20 sma_50 rsi macd macd_signal stoch_k : float64)
  : Score :=
  let b0 := 0%nat in
  let r0 := 0%nat in
  (* price against the two averages *)
  let '(b1, r1) := if fgt close sma_20 then (S b0, r0) else (b0, S r0) in
  let '(b2, r2) := if fgt close sma_50 then (S b1, r1) else (b1, S r1) in
  (* RSI *)
  let '(b3, r3) :=
    if flt rsi (Fin 30) then (S b2, r2)
    else if fgt rsi (Fin 70) then (b2, S r2)
    else (b2, r2) in
  (* MACD *)
  let '(b4, r4) := if fgt macd macd_signal then (S b3, r3) else (b3, S r3) in
  (* stochastic *)
  let '(b5, r5) :=
    if flt stoch_k (Fin 20) then (S b4, r4)
    else if fgt stoch_k (Fin 80) then (b4, S r4)
    else (b4, r4) in
  mkScore b5 r5 5
    (if (r5 <? b5)%nat then Bullish
     else if (b5 <? r5)%nat then Bearish
     else Neutral).

(** [display_summary]: [latest = df.iloc[-1]] raises IndexError on a frame
    without rows; the values are then read from that row. *)
Definition display_summary (df : nat) : M Score :=
  let* n := len df in
  if (n =? 0)%nat
  then raise (Exception "IndexError: single positional indexer is out-of-bounds")
  else
    let* close := last_value df "Close" 1 in
    let* sma_20 := last_value df "SMA_20" 1 in
    let* sma_50 := last_value df "SMA_50" 1 in
    let* rsi := last_value df "RSI" 1 in
    let* macd := last_value df "MACD" 1 in
    let* macd_signal := last_value df "MACD_signal" 1 in
    let* stoch_k := last_value df "Stoch_K" 1 in
    ret (score close sma_20 sma_50 rsi macd macd_signal stoch_k).

End TechnicalAnalysis.

(** ** Sample analysis frames *)

Module Samples.
Import ComprehensiveTechnicalAnalysis.

Definition frame_of (n : nat) (cols : list (string * list float64)) : Frame :=
  mkTable n (list_to_map cols).

(** A new instance looking at one frame, held at reference 0. *)
Definition world_of (f : Frame) : World := __init__ {[ 0%nat := f ]}.

Definition fins (l : list Q) : list float64 := List.map Fin l.

(** Two rows of an analysis frame: the 50-period average passes above the
    200-period average between them. *)
Definition crossing_up : Frame :=
  frame_of 2
    [("Close", fins [100; 101]); ("SMA_20", fins [100; 100]);
     ("SMA_50", fins [98; 100]); ("SMA_200", fins [99; 99])]%string.

(** The 200-period average has its first value on the last row, below the
    50-period average; the row before it is still in warm-up. *)
Definition first_long_average : Frame :=
  frame_of 2
    [("Close", fins [100; 101]); ("SMA_20", fins [100; 100]);
     ("SMA_50", fins [100; 100]); ("SMA_200", [NaN; Fin 99])]%string.

(** A stand-in for the [ta] package.  The moving average, the relative
    strength index, the stochastic oscillator and the on-balance volume
    follow the package's definitions; the other indicators are reported as
    still in warm-up (NaN), which is what the package returns for the
    exponential average, the MACD lines and the Bollinger bands on a frame of
    fewer than twenty rows. *)
Definition nan_like (s : list float64) : list float64 :=
  List.map (fun _ => NaN) s.

(** [s.diff(1)] *)
Definition diff (s : list float64) : list float64 :=
  match s with
  | [] => []
  | _ :: s' => NaN :: Series.zip_with fsub s' s
  end.

(** [s.ewm(alpha=a, min_periods=w, adjust=False).mean()] on a column without
    NaN: each value is [(1 - a)] times the one before plus [a] times the new
    entry, and the first [w - 1] values are masked. *)
Fixpoint ewm_from (a : Q) (prev : float64) (s : list float64) : list float64 :=
  match s with
  | [] => []
  | x :: s' =>
      let y := fadd (fmul (Fin (1 - a)) prev) (fmul (Fin a) x) in
      y :: ewm_from a y s'
  end.

Definition ewm (a : Q) (w : nat) (s : list float64) : list float64 :=
  let means :=
    match s with
    | [] => []
    | x :: s' => x :: ewm_from a x s'
    end in
  List.map (fun iy => if (fst iy + 1 <? w)%nat then NaN else snd iy)
    (List.combine (List.seq 0 (List.length means)) means).

(** The relative strength index over [w] periods: smoothed gains against
    smoothed losses, 100 where there was no loss. *)
Definition rsi_of (w : nat) (close : list float64) : list float64 :=
  let a := 1 / inject_Z (Z.of_nat w) in
  let up := List.map (fun d => if fgt d (Fin 0) then d else Fin 0) (diff close) in
  let down :=
    List.map (fun d => if flt d (Fin 0) then fneg d else Fin 0) (diff close) in
  Series.zip_with
    (fun u d =>
       match d with
       | Fin q =>
           if Qeq_bool q 0 then Fin 100
           else fsub (Fin 100) (fdiv (Fin 100) (fadd (Fin 1) (fdiv u d)))
       | _ => fsub (Fin 100) (fdiv (Fin 100) (fadd (Fin 1) (fdiv u d)))
       end)
    (ewm a w up) (ewm a w down).

Fixpoint obv_from (prev : float64) (acc : float64) (close volume : list float64)
  : list float64 :=
  match close, volume with
  | c :: close', v :: volume' =>
      let acc' := if flt c prev then fsub acc v else fadd acc v in
      acc' :: obv_from c acc' close' volume'
  | _, _ => []
  end.

Definition partial_ta : TaLib :=
  mkTa
    (fun w s => Some (Series.rolling_mean w s))
    (fun _ s => Some (nan_like s))
    (fun w s => Some (rsi_of w s))
    (fun s => Some (nan_like s))
    (fun s => Some (nan_like s))
    (fun s => Some (nan_like s))
    (fun s => Some (nan_like s))
    (fun s => Some (nan_like s))
    (fun s => Some (nan_like s))
    (fun h l c => Some (nan_like c))
    (fun c v => Some (obv_from NaN (Fin 0) c v))
    (fun h l c => Some (stoch_k c h l))
    (fun h l c => Some (Series.rolling_mean 3 (stoch_k c h l))).

(** Sixteen bars rising by one each day and closing at their high. *)
Definition day (j : nat) : Q := inject_Z (Z.of_nat j).

Definition rising_bars : Frame :=
  let js := List.seq 0 16 in
  frame_of 16
    [("Date", List.map (fun j => Fin (20000 + day j)) js);
     ("Open", List.map (fun j => Fin (100 + day j)) js);
     ("High", List.map (fun j => Fin (102 + day j)) js);
     ("Low", List.map (fun j => Fin (100 + day j)) js);
     ("Close", List.map (fun j => Fin (102 + day j)) js);
     ("Volume", List.map (fun _ => Fin 1000) js)]%string.

(** Three bars. *)
Definition three_bars : Frame :=
  frame_of 3
    [("Date", fins [20000; 20001; 20002]);
     ("Open", fins [10; 11; 12]); ("High", fins [12; 13; 14]);
     ("Low", fins [9; 10; 11]); ("Close", fins [11; 12; 13]);
     ("Volume", fins [500; 600; 700])]%string.

(** Fourteen bars with High and Low both at 10 throughout; the last Close
    is recorded at 12, above the bar. *)
Definition flat_high : list float64 := List.repeat (Fin 10) 14.
Definition flat_low : list float64 := List.repeat (Fin 10) 14.
Definition close_above : list float64 := List.repeat (Fin 10) 13 ++ [Fin 12].
Definition close_inside : list float64 := List.repeat (Fin 10) 14.

End Samples.

(** ** Vocabulary of the properties *)

Definition Qle_b (x y : Q) : Prop := Qle_bool x y = true.

(** Computations that leave [self.signals] alone. *)
Definition keeps_signals {A : Type} (m : M A) : Prop :=
  forall w, signals (snd (m w)) = signals w.

(** Every signal text the engine can append. *)
Definition signal_vocabulary : list string :=
  ["BUY - Golden Cross detected"; "SELL - Death Cross detected";
   "SELL - RSI Overbought"; "BUY - RSI Oversold";
   "BUY - MACD Bullish Crossover"; "SELL - MACD Bearish Crossover";
   "SELL - Stochastic Overbought"; "BUY - Stochastic Oversold";
   "BUY - Price below Bollinger lower band";
   "SELL - OBV bearish divergence"; "BUY - OBV bullish divergence"]%string.

(** Computations that append at most [n] signals, all of them known. *)
Definition emits (n : nat) {A : Type} (m : M A) : Prop :=
  forall w,
    exists l,
      signals (snd (m w)) = signals w ++ l
      /\ (List.length l <= n)%nat
      /\ List.Forall (fun s => List.In s signal_vocabulary) l.

(** Computations that only read. *)
Definition reads {A : Type} (m : M A) : Prop := forall w, snd (m w) = w.

(** From a world where [I] holds, [m] returns a value that satisfies [Q]
    and leaves a world where [I'] holds: it does not raise. *)
Definition step {A : Type} (I : World -> Prop) (m : M A) (Q : A -> Prop)
  (I' : World -> Prop) : Prop :=
  forall w, I w -> exists a w', m w = (Ok a, w') /\ Q a /\ I' w'.

(** A frame of [n] rows whose columns all have [n] entries. *)
Definition aligned (n : nat) (f : Frame) : Prop :=
  nrows f = n
  /\ forall col s, data f !! col = Some s -> List.length s = n.

(** On columns of [n] rows the indicator functions return, and return a
    column of [n] rows. *)
Definition aligned_ta (n : nat) (ta : TaLib) : Prop :=
  let same (f : list float64 -> option (list float64)) :=
    forall s, List.length s = n ->
              exists r, f s = Some r /\ List.length r = n in
  (forall w, same (sma_indicator ta w))
  /\ (forall w, same (ema_indicator ta w))
  /\ (forall w, same (rsi ta w))
  /\ same (macd ta) /\ same (macd_signal ta) /\ same (macd_diff ta)
  /\ same (bollinger_hband ta) /\ same (bollinger_mavg ta)
  /\ same (bollinger_lband ta)
  /\ (forall h l c,
        List.length h = n -> List.length l = n -> List.length c = n ->
        exists r, average_true_range ta h l c = Some r
                  /\ List.length r = n)
  /\ (forall c v,
        List.length c = n -> List.length v = n ->
        exists r, on_balance_volume ta c v = Some r
                  /\ List.length r = n).

(** While the indicators are computed: the input frame at [df] is [f0];
    the working copy at [c] is aligned, extends [f0], and has the columns
    [names]. *)
Definition filling (df c n : nat) (f0 : Frame) (names : list string)
  (w : World) : Prop :=
  heap w !! df = Some f0
  /\ exists g,
       heap w !! c = Some g /\ aligned n g
       /\ ComprehensiveTechnicalAnalysis.extends f0 g
       /\ forall col, List.In col names -> data g !! col <> None.

(** While the tabs run: the frame at [c] is aligned and its columns, the
    volume average apart, are those [present] says. *)
Definition frame_ok (c n : nat) (present : string -> bool) (w : World)
  : Prop :=
  exists g,
    heap w !! c = Some g /\ aligned n g
    /\ forall col, col <> "Volume_MA"%string ->
                   (data g !! col <> None <-> present col = true).

Section TwoRuns.
Variables (df : nat) (f0 : Frame) (c1 c2 : nat).
Variables (sig1 sig2 sum1 sum2 : list string).

(** Both worlds have appended the same signals and the same summary points
    to what their instance held at the start. *)
Definition same_appended (w1 w2 : World) : Prop :=
  exists l s,
    signals w1 = sig1 ++ l /\ signals w2 = sig2 ++ l
    /\ summary_points w1 = sum1 ++ s /\ summary_points w2 = sum2 ++ s.

(** The two worlds in step: the input frame is [f0] in both, the working
    copies hold the same frame, an extension of [f0], and the instances have
    appended the same items. *)
Definition in_step (w1 w2 : World) : Prop :=
  heap w1 !! df = Some f0 /\ heap w2 !! df = Some f0
  /\ (exists fc, heap w1 !! c1 = Some fc /\ heap w2 !! c2 = Some fc
                 /\ ComprehensiveTechnicalAnalysis.extends f0 fc)
  /\ same_appended w1 w2.

Definition outcome {A : Type} (RA : A -> A -> Prop)
  (x1 x2 : result A * World) : Prop :=
  match x1, x2 with
  | (Ok a1, w1'), (Ok a2, w2') => RA a1 a2 /\ in_step w1' w2'
  | (Raise e1, w1'), (Raise e2, w2') => e1 = e2 /\ in_step w1' w2'
  | _, _ => False
  end.

Definition related {A : Type} (RA : A -> A -> Prop) (m1 m2 : M A) : Prop :=
  forall w1 w2, in_step w1 w2 -> outcome RA (m1 w1) (m2 w2).

(** The working copy of each run, or the input frame in both. *)
Definition same_frame (a1 a2 : nat) : Prop :=
  (a1 = c1 /\ a2 = c2) \/ (a1 = df /\ a2 = df).

End TwoRuns.

(** The two outcomes of [analyze_stock] agree in kind. *)
Definition same_kind (r1 r2 : result (option ComprehensiveTechnicalAnalysis.Summary)) : Prop :=
  match r1, r2 with
  | Ok None, Ok None => True
  | Ok (Some _), Ok (Some _) => True
  | Raise e1, Raise e2 => e1 = e2
  | _, _ => False
  end.

Section OneFrame.
Variables (l : nat) (names : list string).

(** [m] leaves every other object as it is and, in the frame at [l], at most
    writes columns called [names]. *)
Definition touches_only {A : Type} (m : M A) : Prop :=
  forall w,
    (forall l', l' <> l -> heap (snd (m w)) !! l' = heap w !! l')
    /\ match heap w !! l with
       | Some f =>
           exists g,
             heap (snd (m w)) !! l = Some g /\ nrows g = nrows f
             /\ forall col, ~ List.In col names ->
                            data g !! col = data f !! col
       | None => heap (snd (m w)) !! l = None
       end.

End OneFrame.

(** * Properties *)

Import DataProcessor.

(** ** Comparisons on doubles *)

Lemma Qltb_lt (x y : Q) : Qltb x y = true <-> x < y.
Proof.
  unfold Qltb. rewrite negb_true_iff. split; intros H.
  - apply Qnot_le_lt. intros H1. apply Qle_bool_iff in H1. congruence.
  - destruct (Qle_bool y x) eqn:E; [|reflexivity].
    apply Qle_bool_iff in E. lra.
Qed.

Lemma Qltb_ge (x y : Q) : Qltb x y = false <-> y <= x.
Proof.
  unfold Qltb. rewrite negb_false_iff. apply Qle_bool_iff.
Qed.

Lemma Qle_bool_gt (x y : Q) : Qle_bool x y = false <-> y < x.
Proof.
  rewrite <- Qltb_lt. unfold Qltb. now rewrite negb_true_iff.
Qed.

Lemma flt_Fin (x y : Q) : flt (Fin x) (Fin y) = true <-> x < y.
Proof. apply Qltb_lt. Qed.

Lemma fle_Fin (x y : Q) : fle (Fin x) (Fin y) = true <-> x <= y.
Proof. apply Qle_bool_iff. Qed.

Lemma flt_nan_l (a : float64) : flt NaN a = false.
Proof. reflexivity. Qed.

Lemma flt_nan_r (a : float64) : flt a NaN = false.
Proof. now destruct a. Qed.

Lemma fle_nan_r (a : float64) : fle a NaN = false.
Proof. now destruct a. Qed.

(** ** Insertion sort *)

Section InsertionSort.
Context {A : Type} (leb : A -> A -> bool).
Hypothesis leb_total : forall x y, leb x y = false -> leb y x = true.

Let le (x y : A) : Prop := leb x y = true.

Lemma insert_by_perm (x : A) (l : list A) :
  Permutation (x :: l) (insert_by leb x l).
Proof.
  induction l as [|y l IH]; simpl.
  - apply Permutation_refl.
  - destruct (leb x y).
    + apply Permutation_refl.
    + eapply perm_trans; [apply perm_swap|]. now apply perm_skip.
Qed.

Lemma sort_by_perm (l : list A) : Permutation l (sort_by leb l).
Proof.
  induction l as [|x l IH]; simpl.
  - apply perm_nil.
  - eapply perm_trans; [|apply insert_by_perm]. now apply perm_skip.
Qed.

Lemma sort_by_length (l : list A) :
  List.length (sort_by leb l) = List.length l.
Proof. symmetry. apply Permutation_length, sort_by_perm. Qed.

Lemma insert_by_sorted (x : A) (l : list A) :
  Sorted le l -> Sorted le (insert_by leb x l).
Proof.
  induction l as [|y l IH]; simpl; intros Hs.
  - repeat constructor.
  - destruct (leb x y) eqn:E.
    + constructor; [assumption|]. constructor. exact E.
    + inversion Hs as [|? ? Hs' Hhd]; subst.
      constructor; [now apply IH|].
      destruct l as [|z l]; simpl.
      * constructor. now apply leb_total.
      * destruct (leb x z); constructor.
        -- now apply leb_total.
        -- now inversion Hhd.
Qed.

Lemma sort_by_sorted (l : list A) : Sorted le (sort_by leb l).
Proof.
  induction l as [|x l IH]; simpl.
  - constructor.
  - now apply insert_by_sorted.
Qed.

End InsertionSort.

(** ** Quantiles *)

Lemma Qle_bool_total (x y : Q) : Qle_bool x y = false -> Qle_bool y x = true.
Proof. intros H. apply Qle_bool_gt in H. apply Qle_bool_iff. lra. Qed.

Lemma sorted_nth_le (s : list Q) (i j : nat) :
  Sorted Qle_b s -> (i <= j)%nat -> (j < List.length s)%nat ->
  List.nth i s 0 <= List.nth j s 0.
Proof.
  intros Hs. apply Sorted_StronglySorted in Hs.
  2:{ intros x y z Hxy Hyz. unfold Qle_b in *.
      rewrite Qle_bool_iff in *. lra. }
  revert i j. induction Hs as [|x s Hs IH Hall]; intros i j Hij Hj.
  - simpl in Hj. lia.
  - destruct i as [|i], j as [|j]; simpl in *; try lia.
    + lra.
    + rewrite List.Forall_forall in Hall.
      assert (Hin : List.In (List.nth j s 0) s) by (apply List.nth_In; lia).
      apply Hall in Hin. now apply Qle_bool_iff in Hin.
    + apply IH; lia.
Qed.

(** The position arithmetic of [interpolate], for [0 <= p <= 1]. *)
Lemma position_range (p : Q) (n : nat) :
  0 <= p -> p <= 1 -> (0 < n)%nat ->
  let idx := p * inject_Z (Z.of_nat (n - 1)) in
  (0 <= Qfloor idx <= Z.of_nat (n - 1))%Z
  /\ 0 <= idx - inject_Z (Qfloor idx) /\ idx - inject_Z (Qfloor idx) < 1.
Proof.
  intros Hp0 Hp1 Hn idx.
  assert (HN : 0 <= inject_Z (Z.of_nat (n - 1))).
  { change 0 with (inject_Z 0). rewrite <- Zle_Qle. lia. }
  assert (H0 : 0 <= idx) by (unfold idx; nra).
  assert (H1 : idx <= inject_Z (Z.of_nat (n - 1))) by (unfold idx; nra).
  split; [split|split].
  - change 0%Z with (Qfloor 0). now apply Qfloor_resp_le.
  - rewrite <- (Qfloor_Z (Z.of_nat (n - 1))). now apply Qfloor_resp_le.
  - pose proof (Qfloor_le idx). lra.
  - pose proof (Qlt_floor idx) as H. rewrite inject_Z_plus in H.
    change (inject_Z 1) with 1 in H. lra.
Qed.

Lemma interpolate_form (p : Q) (s : list Q) :
  0 <= p -> p <= 1 -> s <> [] -> Sorted Qle_b s ->
  exists a b g,
    List.In a s /\ List.In b s /\ a <= b /\ 0 <= g /\ g < 1
    /\ interpolate p s = a + (b - a) * g.
Proof.
  intros Hp0 Hp1 Hne Hs.
  assert (Hn : (0 < List.length s)%nat) by (destruct s; simpl; [congruence|lia]).
  destruct (position_range p (List.length s) Hp0 Hp1 Hn) as [[Hlo0 Hlo1] [Hg0 Hg1]].
  set (idx := p * inject_Z (Z.of_nat (List.length s - 1))) in *.
  set (i := Z.to_nat (Qfloor idx)).
  set (j := Nat.min (i + 1) (List.length s - 1)).
  assert (Hi : (i < List.length s)%nat) by (unfold i; lia).
  assert (Hj : (j < List.length s)%nat) by (unfold j; lia).
  exists (List.nth i s 0), (List.nth j s 0), (idx - inject_Z (Qfloor idx)).
  repeat split; try assumption.
  - now apply List.nth_In.
  - now apply List.nth_In.
  - apply sorted_nth_le; try assumption. unfold j, i. lia.
Qed.

Lemma interpolate_mono (p p' : Q) (s : list Q) :
  0 <= p -> p <= p' -> p' <= 1 -> s <> [] -> Sorted Qle_b s ->
  interpolate p s <= interpolate p' s.
Proof.
  intros Hp0 Hpp Hp1 Hne Hs.
  assert (Hn : (0 < List.length s)%nat) by (destruct s; simpl; [congruence|lia]).
  assert (Hp0' : 0 <= p') by lra. assert (Hp1' : p <= 1) by lra.
  destruct (position_range p (List.length s) Hp0 Hp1' Hn) as [[Hlo0 Hlo1] [Hg0 Hg1]].
  destruct (position_range p' (List.length s) Hp0' Hp1 Hn) as [[Hlo0' Hlo1'] [Hg0' Hg1']].
  unfold interpolate.
  set (N := inject_Z (Z.of_nat (List.length s - 1))) in *.
  assert (HN : 0 <= N).
  { unfold N. change 0 with (inject_Z 0). rewrite <- Zle_Qle. lia. }
  set (idx := p * N) in *. set (idx' := p' * N) in *.
  assert (Hidx : idx <= idx') by (unfold idx, idx'; nra).
  pose proof (Qfloor_resp_le _ _ Hidx) as Hfl.
  set (lo := Qfloor idx) in *. set (lo' := Qfloor idx') in *.
  set (i := Z.to_nat lo). set (i' := Z.to_nat lo').
  set (j := Nat.min (i + 1) (List.length s - 1)).
  set (j' := Nat.min (i' + 1) (List.length s - 1)).
  assert (Hab : List.nth i s 0 <= List.nth j s 0)
    by (apply sorted_nth_le; try assumption; unfold j, i; lia).
  assert (Hab' : List.nth i' s 0 <= List.nth j' s 0)
    by (apply sorted_nth_le; try assumption; unfold j', i'; lia).
  destruct (Z.eq_dec lo lo') as [E|NE].
  - assert (Ei : i = i') by (unfold i, i'; now rewrite E).
    assert (Ej : j = j') by (unfold j, j'; now rewrite Ei).
    rewrite <- Ei, <- Ej, <- E.
    set (a := List.nth i s 0) in *. set (b := List.nth j s 0) in *.
    nra.
  - assert (Hji : List.nth j s 0 <= List.nth i' s 0).
    { apply sorted_nth_le; try assumption; unfold j, i, i'; lia. }
    set (a := List.nth i s 0) in *. set (b := List.nth j s 0) in *.
    set (a' := List.nth i' s 0) in *. set (b' := List.nth j' s 0) in *.
    set (g := idx - inject_Z lo) in *. set (g' := idx' - inject_Z lo') in *.
    assert (a + (b - a) * g <= b) by nra.
    assert (a' <= a' + (b' - a') * g') by nra.
    lra.
Qed.

Lemma Permutation_nonempty {A : Type} (l l' : list A) :
  Permutation l l' -> l <> [] -> l' <> [].
Proof.
  intros HP Hne E. subst. apply Permutation_sym, Permutation_nil in HP.
  contradiction.
Qed.

Lemma quantileQ_between (p : Q) (qs : list Q) :
  0 <= p -> p <= 1 -> qs <> [] ->
  exists q a b,
    quantileQ p qs = Some q /\ List.In a qs /\ List.In b qs
    /\ a <= q /\ q <= b.
Proof.
  intros Hp0 Hp1 Hne.
  pose proof (sort_by_perm Qle_bool qs) as HP.
  pose proof (sort_by_sorted Qle_bool Qle_bool_total qs) as Hs.
  pose proof (Permutation_nonempty _ _ HP Hne) as Hne'.
  destruct (interpolate_form p _ Hp0 Hp1 Hne' Hs)
    as (a & b & g & Ha & Hb & Hab & Hg0 & Hg1 & E).
  exists (interpolate p (sort_by Qle_bool qs)), a, b.
  split; [|split; [|split; [|split]]].
  - unfold quantileQ. destruct (sort_by Qle_bool qs); [congruence|reflexivity].
  - eapply Permutation_in; [apply Permutation_sym, HP|exact Ha].
  - eapply Permutation_in; [apply Permutation_sym, HP|exact Hb].
  - rewrite E. nra.
  - rewrite E. nra.
Qed.

Lemma quantileQ_mono (p p' : Q) (qs : list Q) (q q' : Q) :
  0 <= p -> p <= p' -> p' <= 1 ->
  quantileQ p qs = Some q -> quantileQ p' qs = Some q' -> q <= q'.
Proof.
  intros Hp0 Hpp Hp1. unfold quantileQ.
  pose proof (sort_by_sorted Qle_bool Qle_bool_total qs) as Hs.
  destruct (sort_by Qle_bool qs) as [|x s] eqn:E; [discriminate|].
  intros [= <-] [= <-]. apply interpolate_mono; try assumption. discriminate.
Qed.

(** ** Rows that passed the validation *)

Lemma replace_inf_Fin (x : float64) :
  isna (replace_inf x) = false -> exists q, replace_inf x = Fin q.
Proof. destruct x; simpl; intros H; try discriminate. now exists q. Qed.

Lemma replace_inf_of_Fin (q : Q) : replace_inf (Fin q) = Fin q.
Proof. reflexivity. Qed.

Lemma drop_invalid_filter (l : list Row) :
  drop_invalid l = List.filter (fun r => negb (invalid_mask r)) l.
Proof.
  unfold drop_invalid.
  destruct (0 <? List.length (List.filter invalid_mask l))%nat eqn:E;
    [reflexivity|].
  apply Nat.ltb_ge in E.
  assert (Hnil : List.filter invalid_mask l = []).
  { destruct (List.filter invalid_mask l); [reflexivity|simpl in E; lia]. }
  clear E. induction l as [|r l IH]; [reflexivity|].
  simpl in *. destruct (invalid_mask r); [discriminate|].
  simpl. f_equal. now apply IH.
Qed.

(** What the two drop steps leave: a complete bar passing every test of the
    mask. *)
Lemma kept_row_bar (r : Row) :
  row_has_na (replace_inf_row r) = false ->
  invalid_mask (replace_inf_row r) = false ->
  exists d o h l c v,
    bar (replace_inf_row r) d o h l c v
    /\ (l <= o /\ o <= h /\ l <= c /\ c <= h)
    /\ (0 < o /\ 0 < h /\ 0 < l /\ 0 < c) /\ 0 <= v.
Proof.
  unfold row_has_na, invalid_mask, bar, replace_inf_row. simpl.
  destruct (Date r) as [d|]; [|discriminate]. simpl.
  intros Hna. repeat (apply orb_false_iff in Hna; destruct Hna as [Hna ?]).
  destruct (replace_inf_Fin (Open r)) as [o ->]; [assumption|].
  destruct (replace_inf_Fin (High r)) as [h ->]; [assumption|].
  destruct (replace_inf_Fin (Low r)) as [l ->]; [assumption|].
  destruct (replace_inf_Fin (Close r)) as [c ->]; [assumption|].
  destruct (replace_inf_Fin (Volume r)) as [v ->]; [assumption|].
  intros Hm. unfold fgt in Hm. simpl in Hm.
  repeat (apply orb_false_iff in Hm; destruct Hm as [Hm ?]).
  repeat match goal with
         | H : Qltb _ _ = false |- _ => apply Qltb_ge in H
         | H : Qle_bool _ _ = false |- _ => apply Qle_bool_gt in H
         end.
  exists d, o, h, l, c, v. repeat split; assumption.
Qed.

Lemma validated_row_bar (df : DataFrame) (r : Row) :
  List.In r (validated_rows df) ->
  exists d o h l c v,
    bar r d o h l c v
    /\ (l <= o /\ o <= h /\ l <= c /\ c <= h)
    /\ (0 < o /\ 0 < h /\ 0 < l /\ 0 < c) /\ 0 <= v.
Proof.
  unfold validated_rows, kept_rows, sort_values. intros Hin.
  eapply Permutation_in in Hin; [|apply Permutation_sym, sort_by_perm].
  rewrite drop_invalid_filter in Hin.
  apply List.filter_In in Hin. destruct Hin as [Hin Hmask].
  apply List.filter_In in Hin. destruct Hin as [Hin Hna].
  apply List.in_map_iff in Hin. destruct Hin as (r0 & <- & _).
  apply negb_true_iff in Hmask, Hna. now apply kept_row_bar.
Qed.

Lemma bar_sane (r : Row) (d : Z) (o h l c v : Q) :
  bar r d o h l c v -> 0 < o -> 0 < h -> 0 < l -> 0 < c -> 0 <= v -> sane r.
Proof.
  intros -> Ho Hh Hl Hc Hv. split; [now exists d|].
  intros [| | | |]; simpl; eexists; (split; [reflexivity|assumption]).
Qed.


Lemma validated_rows_sane (df : DataFrame) :
  List.Forall sane (validated_rows df).
Proof.
  apply List.Forall_forall. intros r Hin.
  destruct (validated_row_bar df r Hin)
    as (d & o & h & l & c & v & Hb & _ & (Ho & Hh & Hl & Hc) & Hv).
  now apply (bar_sane r d o h l c v).
Qed.


(** ** The capping loop *)

Lemma get_set_same (c : NumCol) (v : float64) (r : Row) :
  get_col c (set_col c v r) = v.
Proof. now destruct c. Qed.

Lemma get_set_other (c c' : NumCol) (v : float64) (r : Row) :
  c <> c' -> get_col c' (set_col c v r) = get_col c' r.
Proof. destruct c, c'; simpl; congruence. Qed.

Lemma date_set_col (c : NumCol) (v : float64) (r : Row) :
  Date (set_col c v r) = Date r.
Proof. now destruct c. Qed.

Lemma cap_row_get_same (c : NumCol) (q1 q99 : float64) (r : Row) :
  get_col c (cap_row c q1 q99 r) = cap_value q1 q99 (get_col c r).
Proof.
  unfold cap_row, cap_value.
  destruct (flt _ _); [apply get_set_same|].
  destruct (fgt _ _); [apply get_set_same|reflexivity].
Qed.

Lemma cap_row_get_other (c c' : NumCol) (q1 q99 : float64) (r : Row) :
  c <> c' -> get_col c' (cap_row c q1 q99 r) = get_col c' r.
Proof.
  intros Hne. unfold cap_row.
  destruct (flt _ _); [now apply get_set_other|].
  destruct (fgt _ _); [now apply get_set_other|reflexivity].
Qed.

Lemma cap_row_date (c : NumCol) (q1 q99 : float64) (r : Row) :
  Date (cap_row c q1 q99 r) = Date r.
Proof.
  unfold cap_row.
  destruct (flt _ _); [apply date_set_col|].
  destruct (fgt _ _); [apply date_set_col|reflexivity].
Qed.

Lemma NumCol_eq_dec (c c' : NumCol) : {c = c'} + {c <> c'}.
Proof. decide equality. Qed.

Lemma set_col_sane (c : NumCol) (q : Q) (r : Row) :
  sane r -> col_ok c q -> sane (set_col c (Fin q) r).
Proof.
  intros [Hd Hc] Hq. split; [now rewrite date_set_col|].
  intros c'. destruct (NumCol_eq_dec c c') as [<-|Hne].
  - exists q. now rewrite get_set_same.
  - rewrite get_set_other by assumption. apply Hc.
Qed.

Lemma cap_row_sane (c : NumCol) (a b : Q) (r : Row) :
  sane r -> col_ok c a -> col_ok c b -> sane (cap_row c (Fin a) (Fin b) r).
Proof.
  intros Hr Ha Hb. unfold cap_row.
  destruct (flt _ _); [now apply set_col_sane|].
  destruct (fgt _ _); [now apply set_col_sane|assumption].
Qed.

Lemma in_finite_values (q : Q) (col : list float64) :
  List.In q (finite_values col) <-> List.In (Fin q) col.
Proof.
  unfold finite_values. rewrite List.in_flat_map. split.
  - intros (v & Hin & Hq). destruct v; simpl in Hq; try contradiction.
    destruct Hq as [->|[]]. exact Hin.
  - intros Hin. exists (Fin q). split; [exact Hin|now left].
Qed.

Lemma col_ok_le (c : NumCol) (a q : Q) : col_ok c a -> a <= q -> col_ok c q.
Proof. destruct c; simpl; lra. Qed.

Lemma col_ok_nonneg (c : NumCol) (a : Q) : col_ok c a -> 0 <= a.
Proof. destruct c; simpl; lra. Qed.

(** On a non-empty validated column both percentiles are finite, lie in the
    column's value range, and the 1st is not above the 99th. *)
Lemma quantiles_of_sane (c : NumCol) (l : list Row) :
  l <> [] -> List.Forall sane l ->
  exists a b,
    quantile (1 # 100) (List.map (get_col c) l) = Fin a
    /\ quantile (99 # 100) (List.map (get_col c) l) = Fin b
    /\ col_ok c a /\ col_ok c b /\ a <= b.
Proof.
  intros Hne Hall. rewrite List.Forall_forall in Hall.
  set (col := List.map (get_col c) l).
  assert (Hin : forall q, List.In q (finite_values col) -> col_ok c q).
  { intros q Hq. apply in_finite_values in Hq.
    apply List.in_map_iff in Hq. destruct Hq as (r & Er & Hr).
    destruct (Hall r Hr) as [_ Hc]. destruct (Hc c) as (q' & Eq' & Hok).
    rewrite Eq' in Er. now injection Er as ->. }
  assert (Hqs : finite_values col <> []).
  { destruct l as [|r l]; [congruence|].
    destruct (Hall r (or_introl eq_refl)) as [_ Hc].
    destruct (Hc c) as (q & Eq & _).
    intros E. assert (Hq : List.In q (finite_values col)).
    { apply in_finite_values. unfold col. simpl. left. exact Eq. }
    rewrite E in Hq. contradiction. }
  destruct (quantileQ_between (1 # 100) (finite_values col))
    as (a & a1 & a2 & Ea & Ha1 & _ & Hle1 & _); [lra|lra|assumption|].
  destruct (quantileQ_between (99 # 100) (finite_values col))
    as (b & b1 & b2 & Eb & Hb1 & _ & Hle2 & _); [lra|lra|assumption|].
  exists a, b. unfold quantile. fold col. rewrite Ea, Eb.
  repeat split.
  - eapply col_ok_le; [apply Hin, Ha1|assumption].
  - eapply col_ok_le; [apply Hin, Hb1|assumption].
  - eapply (quantileQ_mono (1 # 100) (99 # 100)); try eassumption; lra.
Qed.

(** The two assignments of one turn, taken together, apply [cap_row] to each
    row: a value set to the 1st percentile is never above the upper
    threshold, and without any extreme value nothing moves. *)
Lemma cap_column_map (c : NumCol) (l : list Row) :
  List.Forall sane l ->
  cap_column c l =
  List.map (cap_row c (quantile (1 # 100) (List.map (get_col c) l))
                      (quantile (99 # 100) (List.map (get_col c) l))) l.
Proof.
  intros Hall. destruct l as [|r0 l0]; [reflexivity|].
  set (l := r0 :: l0) in *.
  destruct (quantiles_of_sane c l) as (a & b & Ea & Eb & Ha & Hb & Hab);
    [discriminate|assumption|].
  unfold cap_column. rewrite Ea, Eb.
  set (lowthr := fmul (Fin a) (Fin (1 # 100))).
  set (highthr := fmul (Fin b) (Fin 100)).
  destruct (0 <? _)%nat eqn:E.
  - rewrite List.map_map. apply List.map_ext. intros r.
    unfold cap_row. fold lowthr highthr.
    destruct (flt (get_col c r) lowthr) eqn:E1; [|reflexivity].
    rewrite get_set_same.
    assert (Hq : fgt (Fin a) highthr = false).
    { unfold fgt, highthr. simpl. apply Qltb_ge.
      apply col_ok_nonneg in Ha, Hb. lra. }
    now rewrite Hq.
  - apply Nat.ltb_ge in E.
    assert (Hnil : forall r, List.In r l ->
              flt (get_col c r) lowthr || fgt (get_col c r) highthr = false).
    { intros r Hr. destruct (_ || _) eqn:Em; [|reflexivity].
      assert (Hf : List.In r (List.filter
                (fun r => flt (get_col c r) lowthr || fgt (get_col c r) highthr) l))
        by (apply List.filter_In; now split).
      destruct (List.filter _ l); [contradiction|simpl in E; lia]. }
    symmetry. erewrite List.map_ext_in; [apply List.map_id|].
    intros r Hr. apply Hnil in Hr. apply orb_false_iff in Hr.
    destruct Hr as [H1 H2]. unfold cap_row. fold lowthr highthr.
    now rewrite H1, H2.
Qed.

Lemma cap_column_sane (c : NumCol) (l : list Row) :
  List.Forall sane l -> List.Forall sane (cap_column c l).
Proof.
  intros Hall. rewrite cap_column_map by assumption.
  destruct l as [|r0 l0]; [constructor|].
  destruct (quantiles_of_sane c (r0 :: l0)) as (a & b & Ea & Eb & Ha & Hb & _);
    [discriminate|assumption|].
  rewrite Ea, Eb. apply List.Forall_forall. intros r Hr.
  apply List.in_map_iff in Hr. destruct Hr as (r' & <- & Hr').
  rewrite List.Forall_forall in Hall. apply cap_row_sane; auto.
Qed.

Lemma cap_column_dates (c : NumCol) (l : list Row) :
  List.Forall sane l -> List.map Date (cap_column c l) = List.map Date l.
Proof.
  intros Hall. rewrite cap_column_map by assumption.
  rewrite List.map_map. apply List.map_ext. intros r. apply cap_row_date.
Qed.

Lemma cap_column_other (c c' : NumCol) (l : list Row) :
  List.Forall sane l -> c <> c' ->
  List.map (get_col c') (cap_column c l) = List.map (get_col c') l.
Proof.
  intros Hall Hne. rewrite cap_column_map by assumption.
  rewrite List.map_map. apply List.map_ext. intros r.
  now apply cap_row_get_other.
Qed.

Lemma cap_column_same (c : NumCol) (l : list Row) :
  List.Forall sane l ->
  List.map (get_col c) (cap_column c l) =
  List.map (cap_value (quantile (1 # 100) (List.map (get_col c) l))
                      (quantile (99 # 100) (List.map (get_col c) l)))
           (List.map (get_col c) l).
Proof.
  intros Hall. rewrite cap_column_map by assumption.
  rewrite !List.map_map. apply List.map_ext. intros r.
  apply cap_row_get_same.
Qed.

Lemma cap_outliers_unfold (l : list Row) :
  cap_outliers l =
  cap_column ColVolume (cap_column ColClose (cap_column ColLow
    (cap_column ColHigh (cap_column ColOpen l)))).
Proof. reflexivity. Qed.

Lemma cap_outliers_sane (l : list Row) :
  List.Forall sane l -> List.Forall sane (cap_outliers l).
Proof.
  intros H. rewrite cap_outliers_unfold. now repeat apply cap_column_sane.
Qed.

Lemma cap_outliers_dates (l : list Row) :
  List.Forall sane l -> List.map Date (cap_outliers l) = List.map Date l.
Proof.
  intros H. rewrite cap_outliers_unfold.
  rewrite !cap_column_dates; auto using cap_column_sane.
Qed.

(** Each column leaves the loop capped against its own percentiles, taken on
    the validated frame: the turns of the other columns do not touch it. *)
Lemma cap_outliers_column (c : NumCol) (l : list Row) :
  List.Forall sane l ->
  List.map (get_col c) (cap_outliers l) =
  List.map (cap_value (quantile (1 # 100) (List.map (get_col c) l))
                      (quantile (99 # 100) (List.map (get_col c) l)))
           (List.map (get_col c) l).
Proof.
  intros H. rewrite cap_outliers_unfold.
  destruct c;
    repeat first
      [ rewrite cap_column_other by (auto using cap_column_sane; discriminate)
      | rewrite cap_column_same by auto using cap_column_sane ];
    reflexivity.
Qed.

Lemma cap_outliers_length (l : list Row) :
  List.Forall sane l -> List.length (cap_outliers l) = List.length l.
Proof.
  intros H. rewrite <- (List.length_map Date), cap_outliers_dates by assumption.
  apply List.length_map.
Qed.

(** ** Date order *)

Lemma date_leb_total (a b : Row) : date_leb a b = false -> date_leb b a = true.
Proof.
  unfold date_leb. destruct (Date a), (Date b); try easy.
  intros H. apply Z.leb_gt in H. apply Z.leb_le. lia.
Qed.

Lemma Sorted_map_dates (l : list Row) :
  List.Forall sane l ->
  Sorted (fun a b => date_leb a b = true) l -> dates_ascending l.
Proof.
  unfold dates_ascending. intros Hall Hs.
  induction Hs as [|r l Hs IH Hhd]; simpl; [constructor|].
  inversion Hall as [|? ? Hr Hl]; subst.
  constructor; [now apply IH|].
  destruct Hhd as [|r' l' Hrr']; simpl; constructor.
  inversion Hl as [|? ? Hr' _]; subst.
  destruct Hr as [[d Ed] _], Hr' as [[d' Ed'] _].
  unfold date_leb in Hrr'. rewrite Ed, Ed' in *. simpl.
  now apply Z.leb_le.
Qed.

Lemma validated_rows_ascending (df : DataFrame) :
  dates_ascending (validated_rows df).
Proof.
  apply Sorted_map_dates; [apply validated_rows_sane|].
  apply sort_by_sorted, date_leb_total.
Qed.

Lemma final_cleaning_rows (df out : DataFrame) :
  _final_data_cleaning df = Ok out ->
  out = mkFrame required_columns (cap_outliers (validated_rows df)).
Proof.
  unfold _final_data_cleaning. destruct (missing_columns df); [|discriminate].
  now intros [= <-].
Qed.

(** ** The cleaned series *)


(** The capping loop runs after the validation and works column by column:
    on [penny_frame] it lifts Open and Low of the penny bar to the 1st
    percentile of their columns and leaves its High and Close, so the
    returned bar has High below Low. *)
Lemma capping_can_break_price_order :
  exists out r,
    _final_data_cleaning penny_frame = Ok out
    /\ List.In r (rows out) /\ flt (High r) (Low r) = true.
Proof.
  eexists. eexists. split; [vm_compute; reflexivity|].
  split; [left; reflexivity|]. vm_compute. reflexivity.
Qed.



(** ** Outlier capping *)

(** C2: for each numeric column, with [q1] and [q99] the 1st and 99th
    percentiles of the column of the validated, sorted frame, the capping
    loop replaces every value below [q1 * 0.01] by [q1] and every value above
    [q99 * 100] by [q99], leaves the other values alone, and keeps every
    row. *)
Theorem capping_rule (df out : DataFrame) (c : NumCol) :
  _final_data_cleaning df = Ok out ->
  let col := List.map (get_col c) (validated_rows df) in
  let q1 := quantile (1 # 100) col in
  let q99 := quantile (99 # 100) col in
  List.length (rows out) = List.length (validated_rows df)
  /\ forall i v,
       List.nth_error col i = Some v ->
       exists v',
         List.nth_error (List.map (get_col c) (rows out)) i = Some v'
         /\ (flt v (fmul q1 (Fin (1 # 100))) = true -> v' = q1)
         /\ (fgt v (fmul q99 (Fin 100)) = true -> v' = q99)
         /\ (flt v (fmul q1 (Fin (1 # 100))) = false ->
             fgt v (fmul q99 (Fin 100)) = false -> v' = v).
Proof.
  intros H col q1 q99. apply final_cleaning_rows in H. subst out. simpl.
  pose proof (validated_rows_sane df) as Hsane.
  split; [now apply cap_outliers_length|].
  intros i v Hv. rewrite cap_outliers_column by assumption.
  fold col q1 q99. exists (cap_value q1 q99 v).
  split; [now rewrite List.nth_error_map, Hv|].
  unfold cap_value.
  destruct (flt v (fmul q1 (Fin (1 # 100)))) eqn:E1;
    destruct (fgt v (fmul q99 (Fin 100))) eqn:E2;
    repeat split; try congruence.
  (* a value cannot be below the lower and above the upper threshold *)
  exfalso. unfold col in Hv.
  destruct (validated_rows df) as [|r0 l0] eqn:El;
    [destruct i; discriminate|].
  destruct (quantiles_of_sane c (r0 :: l0)) as (a & b & Ea & Eb & Ha & Hb & Hab);
    [discriminate|assumption|].
  apply List.nth_error_In, List.in_map_iff in Hv.
  destruct Hv as (r & Er & Hr).
  rewrite List.Forall_forall in Hsane. destruct (Hsane r Hr) as [_ Hc].
  destruct (Hc c) as (x & Ex & Hx). rewrite Ex in Er. subst v.
  unfold q1, q99, col in E1, E2. rewrite Ea in E1. rewrite Eb in E2.
  unfold fgt in E2. simpl in E1, E2.
  apply Qltb_lt in E1, E2. apply col_ok_nonneg in Ha, Hb, Hx. lra.
Qed.

Lemma capping_rule_witness :
  exists out,
    _final_data_cleaning penny_frame = Ok out
    /\ List.length (rows out) = 2%nat
    /\ List.map Open (rows out) = [Fin (10099 # 100); Fin 10000].
Proof.
  eexists.
  assert (H : _final_data_cleaning penny_frame = Ok _)
    by (vm_compute; reflexivity).
  split; [exact H|].
  destruct (capping_rule penny_frame _ ColOpen H) as [Hlen _].
  split; [exact Hlen|]. vm_compute. reflexivity.
Defined.

(** ** Running the cleaner on its own output *)


Lemma filter_all {A : Type} (f : A -> bool) (l : list A) :
  (forall x, List.In x l -> f x = true) -> List.filter f l = l.
Proof.
  induction l as [|x l IH]; simpl; intros H; [reflexivity|].
  rewrite (H x (or_introl eq_refl)). f_equal. apply IH. auto.
Qed.

Lemma bar_passes_again (r : Row) (d : Z) (o h l c v : Q) :
  bar r d o h l c v ->
  l <= o /\ o <= h /\ l <= c /\ c <= h ->
  0 < o /\ 0 < h /\ 0 < l /\ 0 < c -> 0 <= v ->
  replace_inf_row r = r /\ row_has_na r = false /\ invalid_mask r = false.
Proof.
  intros -> (H1 & H2 & H3 & H4) (H5 & H6 & H7 & H8) H9.
  split; [reflexivity|]. split; [reflexivity|].
  unfold invalid_mask, fgt. simpl.
  repeat (apply orb_false_iff; split);
    first [apply Qltb_ge | apply Qle_bool_gt]; lra.
Qed.




(** ** The empty series *)




Example hopeless_upload_raises :
  process_uploaded_data iso_only hopeless_upload "International (US)" =
  Raise (ValueError "No valid data remaining after processing").
Proof. vm_compute. reflexivity. Qed.

Example hopeful_upload_returns_one_row :
  exists out,
    process_uploaded_data iso_only hopeful_upload "International (US)" = Ok out
    /\ List.length (rows out) = 1%nat.
Proof. eexists. split; [vm_compute; reflexivity|reflexivity]. Qed.

(** ** The Indian format *)

Lemma in_lstrip_chars (c : ascii) (l : list ascii) :
  List.In c (Text.lstrip_chars l) -> List.In c l.
Proof.
  induction l as [|x l IH]; simpl; [easy|].
  destruct (Text.is_space x); [intros H; right; now apply IH|easy].
Qed.

Lemma in_strip_chars (c : ascii) (l : list ascii) :
  List.In c (Text.strip_chars l) -> List.In c l.
Proof.
  unfold Text.strip_chars. intros H.
  apply List.in_rev, in_lstrip_chars in H.
  apply List.in_rev in H. now apply in_lstrip_chars.
Qed.

Lemma in_remove_char (c x : ascii) (l : list ascii) :
  List.In c (Text.remove_char x l) <-> List.In c l /\ c <> x.
Proof.
  unfold Text.remove_char. rewrite List.filter_In, negb_true_iff.
  now rewrite Ascii.eqb_neq.
Qed.

Lemma in_strip (c : ascii) (s : string) :
  List.In c (list_ascii_of_string (Text.strip s)) ->
  List.In c (list_ascii_of_string s).
Proof.
  unfold Text.strip. rewrite list_ascii_of_string_of_list_ascii.
  apply in_strip_chars.
Qed.

Lemma in_remove (c x : ascii) (s : string) :
  List.In c (list_ascii_of_string (Text.remove x s)) <->
  List.In c (list_ascii_of_string s) /\ c <> x.
Proof.
  unfold Text.remove. rewrite list_ascii_of_string_of_list_ascii.
  apply in_remove_char.
Qed.

(** C7: before numeric coercion the Indian readers remove every quote
    character and every comma from the text of a numeric cell; the Date
    column is read as day-month(abbreviation)-year whenever all its cells
    have that form; and the row of 19 August 2025 comes out of both readers
    as 2025-08-19, 1390.00, 1421.00, 1389.10, 1420.10, 14384719, whether or
    not its cells still carry their quote characters. *)
Theorem indian_row_is_normalised (P : Text.DateParser) :
  (forall s c,
     (List.In c (list_ascii_of_string (clean_indian_number s)) ->
      c <> Text.dquote /\ c <> ","%char)
     /\ (List.In c (list_ascii_of_string (IndianDataLoader.clean_number s)) ->
         c <> Text.dquote /\ c <> ","%char))
  /\ (forall cells ds,
        Text.parse_column Text.to_datetime_dmy cells = Some ds ->
        indian_dates P cells = Ok ds
        /\ IndianDataLoader.load_dates P cells = Ok ds)
  /\ Text.strptime_dmy "19-Aug-2025" = Some (Text.mkDate 2025 8 19)
  /\ process_uploaded_data P indian_sample "Indian Market"
     = Ok indian_sample_cleaned
  /\ process_uploaded_data P indian_sample_quoted "Indian Market"
     = Ok indian_sample_cleaned
  /\ IndianDataLoader.load_indian_csv P indian_sample
     = Ok indian_sample_cleaned
  /\ IndianDataLoader.load_indian_csv P indian_sample_quoted
     = Ok indian_sample_cleaned.
Proof.
  split; [|split; [|repeat split; vm_compute; reflexivity]].
  - intros s c. split; intros H.
    + unfold clean_indian_number in H. apply in_strip in H.
      apply in_remove in H. destruct H as [H Hc].
      apply in_remove in H. destruct H as [_ Hq]. now split.
    + unfold IndianDataLoader.clean_number in H.
      apply in_remove in H. destruct H as [H Hc].
      apply in_remove in H. destruct H as [_ Hq]. now split.
  - intros cells ds H.
    unfold indian_dates, IndianDataLoader.load_dates. now rewrite H.
Qed.

(** ** The signal engine *)

Import ComprehensiveTechnicalAnalysis Samples.

Lemma mbind_ok {A B : Type} (m : M A) (f : A -> M B) (w w' : World) (a : A) :
  m w = (Ok a, w') -> mbind m f w = f a w'.
Proof. intros H. unfold mbind. now rewrite H. Qed.

Lemma mbind_raise {A B : Type} (m : M A) (f : A -> M B) (w w' : World)
  (e : error) :
  m w = (Raise e, w') -> mbind m f w = (Raise e, w').
Proof. intros H. unfold mbind. now rewrite H. Qed.

Lemma read_frame_ok (df : nat) (f : Frame) (w : World) :
  heap w !! df = Some f -> read_frame df w = (Ok f, w).
Proof. intros H. unfold read_frame. now rewrite H. Qed.

Lemma get_column_ok (df : nat) (f : Frame) (col : string)
  (s : list float64) (w : World) :
  heap w !! df = Some f -> data f !! col = Some s ->
  get_column df col w = (Ok s, w).
Proof.
  intros Hf Hc. unfold get_column.
  rewrite (mbind_ok _ _ _ _ _ (read_frame_ok df f w Hf)). now rewrite Hc.
Qed.

Lemma last_value_ok (df : nat) (f : Frame) (col : string)
  (s : list float64) (k : nat) (v : float64) (w : World) :
  heap w !! df = Some f -> data f !! col = Some s ->
  Series.iloc_back k s = Some v ->
  last_value df col k w = (Ok v, w).
Proof.
  intros Hf Hc Hv. unfold last_value.
  rewrite (mbind_ok _ _ _ _ _ (get_column_ok df f col s w Hf Hc)).
  now rewrite Hv.
Qed.

Lemma len_ok (df : nat) (f : Frame) (w : World) :
  heap w !! df = Some f -> len df w = (Ok (nrows f), w).
Proof.
  intros Hf. unfold len.
  now rewrite (mbind_ok _ _ _ _ _ (read_frame_ok df f w Hf)).
Qed.

Lemma keeps_ret {A : Type} (a : A) : keeps_signals (ret a).
Proof. intros w. reflexivity. Qed.

Lemma keeps_raise {A : Type} (e : error) : keeps_signals (@raise A e).
Proof. intros w. reflexivity. Qed.

Lemma keeps_bind {A B : Type} (m : M A) (f : A -> M B) :
  keeps_signals m -> (forall a, keeps_signals (f a)) ->
  keeps_signals (mbind m f).
Proof.
  intros Hm Hf w. unfold mbind. specialize (Hm w).
  destruct (m w) as [[a|e] w']; simpl in *; [|assumption].
  now rewrite Hf.
Qed.

Lemma keeps_of_option {A : Type} (e : error) (o : option A) :
  keeps_signals (of_option e o).
Proof. destruct o; [apply keeps_ret|apply keeps_raise]. Qed.

Lemma keeps_read_frame (df : nat) : keeps_signals (read_frame df).
Proof. intros w. unfold read_frame. apply keeps_of_option. Qed.

Lemma keeps_get_column (df : nat) (col : string) :
  keeps_signals (get_column df col).
Proof.
  apply keeps_bind; [apply keeps_read_frame|].
  intros f. apply keeps_of_option.
Qed.

Lemma keeps_last_value (df : nat) (col : string) (k : nat) :
  keeps_signals (last_value df col k).
Proof.
  apply keeps_bind; [apply keeps_get_column|].
  intros s. apply keeps_of_option.
Qed.

Lemma keeps_append_summary (s : string) : keeps_signals (append_summary s).
Proof. intros w. reflexivity. Qed.

Create HintDb keeps.
#[local] Hint Resolve keeps_ret keeps_raise keeps_of_option keeps_read_frame
  keeps_get_column keeps_last_value keeps_append_summary : keeps.

Ltac keeps_auto :=
  repeat first
    [ progress auto with keeps
    | apply keeps_bind; [|intros ?]
    | match goal with
      | |- keeps_signals (if ?b then _ else _) => destruct b
      end ].

(** What the crossover test appends, by the two comparisons. *)
Lemma cross_signal_signals (p50 p200 c50 c200 : float64) (w : World) :
  signals (snd (cross_signal p50 p200 c50 c200 w)) =
  signals w ++
  (if negb (fgt p50 p200) && fgt c50 c200
   then ["BUY - Golden Cross detected"%string]
   else if fgt p50 p200 && negb (fgt c50 c200)
   then ["SELL - Death Cross detected"%string]
   else []).
Proof.
  unfold cross_signal.
  destruct (fgt p50 p200), (fgt c50 c200); simpl;
    try reflexivity; now rewrite List.app_nil_r.
Qed.

(** The signals of [_cross_analysis] are those of the crossover test on the
    last two points of the two averages; the alignment test that follows
    adds none. *)
Lemma cross_analysis_signals (df : nat) (f : Frame) (w : World)
  (s50 s200 : list float64) (p50 p200 c50 c200 : float64) :
  heap w !! df = Some f -> (1 < nrows f)%nat ->
  data f !! "SMA_50"%string = Some s50 ->
  data f !! "SMA_200"%string = Some s200 ->
  Series.iloc_back 2 s50 = Some p50 -> Series.iloc_back 2 s200 = Some p200 ->
  Series.iloc_back 1 s50 = Some c50 -> Series.iloc_back 1 s200 = Some c200 ->
  signals (snd (_cross_analysis df w)) =
  signals (snd (cross_signal p50 p200 c50 c200 w)).
Proof.
  intros Hf Hn H50 H200 Hp50 Hp200 Hc50 Hc200.
  unfold _cross_analysis.
  rewrite (mbind_ok _ _ _ _ _ (len_ok df f w Hf)).
  assert (Hmin : (1 <? Nat.min 10 (nrows f))%nat = true)
    by (apply Nat.ltb_lt; lia).
  rewrite Hmin.
  set (tail := fun _ : unit => mbind (last_value df "Close" 1) _).
  assert (Htail : forall u, keeps_signals (tail u))
    by (intros u; unfold tail; keeps_auto).
  unfold mbind at 1.
  assert (Hreads :
    (let* prev_50 := last_value df "SMA_50" 2 in
     let* prev_200 := last_value df "SMA_200" 2 in
     let* curr_50 := last_value df "SMA_50" 1 in
     let* curr_200 := last_value df "SMA_200" 1 in
     cross_signal prev_50 prev_200 curr_50 curr_200) w
    = cross_signal p50 p200 c50 c200 w).
  { rewrite (mbind_ok _ _ _ _ _ (last_value_ok df f _ s50 2 p50 w Hf H50 Hp50)).
    rewrite (mbind_ok _ _ _ _ _ (last_value_ok df f _ s200 2 p200 w Hf H200 Hp200)).
    rewrite (mbind_ok _ _ _ _ _ (last_value_ok df f _ s50 1 c50 w Hf H50 Hc50)).
    now rewrite (mbind_ok _ _ _ _ _ (last_value_ok df f _ s200 1 c200 w Hf H200 Hc200)). }
  rewrite Hreads.
  destruct (cross_signal p50 p200 c50 c200 w) as [[[]|e] w']; simpl;
    [apply Htail|reflexivity].
Qed.

Lemma fgt_nan_l (a : float64) : fgt NaN a = false.
Proof. unfold fgt. apply flt_nan_r. Qed.

Lemma fgt_nan_r (a : float64) : fgt a NaN = false.
Proof. reflexivity. Qed.

Lemma fgt_of_isna (a b : float64) : isna a || isna b = true -> fgt a b = false.
Proof.
  destruct a, b; simpl; try discriminate; reflexivity.
Qed.

(** C3, as stated, fails in its second half: on [first_long_average] the
    200-period average is null on the second-to-last row and below the
    50-period average on the last one, and [_cross_analysis] appends a Golden
    Cross signal. *)
Lemma golden_cross_right_after_warm_up :
  data first_long_average !! "SMA_200"%string = Some [NaN; Fin 99]
  /\ signals (snd (_cross_analysis 0 (world_of first_long_average)))
     = ["BUY - Golden Cross detected"%string].
Proof. split; vm_compute; reflexivity. Qed.

(** C3, amended: with SMA_50 at or below SMA_200 on the second-to-last row
    and strictly above it on the last row, [_cross_analysis] appends exactly
    one signal, the BUY tagged Golden Cross, and no Death Cross.  A null
    average compares as not above: with a null on the second-to-last row no
    Death Cross is appended, and a Golden Cross is appended exactly when
    SMA_50 is strictly above SMA_200 on the last row; with a null on the last
    row no Golden Cross is appended, and a Death Cross is appended exactly
    when SMA_50 was strictly above SMA_200 on the second-to-last row; with
    nulls on both rows nothing is appended. *)
Theorem cross_signals_on_last_two_points
  (df : nat) (f : Frame) (w : World) (s50 s200 : list float64)
  (p50 p200 c50 c200 : float64) :
  heap w !! df = Some f -> (1 < nrows f)%nat ->
  data f !! "SMA_50"%string = Some s50 ->
  data f !! "SMA_200"%string = Some s200 ->
  Series.iloc_back 2 s50 = Some p50 -> Series.iloc_back 2 s200 = Some p200 ->
  Series.iloc_back 1 s50 = Some c50 -> Series.iloc_back 1 s200 = Some c200 ->
  let out := signals (snd (_cross_analysis df w)) in
  (forall a b c d,
     p50 = Fin a -> p200 = Fin b -> c50 = Fin c -> c200 = Fin d ->
     a <= b -> d < c ->
     out = signals w ++ ["BUY - Golden Cross detected"%string])
  /\ (isna p50 || isna p200 = true ->
      out = signals w ++
            (if fgt c50 c200 then ["BUY - Golden Cross detected"%string]
             else []))
  /\ (isna c50 || isna c200 = true ->
      out = signals w ++
            (if fgt p50 p200 then ["SELL - Death Cross detected"%string]
             else []))
  /\ (isna p50 || isna p200 = true -> isna c50 || isna c200 = true ->
      out = signals w).
Proof.
  intros Hf Hn H50 H200 Hp50 Hp200 Hc50 Hc200 out.
  assert (Hout : out = signals w ++
            (if negb (fgt p50 p200) && fgt c50 c200
             then ["BUY - Golden Cross detected"%string]
             else if fgt p50 p200 && negb (fgt c50 c200)
             then ["SELL - Death Cross detected"%string]
             else [])).
  { unfold out.
    rewrite (cross_analysis_signals df f w s50 s200 p50 p200 c50 c200);
      try assumption.
    apply cross_signal_signals. }
  rewrite Hout. repeat split.
  - intros a b c d -> -> -> -> Hab Hdc.
    assert (Hp : fgt (Fin a) (Fin b) = false)
      by (unfold fgt; simpl; now apply Qltb_ge).
    assert (Hc : fgt (Fin c) (Fin d) = true)
      by (unfold fgt; simpl; now apply Qltb_lt).
    now rewrite Hp, Hc.
  - intros Hna. rewrite (fgt_of_isna _ _ Hna). simpl.
    now destruct (fgt c50 c200).
  - intros Hna. rewrite (fgt_of_isna _ _ Hna). simpl.
    rewrite andb_false_r, andb_true_r. now destruct (fgt p50 p200).
  - intros Hp Hc. rewrite (fgt_of_isna _ _ Hp), (fgt_of_isna _ _ Hc). simpl.
    apply List.app_nil_r.
Qed.

Lemma cross_signals_on_last_two_points_witness :
  signals (snd (_cross_analysis 0 (world_of crossing_up)))
  = ["BUY - Golden Cross detected"%string].
Proof.
  assert (H : heap (world_of crossing_up) !! 0%nat = Some crossing_up)
    by (vm_compute; reflexivity).
  assert (Hn : (1 < nrows crossing_up)%nat) by (simpl; lia).
  pose proof (cross_signals_on_last_two_points 0 crossing_up
                (world_of crossing_up) (fins [98; 100]) (fins [99; 99])
                (Fin 98) (Fin 99) (Fin 100) (Fin 99) H Hn
                ltac:(vm_compute; reflexivity) ltac:(vm_compute; reflexivity)
                ltac:(vm_compute; reflexivity) ltac:(vm_compute; reflexivity)
                ltac:(vm_compute; reflexivity) ltac:(vm_compute; reflexivity))
    as [Hgold _].
  apply (Hgold 98 99 100 99); try reflexivity; lra.
Defined.

Lemma keeps_summary_now : keeps_signals summary_now.
Proof. intros w. reflexivity. Qed.

Lemma keeps_signals_and_summary (df : nat) :
  keeps_signals (_signals_and_summary df).
Proof.
  unfold _signals_and_summary.
  apply keeps_bind; [apply keeps_summary_now|intros r]. keeps_auto.
Qed.

Lemma mbind_inv {A B : Type} (m : M A) (k : A -> M B) (w w' : World) (b : B) :
  mbind m k w = (Ok b, w') ->
  exists a w1, m w = (Ok a, w1) /\ k a w1 = (Ok b, w').
Proof.
  unfold mbind. destruct (m w) as [[a|e] w1]; [|discriminate].
  intros H. now exists a, w1.
Qed.

(** What [_signals_and_summary] returns is the summary of the signals the
    instance holds, and it leaves them as they are. *)
Lemma signals_and_summary_result (df : nat) (w w' : World) (r : Summary) :
  _signals_and_summary df w = (Ok r, w') ->
  r = summarize (signals w) /\ signals w' = signals w.
Proof.
  intros H. pose proof (keeps_signals_and_summary df w) as Hk.
  rewrite H in Hk. simpl in Hk. split; [|exact Hk].
  unfold _signals_and_summary in H.
  apply mbind_inv in H. destruct H as (r0 & w0 & H0 & H).
  unfold summary_now in H0. injection H0 as <- <-.
  repeat (apply mbind_inv in H; destruct H as (? & ? & _ & H)).
  now injection H as <- _.
Qed.

(** C4: the overall signal is BUY when the signals that start with BUY
    outnumber those that start with SELL, SELL when it is the other way
    round, and NEUTRAL when the two counts are equal, as they are on an
    empty list; [_signals_and_summary] reports this for [self.signals]. *)
Theorem overall_signal_by_majority (sigs : list string) :
  let buy := List.length (List.filter (String.prefix "BUY") sigs) in
  let sell := List.length (List.filter (String.prefix "SELL") sigs) in
  ((sell < buy)%nat -> overall_signal (summarize sigs) = "BUY"%string)
  /\ ((buy < sell)%nat -> overall_signal (summarize sigs) = "SELL"%string)
  /\ (buy = sell -> overall_signal (summarize sigs) = "NEUTRAL"%string)
  /\ overall_signal (summarize []) = "NEUTRAL"%string
  /\ (forall df w r w',
        _signals_and_summary df w = (Ok r, w') ->
        r = summarize (signals w)).
Proof.
  intros buy sell. unfold summarize. fold buy sell. simpl.
  repeat split.
  - intros H. apply Nat.ltb_lt in H. now rewrite H.
  - intros H. assert (H' : (sell <? buy)%nat = false) by (apply Nat.ltb_ge; lia).
    apply Nat.ltb_lt in H. now rewrite H', H.
  - intros H. rewrite H, Nat.ltb_irrefl. reflexivity.
  - intros df w r w' H. now apply (signals_and_summary_result df w w' r).
Qed.

(** ** Stochastic %K on a flat window *)

Lemma nth_error_zip_with (f : float64 -> float64 -> float64)
  (a b : list float64) (i : nat) (x y : float64) :
  List.nth_error a i = Some x -> List.nth_error b i = Some y ->
  List.nth_error (Series.zip_with f a b) i = Some (f x y).
Proof.
  revert b i. induction a as [|x0 a IH]; intros [|y0 b] [|i]; simpl;
    try discriminate.
  - now intros [= ->] [= ->].
  - apply IH.
Qed.

Lemma nth_error_rolling (agg : list float64 -> float64) (w i : nat)
  (s : list float64) (v : float64) :
  List.nth_error (Series.rolling agg w s) i = Some v ->
  (i < List.length s)%nat
  /\ v = (if (i + 1 <? w)%nat then NaN
          else if existsb isna (Series.window_at w i s) then NaN
          else agg (Series.window_at w i s)).
Proof.
  unfold Series.rolling. rewrite List.nth_error_map, List.nth_error_seq.
  destruct (i <? List.length s)%nat eqn:E; simpl; [|discriminate].
  apply Nat.ltb_lt in E. now intros [= <-].
Qed.

Lemma window_at_last (w i : nat) (s : list float64) :
  (0 < w)%nat -> (w <= i + 1)%nat ->
  List.nth_error (Series.window_at w i s) (w - 1) = List.nth_error s i.
Proof.
  intros Hw Hi. unfold Series.window_at.
  rewrite List.nth_error_firstn.
  assert (E : (w - 1 <? w)%nat = true) by (apply Nat.ltb_lt; lia).
  rewrite E, List.nth_error_skipn. f_equal. lia.
Qed.

Lemma flt_fle (a b : float64) : flt a b = true -> fle a b = true.
Proof.
  destruct a, b; simpl; try discriminate; try reflexivity.
  intros H. apply Qltb_lt in H. apply Qle_bool_iff. lra.
Qed.

Lemma fle_refl (a : float64) : isna a = false -> fle a a = true.
Proof.
  destruct a; simpl; try discriminate; try reflexivity.
  intros _. apply Qle_bool_iff. lra.
Qed.

Lemma fle_of_not_flt (a b : float64) :
  isna a = false -> isna b = false -> flt b a = false -> fle a b = true.
Proof.
  destruct a, b; simpl; try discriminate; try reflexivity.
  intros _ _ H. apply Qltb_ge in H. now apply Qle_bool_iff.
Qed.

Lemma fle_trans (a b c : float64) :
  fle a b = true -> fle b c = true -> fle a c = true.
Proof.
  destruct a, b, c; simpl; try discriminate; try reflexivity.
  intros H1 H2. apply Qle_bool_iff in H1, H2. apply Qle_bool_iff. lra.
Qed.

Lemma fmin_le (a b : float64) :
  isna a = false -> isna b = false ->
  isna (Series.fmin a b) = false
  /\ fle (Series.fmin a b) a = true /\ fle (Series.fmin a b) b = true.
Proof.
  intros Ha Hb. unfold Series.fmin. destruct (flt b a) eqn:E.
  - auto using flt_fle, fle_refl.
  - auto using fle_of_not_flt, fle_refl.
Qed.

Lemma fmax_ge (a b : float64) :
  isna a = false -> isna b = false ->
  isna (Series.fmax a b) = false
  /\ fle a (Series.fmax a b) = true /\ fle b (Series.fmax a b) = true.
Proof.
  intros Ha Hb. unfold Series.fmax. destruct (flt a b) eqn:E.
  - auto using flt_fle, fle_refl.
  - auto using fle_of_not_flt, fle_refl.
Qed.

Lemma fold_fmin_le (l : list float64) (a : float64) :
  isna a = false -> existsb isna l = false ->
  isna (List.fold_left Series.fmin l a) = false
  /\ fle (List.fold_left Series.fmin l a) a = true
  /\ forall y, List.In y l -> fle (List.fold_left Series.fmin l a) y = true.
Proof.
  revert a. induction l as [|x l IH]; simpl; intros a Ha Hl.
  - auto using fle_refl.
  - apply orb_false_iff in Hl. destruct Hl as [Hx Hl].
    destruct (fmin_le a x Ha Hx) as (Hn & H1 & H2).
    destruct (IH _ Hn Hl) as (Hr & Hra & Hrl).
    split; [assumption|]. split; [eauto using fle_trans|].
    intros y [<-|Hy]; eauto using fle_trans.
Qed.

Lemma fold_fmax_ge (l : list float64) (a : float64) :
  isna a = false -> existsb isna l = false ->
  isna (List.fold_left Series.fmax l a) = false
  /\ fle a (List.fold_left Series.fmax l a) = true
  /\ forall y, List.In y l -> fle y (List.fold_left Series.fmax l a) = true.
Proof.
  revert a. induction l as [|x l IH]; simpl; intros a Ha Hl.
  - auto using fle_refl.
  - apply orb_false_iff in Hl. destruct Hl as [Hx Hl].
    destruct (fmax_ge a x Ha Hx) as (Hn & H1 & H2).
    destruct (IH _ Hn Hl) as (Hr & Hra & Hrl).
    split; [assumption|]. split; [eauto using fle_trans|].
    intros y [<-|Hy]; eauto using fle_trans.
Qed.

Lemma min_of_le (w : list float64) (y : float64) :
  existsb isna w = false -> List.In y w -> fle (Series.min_of w) y = true.
Proof.
  destruct w as [|x w]; simpl; [easy|]. intros H Hy.
  apply orb_false_iff in H. destruct H as [Hx Hw].
  destruct (fold_fmin_le w x Hx Hw) as (_ & Ha & Hl).
  destruct Hy as [<-|Hy]; auto.
Qed.

Lemma max_of_ge (w : list float64) (y : float64) :
  existsb isna w = false -> List.In y w -> fle y (Series.max_of w) = true.
Proof.
  destruct w as [|x w]; simpl; [easy|]. intros H Hy.
  apply orb_false_iff in H. destruct H as [Hx Hw].
  destruct (fold_fmax_ge w x Hx Hw) as (_ & Ha & Hl).
  destruct Hy as [<-|Hy]; auto.
Qed.

(** A value of a rolling minimum (maximum) that is a number bounds the
    column's value at the same index from below (above). *)
Lemma rolling_min_le (s : list float64) (i : nat) (m x : Q) :
  List.nth_error (Series.rolling_min 14 s) i = Some (Fin m) ->
  List.nth_error s i = Some (Fin x) -> m <= x.
Proof.
  intros Hr Hx. apply nth_error_rolling in Hr. destruct Hr as [Hi Hv].
  destruct (i + 1 <? 14)%nat eqn:E; [discriminate|].
  apply Nat.ltb_ge in E.
  destruct (existsb isna (Series.window_at 14 i s)) eqn:En; [discriminate|].
  assert (Hin : List.In (Fin x) (Series.window_at 14 i s)).
  { apply (List.nth_error_In _ (14 - 1)).
    rewrite window_at_last by lia. exact Hx. }
  pose proof (min_of_le _ _ En Hin) as Hle. rewrite <- Hv in Hle.
  now apply Qle_bool_iff in Hle.
Qed.

Lemma rolling_max_ge (s : list float64) (i : nat) (m x : Q) :
  List.nth_error (Series.rolling_max 14 s) i = Some (Fin m) ->
  List.nth_error s i = Some (Fin x) -> x <= m.
Proof.
  intros Hr Hx. apply nth_error_rolling in Hr. destruct Hr as [Hi Hv].
  destruct (i + 1 <? 14)%nat eqn:E; [discriminate|].
  apply Nat.ltb_ge in E.
  destruct (existsb isna (Series.window_at 14 i s)) eqn:En; [discriminate|].
  assert (Hin : List.In (Fin x) (Series.window_at 14 i s)).
  { apply (List.nth_error_In _ (14 - 1)).
    rewrite window_at_last by lia. exact Hx. }
  pose proof (max_of_ge _ _ En Hin) as Hle. rewrite <- Hv in Hle.
  now apply Qle_bool_iff in Hle.
Qed.

(** C10, as stated, fails: over fourteen bars with High and Low at 10, so
    that the rolling maximum of High equals the rolling minimum of Low, a
    Close recorded at 12 gives %K = +inf, which is not a missing value. *)
Lemma stoch_k_infinite_on_flat_window :
  List.nth_error (Series.rolling_max 14 flat_high) 13 = Some (Fin 10)
  /\ List.nth_error (Series.rolling_min 14 flat_low) 13 = Some (Fin 10)
  /\ List.nth_error (stoch_k close_above flat_high flat_low) 13 = Some PosInf.
Proof. repeat split; vm_compute; reflexivity. Qed.

(** C10, amended: at an index where the 14-period rolling maximum of High
    equals the 14-period rolling minimum of Low, %K is missing (NaN) when
    Close equals that common value, as it does for every bar with
    Low <= Close <= High, and it is +inf (-inf) when Close is above (below)
    it; it is never a number, so no fallback such as 50 is substituted, and
    the computation raises nothing. *)
Theorem stoch_k_on_zero_range
  (close high low : list float64) (i : nat) (hi lo c : Q) :
  List.nth_error (Series.rolling_max 14 high) i = Some (Fin hi) ->
  List.nth_error (Series.rolling_min 14 low) i = Some (Fin lo) ->
  hi == lo ->
  List.nth_error close i = Some (Fin c) ->
  List.nth_error (stoch_k close high low) i =
    Some (if Qeq_bool c lo then NaN
          else if Qltb lo c then PosInf else NegInf)
  /\ (forall h l,
        List.nth_error high i = Some (Fin h) ->
        List.nth_error low i = Some (Fin l) ->
        l <= c -> c <= h ->
        List.nth_error (stoch_k close high low) i = Some NaN).
Proof.
  intros Hhi Hlo Heq Hc.
  assert (Hk : List.nth_error (stoch_k close high low) i =
               Some (if Qeq_bool c lo then NaN
                     else if Qltb lo c then PosInf else NegInf)).
  { unfold stoch_k, Series.scale, Series.div, Series.sub.
    erewrite List.map_nth_error;
      [|apply nth_error_zip_with;
        apply nth_error_zip_with; eassumption].
    f_equal. simpl.
    assert (E0 : Qeq_bool (hi + - lo) 0 = true)
      by (apply Qeq_bool_iff; lra).
    rewrite E0.
    destruct (Qeq_bool c lo) eqn:E1.
    - apply Qeq_bool_iff in E1.
      assert (E2 : Qeq_bool (c + - lo) 0 = true)
        by (apply Qeq_bool_iff; lra).
      now rewrite E2.
    - assert (E2 : Qeq_bool (c + - lo) 0 = false).
      { destruct (Qeq_bool (c + - lo) 0) eqn:E; [|reflexivity].
        apply Qeq_bool_iff in E.
        assert (E' : Qeq_bool c lo = true) by (apply Qeq_bool_iff; lra).
        congruence. }
      rewrite E2. unfold inf_of_sign.
      destruct (Qltb lo c) eqn:E3.
      + apply Qltb_lt in E3.
        assert (E4 : Qltb 0 (c + - lo) = true) by (apply Qltb_lt; lra).
        now rewrite E4.
      + apply Qltb_ge in E3.
        assert (E4 : Qltb 0 (c + - lo) = false) by (apply Qltb_ge; lra).
        now rewrite E4. }
  split; [exact Hk|].
  intros h l Hh Hl Hlc Hch. rewrite Hk.
  pose proof (rolling_min_le low i lo l Hlo Hl).
  pose proof (rolling_max_ge high i hi h Hhi Hh).
  assert (E1 : Qeq_bool c lo = true) by (apply Qeq_bool_iff; lra).
  now rewrite E1.
Qed.

Lemma stoch_k_on_zero_range_witness :
  List.nth_error (stoch_k close_inside flat_high flat_low) 13 = Some NaN
  /\ List.nth_error (stoch_k close_above flat_high flat_low) 13 = Some PosInf.
Proof.
  assert (Hhi : List.nth_error (Series.rolling_max 14 flat_high) 13
                = Some (Fin 10)) by (vm_compute; reflexivity).
  assert (Hlo : List.nth_error (Series.rolling_min 14 flat_low) 13
                = Some (Fin 10)) by (vm_compute; reflexivity).
  assert (Heq : 10 == 10) by reflexivity.
  split.
  - pose proof (stoch_k_on_zero_range close_inside flat_high flat_low
                  13 10 10 10 Hhi Hlo Heq eq_refl) as [_ Hin].
    apply (Hin 10 10); try reflexivity; lra.
  - pose proof (stoch_k_on_zero_range close_above flat_high flat_low
                  13 10 10 12 Hhi Hlo Heq eq_refl) as [Hk _].
    exact Hk.
Defined.

(** ** Two runs side by side *)

(** Membership of a given name in a given list of names. *)
Ltac in_written := simpl; repeat (first [left; reflexivity | right]).

Section SideBySide.
Variables (df : nat) (f0 : Frame) (c1 c2 : nat).
Variables (sig1 sig2 sum1 sum2 : list string).
Hypothesis Hc1 : c1 <> df.
Hypothesis Hc2 : c2 <> df.

Local Abbreviation same_appended := (same_appended sig1 sig2 sum1 sum2).
Local Abbreviation in_step := (in_step df f0 c1 c2 sig1 sig2 sum1 sum2).
Local Abbreviation outcome := (outcome df f0 c1 c2 sig1 sig2 sum1 sum2).
Local Abbreviation related := (related df f0 c1 c2 sig1 sig2 sum1 sum2).
Local Abbreviation same_frame := (same_frame df c1 c2).

Lemma rel_ret {A : Type} (RA : A -> A -> Prop) (a1 a2 : A) :
  RA a1 a2 -> related RA (ret a1) (ret a2).
Proof. intros H w1 w2 Hw. now split. Qed.

Lemma rel_ret_eq {A : Type} (a : A) : related eq (ret a) (ret a).
Proof. now apply rel_ret. Qed.

Lemma rel_raise {A : Type} (RA : A -> A -> Prop) (e : error) :
  related RA (raise e) (raise e).
Proof. intros w1 w2 Hw. now split. Qed.

Lemma rel_bind {A B : Type} (RA : A -> A -> Prop) (RB : B -> B -> Prop)
  (m1 m2 : M A) (k1 k2 : A -> M B) :
  related RA m1 m2 ->
  (forall a1 a2, RA a1 a2 -> related RB (k1 a1) (k2 a2)) ->
  related RB (mbind m1 k1) (mbind m2 k2).
Proof.
  intros Hm Hk w1 w2 Hw. specialize (Hm w1 w2 Hw). unfold mbind.
  destruct (m1 w1) as [[a1|e1] w1'], (m2 w2) as [[a2|e2] w2'];
    simpl in Hm; try contradiction.
  - destruct Hm as [Ha Hw']. now apply Hk.
  - exact Hm.
Qed.

Lemma outcome_bind {A B : Type} (RA : A -> A -> Prop) (RB : B -> B -> Prop)
  (m1 m2 : M A) (k1 k2 : A -> M B) (w1 w2 : World) :
  outcome RA (m1 w1) (m2 w2) ->
  (forall a1 a2, RA a1 a2 -> related RB (k1 a1) (k2 a2)) ->
  outcome RB (mbind m1 k1 w1) (mbind m2 k2 w2).
Proof.
  intros Hm Hk. unfold mbind.
  destruct (m1 w1) as [[a1|e1] w1'], (m2 w2) as [[a2|e2] w2'];
    simpl in Hm; try contradiction.
  - destruct Hm as [Ha Hw']. now apply Hk.
  - exact Hm.
Qed.

Lemma rel_bind_eq {A B : Type} (RB : B -> B -> Prop)
  (m1 m2 : M A) (k1 k2 : A -> M B) :
  related eq m1 m2 ->
  (forall a, related RB (k1 a) (k2 a)) ->
  related RB (mbind m1 k1) (mbind m2 k2).
Proof.
  intros Hm Hk. apply (rel_bind eq); [assumption|].
  intros a1 a2 <-. apply Hk.
Qed.

Lemma rel_try {A : Type} (RA : A -> A -> Prop) (m1 m2 : M A)
  (h1 h2 : error -> M A) :
  related RA m1 m2 -> (forall e, related RA (h1 e) (h2 e)) ->
  related RA (try_except m1 h1) (try_except m2 h2).
Proof.
  intros Hm Hh w1 w2 Hw. specialize (Hm w1 w2 Hw). unfold try_except.
  destruct (m1 w1) as [[a1|e1] w1'], (m2 w2) as [[a2|e2] w2'];
    simpl in Hm; try contradiction.
  - exact Hm.
  - destruct Hm as [<- Hw']. now apply Hh.
Qed.

Lemma rel_of_option {A : Type} (e : error) (o : option A) :
  related eq (of_option e o) (of_option e o).
Proof. destruct o; [apply rel_ret_eq|apply rel_raise]. Qed.

Lemma rel_read_copy : related eq (read_frame c1) (read_frame c2).
Proof.
  intros w1 w2 Hw. pose proof Hw as (_ & _ & (fc & H1 & H2 & _) & _).
  unfold read_frame. rewrite H1, H2. now split.
Qed.

Lemma rel_read_input : related eq (read_frame df) (read_frame df).
Proof.
  intros w1 w2 Hw. pose proof Hw as (H1 & H2 & _).
  unfold read_frame. rewrite H1, H2. now split.
Qed.

Lemma rel_get_copy (col : string) :
  related eq (get_column c1 col) (get_column c2 col).
Proof.
  apply rel_bind_eq; [apply rel_read_copy|]. intros f. apply rel_of_option.
Qed.

Lemma rel_get_input (col : string) :
  related eq (get_column df col) (get_column df col).
Proof.
  apply rel_bind_eq; [apply rel_read_input|]. intros f. apply rel_of_option.
Qed.

Lemma rel_has_copy (col : string) :
  related eq (has_col c1 col) (has_col c2 col).
Proof.
  apply rel_bind_eq; [apply rel_read_copy|]. intros f. apply rel_ret_eq.
Qed.

Lemma rel_has_input (col : string) :
  related eq (has_col df col) (has_col df col).
Proof.
  apply rel_bind_eq; [apply rel_read_input|]. intros f. apply rel_ret_eq.
Qed.

Lemma rel_len_copy : related eq (len c1) (len c2).
Proof.
  apply rel_bind_eq; [apply rel_read_copy|]. intros f. apply rel_ret_eq.
Qed.

Lemma rel_len_input : related eq (len df) (len df).
Proof.
  apply rel_bind_eq; [apply rel_read_input|]. intros f. apply rel_ret_eq.
Qed.

Lemma rel_last_copy (col : string) (k : nat) :
  related eq (last_value c1 col k) (last_value c2 col k).
Proof.
  apply rel_bind_eq; [apply rel_get_copy|]. intros s. apply rel_of_option.
Qed.

Lemma rel_last_input (col : string) (k : nat) :
  related eq (last_value df col k) (last_value df col k).
Proof.
  apply rel_bind_eq; [apply rel_get_input|]. intros s. apply rel_of_option.
Qed.

(** Writing one of the analysis columns into the working copies. *)
Lemma rel_set_copy (col : string) (s : list float64) :
  List.In col written_columns ->
  related eq (set_column c1 col s) (set_column c2 col s).
Proof.
  intros Hcol w1 w2 Hw.
  pose proof Hw as (Hd1 & Hd2 & (fc & H1 & H2 & Hn & Hext) & Happ).
  unfold set_column, mbind, read_frame. rewrite H1, H2. simpl.
  split; [reflexivity|]. unfold in_step. simpl.
  rewrite !lookup_insert_ne by congruence.
  rewrite !lookup_insert_eq.
  split; [assumption|]. split; [assumption|]. split; [|exact Happ].
  eexists. split; [reflexivity|]. split; [reflexivity|].
  split; [exact Hn|]. simpl. intros col' Hcol'.
  rewrite lookup_insert_ne by (intros ->; contradiction).
  now apply Hext.
Qed.

Lemma rel_append_signal (x : string) :
  related eq (append_signal x) (append_signal x).
Proof.
  intros w1 w2 (Hd1 & Hd2 & Hc & l & s & E1 & E2 & E3 & E4).
  split; [reflexivity|]. unfold in_step. simpl.
  repeat split; try assumption.
  exists (l ++ [x]), s. simpl. rewrite E1, E2, <- !List.app_assoc. auto.
Qed.

Lemma rel_append_summary (x : string) :
  related eq (append_summary x) (append_summary x).
Proof.
  intros w1 w2 (Hd1 & Hd2 & Hc & l & s & E1 & E2 & E3 & E4).
  split; [reflexivity|]. unfold in_step. simpl.
  repeat split; try assumption.
  exists l, (s ++ [x]). simpl. rewrite E3, E4, <- !List.app_assoc. auto.
Qed.

Lemma rel_summary_now : related (fun _ _ => True) summary_now summary_now.
Proof. intros w1 w2 Hw. now split. Qed.

(** Reading a column the input frame does not have raises on both sides,
    whatever was to follow. *)
Lemma rel_get_input_missing {A : Type} (RA : A -> A -> Prop) (col : string)
  (k1 k2 : list float64 -> M A) :
  data f0 !! col = None ->
  related RA (mbind (get_column df col) k1) (mbind (get_column df col) k2).
Proof.
  intros Hcol w1 w2 Hw. pose proof Hw as (H1 & H2 & _).
  unfold get_column, mbind, read_frame.
  rewrite H1, H2. simpl. rewrite Hcol. simpl. now split.
Qed.

Ltac rel_step :=
  first
    [ apply rel_ret;
      first [reflexivity | exact I
            | left; split; reflexivity | right; split; reflexivity]
    | apply rel_raise
    | apply rel_of_option
    | apply rel_get_copy | apply rel_get_input
    | apply rel_has_copy | apply rel_has_input
    | apply rel_len_copy | apply rel_len_input
    | apply rel_last_copy | apply rel_last_input
    | apply rel_set_copy; in_written
    | apply rel_append_signal | apply rel_append_summary
    | apply rel_bind_eq; [|intros ?]
    | progress cbv zeta
    | match goal with
      | |- related _ (if ?b then _ else _) _ => destruct b
      end ].

Ltac rel_auto := repeat rel_step.

Variable ta : TaLib.

Lemma rel_try_indicators :
  related same_frame (try_indicators ta df c1) (try_indicators ta df c2).
Proof.
  unfold try_indicators, of_ta. apply rel_try; [|intros e]; rel_auto.
Qed.

Lemma rel_trend :
  related eq (_trend_analysis c1) (_trend_analysis c2).
Proof.
  unfold _trend_analysis, _support_resistance_analysis,
    _fifty_two_week_analysis. rel_auto.
Qed.

Lemma rel_trend_input :
  related eq (_trend_analysis df) (_trend_analysis df).
Proof.
  unfold _trend_analysis, _support_resistance_analysis,
    _fifty_two_week_analysis. rel_auto.
Qed.

Lemma rel_moving_averages :
  related eq (_moving_averages_analysis c1) (_moving_averages_analysis c2).
Proof.
  unfold _moving_averages_analysis, _cross_analysis, cross_signal. rel_auto.
Qed.

Lemma rel_momentum :
  related eq (_momentum_analysis c1) (_momentum_analysis c2).
Proof.
  unfold _momentum_analysis, _rsi_analysis, _macd_analysis,
    _stochastic_analysis. rel_auto.
Qed.

Lemma rel_volatility :
  related eq (_volatility_analysis c1) (_volatility_analysis c2).
Proof.
  unfold _volatility_analysis, _bollinger_bands_analysis, _atr_analysis.
  rel_auto.
Qed.

Lemma rel_volume :
  related eq (_volume_analysis c1) (_volume_analysis c2).
Proof.
  unfold _volume_analysis, _volume_chart, _vwap_analysis, _obv_analysis,
    _liquidity_analysis. rel_auto.
Qed.

Lemma rel_signals_and_summary :
  related (fun _ _ => True) (_signals_and_summary c1) (_signals_and_summary c2).
Proof.
  unfold _signals_and_summary.
  apply (rel_bind (fun _ _ => True)); [apply rel_summary_now|].
  intros r1 r2 _. rel_auto.
Qed.

Lemma rel_run_tabs :
  related (fun _ _ => True) (run_tabs c1) (run_tabs c2).
Proof.
  unfold run_tabs.
  apply rel_bind_eq; [apply rel_trend|intros _].
  apply rel_bind_eq; [apply rel_moving_averages|intros _].
  apply rel_bind_eq; [apply rel_momentum|intros _].
  apply rel_bind_eq; [apply rel_volatility|intros _].
  apply rel_bind_eq; [apply rel_volume|intros _].
  apply rel_signals_and_summary.
Qed.

(** When the indicators could not be computed the tabs run on the input
    frame itself; without an SMA_20 column they stop at the first chart of
    the second tab, having written nothing into the frame. *)
Lemma rel_run_tabs_input :
  data f0 !! "SMA_20"%string = None ->
  related (fun _ _ => True) (run_tabs df) (run_tabs df).
Proof.
  intros Hcol. unfold run_tabs.
  apply rel_bind_eq; [apply rel_trend_input|intros _].
  apply (rel_bind (fun _ _ => False)); [|intros ? ? []].
  unfold _moving_averages_analysis. now apply rel_get_input_missing.
Qed.

End SideBySide.

(** ** One run, and two *)

Lemma copy_ok (df : nat) (f : Frame) (w : World) :
  heap w !! df = Some f ->
  copy df w =
  (Ok (fresh (dom (heap w))),
   mkWorld (<[fresh (dom (heap w)) := f]> (heap w))
     (signals w) (summary_points w)).
Proof.
  intros Hf. unfold copy.
  now rewrite (mbind_ok _ _ _ _ _ (read_frame_ok df f w Hf)).
Qed.

Lemma fresh_not_held (h : gmap nat Frame) : h !! fresh (dom h) = None.
Proof. apply not_elem_of_dom, is_fresh. Qed.

Lemma fresh_is_new (h : gmap nat Frame) (df : nat) (f : Frame) :
  h !! df = Some f -> fresh (dom h) <> df.
Proof.
  intros Hf E. pose proof (fresh_not_held h) as Hn.
  rewrite E in Hn. congruence.
Qed.

Lemma extends_refl (f : Frame) : extends f f.
Proof. now split. Qed.

(** Two calls of [_calculate_all_indicators] on the same input frame end in
    step: each has filled its own new copy, or both hand back the input. *)
Lemma indicators_side_by_side (ta : TaLib) (df : nat) (f0 : Frame)
  (w1 w2 : World) (sig1 sig2 sum1 sum2 : list string) :
  heap w1 !! df = Some f0 -> heap w2 !! df = Some f0 ->
  same_appended sig1 sig2 sum1 sum2 w1 w2 ->
  outcome df f0 (fresh (dom (heap w1))) (fresh (dom (heap w2)))
    sig1 sig2 sum1 sum2
    (same_frame df (fresh (dom (heap w1))) (fresh (dom (heap w2))))
    (_calculate_all_indicators ta df w1)
    (_calculate_all_indicators ta df w2).
Proof.
  intros H1 H2 Happ. unfold _calculate_all_indicators.
  rewrite (mbind_ok _ _ _ _ _ (copy_ok df f0 w1 H1)).
  rewrite (mbind_ok _ _ _ _ _ (copy_ok df f0 w2 H2)).
  pose proof (fresh_is_new _ _ _ H1) as Hc1.
  pose proof (fresh_is_new _ _ _ H2) as Hc2.
  apply rel_try_indicators; try assumption.
  unfold in_step. simpl.
  rewrite !lookup_insert_ne by assumption. rewrite !lookup_insert_eq.
  split; [assumption|]. split; [assumption|]. split; [|exact Happ].
  exists f0. auto using extends_refl.
Qed.

Lemma is_empty_ok (df : nat) (f : Frame) (w : World) :
  heap w !! df = Some f ->
  is_empty df w = (Ok ((nrows f =? 0)%nat || (size (data f) =? 0)%nat), w).
Proof.
  intros Hf. unfold is_empty.
  now rewrite (mbind_ok _ _ _ _ _ (read_frame_ok df f w Hf)).
Qed.

(** Two runs of [analyze_stock] on the same input frame, from any two
    states of the instance: the input frame is as it was, both runs append
    the same signals and the same summary points, and they end alike. *)
Lemma analyze_stock_side_by_side (ta : TaLib) (df : nat) (f0 : Frame)
  (w1 w2 : World) :
  heap w1 !! df = Some f0 -> heap w2 !! df = Some f0 ->
  data f0 !! "SMA_20"%string = None ->
  heap (snd (analyze_stock ta df w1)) !! df = Some f0
  /\ heap (snd (analyze_stock ta df w2)) !! df = Some f0
  /\ same_appended (signals w1) (signals w2)
       (summary_points w1) (summary_points w2)
       (snd (analyze_stock ta df w1)) (snd (analyze_stock ta df w2))
  /\ same_kind (fst (analyze_stock ta df w1)) (fst (analyze_stock ta df w2)).
Proof.
  intros H1 H2 Hcol.
  assert (Happ0 : same_appended (signals w1) (signals w2)
                    (summary_points w1) (summary_points w2) w1 w2)
    by (exists [], []; now rewrite !List.app_nil_r).
  unfold analyze_stock.
  rewrite (mbind_ok _ _ _ _ _ (is_empty_ok df f0 w1 H1)).
  rewrite (mbind_ok _ _ _ _ _ (is_empty_ok df f0 w2 H2)).
  destruct (_ || _); [simpl; auto|].
  rewrite (mbind_ok _ _ _ _ _ (read_frame_ok df f0 w1 H1)).
  rewrite (mbind_ok _ _ _ _ _ (read_frame_ok df f0 w2 H2)).
  destruct (List.filter _ required_cols); [|simpl; auto].
  pose proof (fresh_is_new _ _ _ H1) as Hc1.
  pose proof (fresh_is_new _ _ _ H2) as Hc2.
  pose proof (indicators_side_by_side ta df f0 w1 w2 _ _ _ _ H1 H2 Happ0)
    as Hind.
  match goal with
  | |- context [mbind (_calculate_all_indicators ta df) ?K w1] =>
      assert (Hout :
        outcome df f0 (fresh (dom (heap w1))) (fresh (dom (heap w2)))
          (signals w1) (signals w2) (summary_points w1) (summary_points w2)
          (fun o1 o2 : option Summary => same_kind (Ok o1) (Ok o2))
          (mbind (_calculate_all_indicators ta df) K w1)
          (mbind (_calculate_all_indicators ta df) K w2))
  end.
  { eapply outcome_bind; [exact Hind|]. intros a1 a2 Ha.
    eapply rel_bind with (RA := fun _ _ : Summary => True);
      [|intros r1 r2 _; now apply rel_ret].
    destruct Ha as [[-> ->]|[-> ->]].
    - now apply rel_run_tabs.
    - now apply rel_run_tabs_input. }
  unfold outcome in Hout.
  destruct (mbind (_calculate_all_indicators ta df) _ w1) as [[o1|e1] w1'],
    (mbind (_calculate_all_indicators ta df) _ w2) as [[o2|e2] w2'];
    try contradiction; simpl.
  - destruct Hout as [Hk (Hd1 & Hd2 & _ & Hl)]. auto.
  - destruct Hout as [-> (Hd1 & Hd2 & _ & Hl)]. auto.
Qed.

Lemma run_tabs_result (c : nat) (w w' : World) (r : Summary) :
  run_tabs c w = (Ok r, w') -> r = summarize (signals w').
Proof.
  unfold run_tabs. intros H.
  do 5 (apply mbind_inv in H; destruct H as (? & ? & _ & H)).
  apply signals_and_summary_result in H. destruct H as [-> ->]. reflexivity.
Qed.

(** A run that ends with a summary reports the summary of all the signals
    the instance then holds. *)
Lemma analyze_stock_result (ta : TaLib) (df : nat) (w w' : World)
  (r : Summary) :
  analyze_stock ta df w = (Ok (Some r), w') -> r = summarize (signals w').
Proof.
  unfold analyze_stock. intros H.
  apply mbind_inv in H. destruct H as (e & w1 & _ & H).
  destruct e; [discriminate|].
  apply mbind_inv in H. destruct H as (f & w2 & _ & H).
  destruct (List.filter _ required_cols); [|discriminate].
  apply mbind_inv in H. destruct H as (c & w3 & _ & H).
  apply mbind_inv in H. destruct H as (r0 & w4 & Hr & H).
  injection H as <- <-. now apply run_tabs_result in Hr.
Qed.

Lemma summarize_twice (l : list string) :
  buy_signals (summarize (l ++ l))
  = buy_signals (summarize l) ++ buy_signals (summarize l)
  /\ sell_signals (summarize (l ++ l))
     = sell_signals (summarize l) ++ sell_signals (summarize l)
  /\ overall_signal (summarize (l ++ l)) = overall_signal (summarize l).
Proof.
  unfold summarize. simpl. rewrite !List.filter_app, !List.length_app.
  repeat split.
  set (b := List.length (List.filter (String.prefix "BUY") l)).
  set (s := List.length (List.filter (String.prefix "SELL") l)).
  destruct (s <? b)%nat eqn:E1.
  - apply Nat.ltb_lt in E1.
    assert (E : (s + s <? b + b)%nat = true) by (apply Nat.ltb_lt; lia).
    now rewrite E.
  - apply Nat.ltb_ge in E1.
    assert (E : (s + s <? b + b)%nat = false) by (apply Nat.ltb_ge; lia).
    rewrite E. destruct (b <? s)%nat eqn:E2.
    + apply Nat.ltb_lt in E2.
      assert (E' : (b + b <? s + s)%nat = true) by (apply Nat.ltb_lt; lia).
      now rewrite E'.
    + apply Nat.ltb_ge in E2.
      assert (E' : (b + b <? s + s)%nat = false) by (apply Nat.ltb_ge; lia).
      now rewrite E'.
Qed.

(** C9, as stated, fails: on one instance the second run of [analyze_stock]
    over [rising_bars] finds the first run's signals still in [self.signals]
    and appends its own, so the list and the SELL count of the second summary
    are twice those of the first. *)
Lemma second_run_on_one_instance_doubles :
  let first := analyze_stock partial_ta 0 (world_of rising_bars) in
  let again := analyze_stock partial_ta 0 (snd first) in
  signals (snd first)
  = ["SELL - RSI Overbought"; "SELL - Stochastic Overbought"]%string
  /\ signals (snd again)
     = ["SELL - RSI Overbought"; "SELL - Stochastic Overbought";
        "SELL - RSI Overbought"; "SELL - Stochastic Overbought"]%string
  /\ exists s1 s2,
       fst first = Ok (Some s1) /\ fst again = Ok (Some s2)
       /\ List.length (sell_signals s1) = 2%nat
       /\ List.length (sell_signals s2) = 4%nat.
Proof.
  split; [vm_compute; reflexivity|]. split; [vm_compute; reflexivity|].
  eexists. eexists. split; [vm_compute; reflexivity|].
  split; [vm_compute; reflexivity|]. split; reflexivity.
Qed.

(** C9, amended: for an input series without an SMA_20 column, a run of
    [analyze_stock] leaves the series as it was, and what it appends to the
    instance depends on the series only.  A second run on a newly built
    instance therefore gives the same signal list and the same result as
    the first.  A second run on the same instance appends the same signals
    once more: its list is the first list twice, the BUY and SELL lists of
    its summary are those of the first summary twice, and its overall signal
    is that of the first. *)
Theorem second_run_appends_the_same_signals
  (ta : TaLib) (df : nat) (f0 : Frame) (h : gmap nat Frame) :
  h !! df = Some f0 ->
  data f0 !! "SMA_20"%string = None ->
  let first := analyze_stock ta df (__init__ h) in
  let again := analyze_stock ta df (snd first) in
  let anew := analyze_stock ta df (__init__ (heap (snd first))) in
  heap (snd first) !! df = Some f0
  /\ signals (snd anew) = signals (snd first)
  /\ fst anew = fst first
  /\ signals (snd again) = signals (snd first) ++ signals (snd first)
  /\ same_kind (fst first) (fst again)
  /\ (forall s1 s2,
        fst first = Ok (Some s1) -> fst again = Ok (Some s2) ->
        buy_signals s2 = buy_signals s1 ++ buy_signals s1
        /\ sell_signals s2 = sell_signals s1 ++ sell_signals s1
        /\ overall_signal s2 = overall_signal s1).
Proof.
  intros Hdf Hcol first again anew.
  assert (H0 : heap (__init__ h) !! df = Some f0) by exact Hdf.
  destruct (analyze_stock_side_by_side ta df f0 _ _ H0 H0 Hcol)
    as (Hd1 & _ & _ & _).
  fold first in Hd1.
  assert (H3 : heap (__init__ (heap (snd first))) !! df = Some f0)
    by exact Hd1.
  destruct (analyze_stock_side_by_side ta df f0 _ _ H0 Hd1 Hcol)
    as (_ & _ & (l & s & E1 & E2 & _) & Hk).
  destruct (analyze_stock_side_by_side ta df f0 _ _ H0 H3 Hcol)
    as (_ & _ & (l' & s' & E1' & E2' & _) & Hk').
  fold first in E1, E2, Hk, E1', E2', Hk'. fold again in E2, Hk.
  fold anew in E2', Hk'. simpl in E1, E1', E2'.
  assert (Hagain : signals (snd again) = signals (snd first) ++ signals (snd first))
    by (rewrite E2, E1; reflexivity).
  assert (Hanew : signals (snd anew) = signals (snd first))
    by (rewrite E2', E1'; reflexivity).
  split; [exact Hd1|]. split; [exact Hanew|].
  split; [|split; [exact Hagain|split; [exact Hk|]]].
  - destruct (analyze_stock ta df (__init__ h)) as [r1 w1] eqn:R1.
    destruct (analyze_stock ta df (__init__ (heap (snd first))))
      as [r3 w3] eqn:R3.
    subst first anew. simpl in *.
    destruct r1 as [[s1|]|e1], r3 as [[s3|]|e3]; simpl in Hk';
      try contradiction; try reflexivity; [|now subst].
    apply analyze_stock_result in R1. apply analyze_stock_result in R3.
    now rewrite R1, R3, Hanew.
  - intros s1 s2 F1 F2.
    destruct (analyze_stock ta df (__init__ h)) as [r1 w1] eqn:R1.
    destruct (analyze_stock ta df (snd first)) as [r2 w2] eqn:R2.
    subst first again. simpl in *. subst r1 r2.
    apply analyze_stock_result in R1, R2. rewrite Hagain in R2.
    rewrite R1, R2. apply summarize_twice.
Qed.

Lemma second_run_appends_the_same_signals_witness :
  let first := analyze_stock partial_ta 0 (world_of rising_bars) in
  let again := analyze_stock partial_ta 0 (snd first) in
  signals (snd again) = signals (snd first) ++ signals (snd first).
Proof.
  assert (Hdf : ({[ 0%nat := rising_bars ]} : gmap nat Frame) !! 0%nat
                = Some rising_bars) by apply lookup_singleton_eq.
  assert (Hcol : data rising_bars !! "SMA_20"%string = None)
    by (vm_compute; reflexivity).
  pose proof (second_run_appends_the_same_signals partial_ta 0 rising_bars
                {[ 0%nat := rising_bars ]} Hdf Hcol)
    as (_ & _ & _ & H & _).
  exact H.
Defined.

(** ** Which frame the indicators are written into *)

Section Footprint.
Variables (l : nat) (names : list string).

Local Abbreviation touches_only := (touches_only l names).

Lemma touches_of_reader {A : Type} (m : M A) :
  (forall w, snd (m w) = w) -> touches_only m.
Proof.
  intros H w. rewrite H. split; [reflexivity|].
  destruct (heap w !! l) as [f|]; [|reflexivity]. now exists f.
Qed.

Lemma touches_ret {A : Type} (a : A) : touches_only (ret a).
Proof. now apply touches_of_reader. Qed.

Lemma touches_of_option {A : Type} (e : error) (o : option A) :
  touches_only (of_option e o).
Proof. apply touches_of_reader. now destruct o. Qed.

Lemma touches_get_column (df : nat) (col : string) :
  touches_only (get_column df col).
Proof.
  apply touches_of_reader. intros w. unfold get_column, mbind, read_frame.
  destruct (heap w !! df) as [f|]; simpl; [|reflexivity].
  now destruct (data f !! col).
Qed.

Lemma touches_set_column (col : string) (s : list float64) :
  List.In col names -> touches_only (set_column l col s).
Proof.
  intros Hcol w. unfold set_column, mbind, read_frame.
  destruct (heap w !! l) as [f|] eqn:E; simpl.
  - split; [intros l' Hl'; now rewrite lookup_insert_ne by congruence|].
    rewrite lookup_insert_eq. eexists. split; [reflexivity|].
    split; [reflexivity|]. simpl. intros col' Hcol'.
    now rewrite lookup_insert_ne by (intros ->; contradiction).
  - now split.
Qed.

Lemma touches_bind {A B : Type} (m : M A) (k : A -> M B) :
  touches_only m -> (forall a, touches_only (k a)) ->
  touches_only (mbind m k).
Proof.
  intros Hm Hk w. unfold mbind. specialize (Hm w).
  destruct (m w) as [[a|e] w1]; simpl in *; [|exact Hm].
  specialize (Hk a w1). destruct Hm as [Ho Hl], Hk as [Ho' Hl'].
  split; [intros l' Hne; now rewrite Ho', Ho|].
  destruct (heap w !! l) as [f|].
  - destruct Hl as (g & Eg & Hn & Hc). rewrite Eg in Hl'.
    destruct Hl' as (g' & Eg' & Hn' & Hc'). exists g'.
    split; [exact Eg'|]. split; [congruence|].
    intros col Hcol. now rewrite Hc', Hc.
  - now rewrite Hl in Hl'.
Qed.

End Footprint.

Ltac touch_auto :=
  repeat first
    [ apply touches_ret
    | apply touches_of_option
    | apply touches_get_column
    | apply touches_set_column; in_written
    | apply touches_bind; [|intros ?] ].

Lemma calculate_indicators_footprint (ta : TaLib) (df : nat) :
  touches_only df TechnicalAnalysis.written_columns
    (TechnicalAnalysis.calculate_indicators ta df).
Proof.
  unfold TechnicalAnalysis.calculate_indicators, of_ta. touch_auto.
Qed.

Lemma calculate_indicators_returns_its_argument (ta : TaLib) (df : nat)
  (w : World) (r : nat) :
  fst (TechnicalAnalysis.calculate_indicators ta df w) = Ok r -> r = df.
Proof.
  destruct (TechnicalAnalysis.calculate_indicators ta df w) as [x w'] eqn:H.
  simpl. intros ->. unfold TechnicalAnalysis.calculate_indicators in H.
  do 45 (apply mbind_inv in H; destruct H as (? & ? & _ & H)).
  now injection H as <- _.
Qed.

Lemma calculate_all_indicators_returns (ta : TaLib) (df : nat) (f : Frame)
  (w : World) :
  heap w !! df = Some f ->
  exists r, fst (_calculate_all_indicators ta df w) = Ok r.
Proof.
  intros Hf. unfold _calculate_all_indicators.
  rewrite (mbind_ok _ _ _ _ _ (copy_ok df f w Hf)).
  unfold try_indicators, try_except.
  match goal with
  | |- context [match ?m ?x with _ => _ end] =>
      destruct (m x) as [[a|e] w']
  end; eexists; reflexivity.
Qed.

(** C8, as stated, fails for [TechnicalAnalysis.calculate_indicators]: it
    writes the indicator columns into the frame it is given and returns that
    same frame, so the argument has a column SMA_20 afterwards that it did
    not have before, and the result is not a separate object. *)
Lemma calculate_indicators_writes_into_its_argument :
  let x :=
    TechnicalAnalysis.calculate_indicators partial_ta 0 (world_of three_bars)
  in
  fst x = Ok 0%nat
  /\ heap (world_of three_bars) !! 0%nat = Some three_bars
  /\ data three_bars !! "SMA_20"%string = None
  /\ match heap (snd x) !! 0%nat with
     | Some g => data g !! "SMA_20"%string
     | None => None
     end = Some [NaN; NaN; NaN]
  /\ heap (snd x) !! 0%nat <> heap (world_of three_bars) !! 0%nat.
Proof.
  assert (H1 : data three_bars !! "SMA_20"%string = None)
    by (vm_compute; reflexivity).
  assert (H2 : match heap (snd (TechnicalAnalysis.calculate_indicators
                                  partial_ta 0 (world_of three_bars)))
                     !! 0%nat with
               | Some g => data g !! "SMA_20"%string
               | None => None
               end = Some [NaN; NaN; NaN])
    by (vm_compute; reflexivity).
  assert (H3 : heap (world_of three_bars) !! 0%nat = Some three_bars)
    by apply lookup_singleton_eq.
  split; [vm_compute; reflexivity|]. split; [exact H3|].
  split; [exact H1|]. split; [exact H2|].
  intros E. rewrite E, H3 in H2.
  change (data three_bars !! "SMA_20"%string = Some [NaN; NaN; NaN]) in H2.
  congruence.
Qed.

(** C8, amended: [_calculate_all_indicators] never changes the frame it is
    given: it returns a new frame with the same rows in which every column
    that is not one of the indicator columns is that of the input, or, when
    an indicator could not be computed, the untouched input itself.
    [TechnicalAnalysis.calculate_indicators] writes its indicator columns
    into the frame it is given and returns that frame; the rows and every
    column not named as one of its indicators stay as they were, and no
    other frame is changed.  Its caller [display_analysis] hands it a copy,
    so the caller's series is unchanged. *)
Theorem indicators_and_the_input_frame
  (ta : TaLib) (df : nat) (f0 : Frame) (w : World) :
  heap w !! df = Some f0 ->
  (heap (snd (_calculate_all_indicators ta df w)) !! df = Some f0
   /\ exists r,
        fst (_calculate_all_indicators ta df w) = Ok r
        /\ (r = df
            \/ (heap w !! r = None
                /\ exists g,
                     heap (snd (_calculate_all_indicators ta df w)) !! r
                     = Some g
                     /\ extends f0 g)))
  /\ heap (snd (TechnicalAnalysis.display_analysis_indicators ta df w)) !! df
     = Some f0
  /\ (forall r,
        fst (TechnicalAnalysis.calculate_indicators ta df w) = Ok r -> r = df)
  /\ (exists g,
        heap (snd (TechnicalAnalysis.calculate_indicators ta df w)) !! df
        = Some g
        /\ nrows g = nrows f0
        /\ forall col, ~ List.In col TechnicalAnalysis.written_columns ->
                       data g !! col = data f0 !! col)
  /\ (forall l', l' <> df ->
        heap (snd (TechnicalAnalysis.calculate_indicators ta df w)) !! l'
        = heap w !! l').
Proof.
  intros Hf. split; [|split; [|split; [|split]]].
  - assert (Happ : same_appended (signals w) (signals w)
                     (summary_points w) (summary_points w) w w)
      by (exists [], []; now rewrite !List.app_nil_r).
    pose proof (indicators_side_by_side ta df f0 w w _ _ _ _ Hf Hf Happ)
      as Hout.
    destruct (calculate_all_indicators_returns ta df f0 w Hf) as [r Hr].
    destruct (_calculate_all_indicators ta df w) as [x w'].
    simpl in Hr. subst x. simpl in *.
    destruct Hout as [Hsame (Hd & _ & (fc & Hc & _ & Hext) & _)].
    split; [exact Hd|]. exists r. split; [reflexivity|].
    destruct Hsame as [[-> _]|[-> _]]; [right|now left].
    split; [apply fresh_not_held|]. now exists fc.
  - unfold TechnicalAnalysis.display_analysis_indicators.
    rewrite (mbind_ok _ _ _ _ _ (copy_ok df f0 w Hf)).
    destruct (calculate_indicators_footprint ta (fresh (dom (heap w)))
                (mkWorld (<[fresh (dom (heap w)) := f0]> (heap w))
                   (signals w) (summary_points w))) as [Hother _].
    rewrite Hother by (symmetry; exact (fresh_is_new _ _ _ Hf)).
    simpl. rewrite lookup_insert_ne by exact (fresh_is_new _ _ _ Hf).
    exact Hf.
  - intros r. apply calculate_indicators_returns_its_argument.
  - destruct (calculate_indicators_footprint ta df w) as [_ Hl].
    now rewrite Hf in Hl.
  - intros l' Hl'.
    destruct (calculate_indicators_footprint ta df w) as [Hother _].
    now apply Hother.
Qed.

Lemma indicators_and_the_input_frame_witness :
  heap (snd (_calculate_all_indicators partial_ta 0 (world_of three_bars)))
    !! 0%nat = Some three_bars
  /\ heap (snd (TechnicalAnalysis.display_analysis_indicators partial_ta 0
                  (world_of three_bars))) !! 0%nat = Some three_bars.
Proof.
  assert (H : heap (world_of three_bars) !! 0%nat = Some three_bars)
    by apply lookup_singleton_eq.
  pose proof (indicators_and_the_input_frame partial_ta 0 three_bars
                (world_of three_bars) H) as ((H1 & _) & H2 & _).
  split; assumption.
Defined.

(** * Further properties of the pipeline *)

(** ** What the cleaner returns *)






Lemma kept_rows_of_valid (df : DataFrame) :
  List.Forall
    (fun r => prices_ordered r /\ prices_positive r /\ volume_nonneg r)
    (rows df) ->
  kept_rows df = rows df.
Proof.
  intros Hall. rewrite List.Forall_forall in Hall.
  assert (Hrow : forall r, List.In r (rows df) ->
            replace_inf_row r = r /\ row_has_na r = false
            /\ invalid_mask r = false).
  { intros r Hr. destruct (Hall r Hr) as (Ho & Hp & Hv).
    destruct Ho as (d & o & h & l & c & v & Hb & Ho).
    destruct Hp as (d' & o' & h' & l' & c' & v' & Hb' & Hp).
    destruct Hv as (d'' & o'' & h'' & l'' & c'' & v'' & Hb'' & Hv).
    unfold bar in *. rewrite Hb in Hb', Hb''.
    injection Hb' as <- <- <- <- <- <-. injection Hb'' as <- <- <- <- <- <-.
    now apply (bar_passes_again r d o h l c v). }
  unfold kept_rows.
  rewrite (List.map_ext_in replace_inf_row (fun r => r))
    by (intros r Hr; apply Hrow, Hr).
  rewrite List.map_id. unfold dropna.
  rewrite filter_all by (intros r Hr; apply negb_true_iff, Hrow, Hr).
  rewrite drop_invalid_filter.
  apply filter_all. intros r Hr. apply negb_true_iff, Hrow, Hr.
Qed.

(** X2: when every row given to [_final_data_cleaning] is already a
    complete bar with ordered, positive prices and a non-negative volume, no
    row is dropped: the result has as many rows, and its dates are the dates
    of the input put in ascending order. *)
Theorem valid_rows_are_all_kept (df out : DataFrame) :
  _final_data_cleaning df = Ok out ->
  List.Forall
    (fun r => prices_ordered r /\ prices_positive r /\ volume_nonneg r)
    (rows df) ->
  List.length (rows out) = List.length (rows df)
  /\ Permutation (List.map Date (rows df)) (List.map Date (rows out))
  /\ dates_ascending (rows out).
Proof.
  intros H Hall. apply final_cleaning_rows in H. subst out. cbn [rows].
  pose proof (validated_rows_sane df) as Hs.
  assert (Hv : validated_rows df = sort_values (rows df))
    by (unfold validated_rows; now rewrite kept_rows_of_valid).
  split; [|split].
  - rewrite cap_outliers_length by assumption. rewrite Hv.
    apply sort_by_length.
  - rewrite cap_outliers_dates by assumption. rewrite Hv.
    apply Permutation_map, sort_by_perm.
  - unfold dates_ascending. rewrite cap_outliers_dates by assumption.
    apply validated_rows_ascending.
Qed.

Lemma rowQ_valid (d : Z) (o h l c v : Q) :
  l <= o /\ o <= h /\ l <= c /\ c <= h ->
  0 < o /\ 0 < h /\ 0 < l /\ 0 < c -> 0 <= v ->
  prices_ordered (rowQ d o h l c v) /\ prices_positive (rowQ d o h l c v)
  /\ volume_nonneg (rowQ d o h l c v).
Proof.
  intros Ho Hp Hv. repeat split; exists d, o, h, l, c, v; now split.
Qed.

Lemma valid_rows_are_all_kept_witness :
  List.length (rows plain_cleaned) = 3%nat
  /\ Permutation (List.map Date (rows plain_cleaned))
       (List.map Date (rows plain_cleaned)).
Proof.
  assert (H : _final_data_cleaning plain_cleaned = Ok plain_cleaned)
    by (vm_compute; reflexivity).
  assert (Hall : List.Forall
            (fun r => prices_ordered r /\ prices_positive r /\ volume_nonneg r)
            (rows plain_cleaned)).
  { repeat constructor; apply rowQ_valid; lra. }
  destruct (valid_rows_are_all_kept plain_cleaned plain_cleaned H Hall)
    as (Hl & Hp & _).
  split; assumption.
Defined.

(** ** Capping stays inside the column *)

Lemma sane_column_values (c : NumCol) (l : list Row) (v : float64) :
  List.Forall sane l -> List.In v (List.map (get_col c) l) ->
  exists q, v = Fin q /\ List.In q (finite_values (List.map (get_col c) l)).
Proof.
  intros Hall Hv. pose proof Hv as Hv'.
  apply List.in_map_iff in Hv. destruct Hv as (r & <- & Hr).
  rewrite List.Forall_forall in Hall. destruct (Hall r Hr) as [_ Hc].
  destruct (Hc c) as (q & Eq & _). exists q. split; [exact Eq|].
  apply in_finite_values. now rewrite <- Eq.
Qed.

(** X3: the capping loop never takes a value out of the range of its
    column: every value of a numeric column of the series returned by
    [_final_data_cleaning] is a number lying between two values that the
    column held after the validation. *)
Theorem capped_values_stay_in_range
  (df out : DataFrame) (c : NumCol) (v : float64) :
  _final_data_cleaning df = Ok out ->
  List.In v (List.map (get_col c) (rows out)) ->
  exists lo x hi,
    v = Fin x /\ lo <= x /\ x <= hi
    /\ List.In (Fin lo) (List.map (get_col c) (validated_rows df))
    /\ List.In (Fin hi) (List.map (get_col c) (validated_rows df)).
Proof.
  intros H Hv. apply final_cleaning_rows in H. subst out. cbn [rows] in Hv.
  pose proof (validated_rows_sane df) as Hs.
  rewrite cap_outliers_column in Hv by assumption.
  set (col := List.map (get_col c) (validated_rows df)) in *.
  apply List.in_map_iff in Hv. destruct Hv as (v0 & <- & Hv0).
  destruct (sane_column_values c _ v0 Hs Hv0) as (q0 & -> & Hq0).
  fold col in Hq0.
  assert (Hne : finite_values col <> []) by (intros E; now rewrite E in Hq0).
  destruct (quantileQ_between (1 # 100) (finite_values col))
    as (a & a1 & a2 & Ea & Ha1 & Ha2 & Hl1 & Hu1); [lra|lra|assumption|].
  destruct (quantileQ_between (99 # 100) (finite_values col))
    as (b & b1 & b2 & Eb & Hb1 & Hb2 & Hl2 & Hu2); [lra|lra|assumption|].
  unfold quantile. rewrite Ea, Eb. unfold cap_value.
  destruct (flt _ _).
  - exists a1, a, a2. rewrite <- !in_finite_values. auto.
  - destruct (fgt _ _).
    + exists b1, b, b2. rewrite <- !in_finite_values. auto.
    + exists q0, q0, q0. rewrite <- !in_finite_values.
      repeat split; try assumption; lra.
Qed.

Lemma capped_values_stay_in_range_witness :
  exists lo x hi,
    Fin (10099 # 100) = Fin x /\ lo <= x /\ x <= hi
    /\ List.In (Fin lo) (List.map Open (validated_rows penny_frame))
    /\ List.In (Fin hi) (List.map Open (validated_rows penny_frame)).
Proof.
  eapply (capped_values_stay_in_range penny_frame _ ColOpen).
  - vm_compute. reflexivity.
  - left. vm_compute. reflexivity.
Defined.

(** ** The chart's own cleaning *)

Import SimpleCandlestickChart.




(** ** The format check of the loader *)


Lemma filter_none {A : Type} (f : A -> bool) (l : list A) :
  (forall x, List.In x l -> f x = false) -> List.filter f l = [].
Proof.
  induction l as [|x l IH]; simpl; intros H; [reflexivity|].
  rewrite (H x (or_introl eq_refl)). apply IH. auto.
Qed.



(** ** Filling the gaps of a column *)

Lemma isna_NaN (x : float64) : isna x = true <-> x = NaN.
Proof. destruct x; simpl; split; congruence. Qed.

Lemma ffill_from_length (p : float64) (s : list float64) :
  List.length (ffill_from p s) = List.length s.
Proof.
  revert p. induction s as [|x s IH]; intros p; simpl; [reflexivity|].
  destruct (isna x); simpl; now rewrite IH.
Qed.

Lemma ffill_from_nth (p : float64) (s : list float64) (i : nat) (x : float64) :
  List.nth_error s i = Some x -> isna x = false ->
  List.nth_error (ffill_from p s) i = Some x.
Proof.
  revert p i. induction s as [|y s IH]; intros p [|i]; simpl; try discriminate.
  - intros [= ->] Hx. now rewrite Hx.
  - intros Hi Hx. destruct (isna y); simpl; now apply IH.
Qed.

Lemma ffill_from_in (p : float64) (s : list float64) (x : float64) :
  List.In x (ffill_from p s) -> x = p \/ List.In x s.
Proof.
  revert p. induction s as [|y s IH]; intros p; simpl; [tauto|].
  destruct (isna y); simpl; intros [<-|H]; auto;
    apply IH in H; destruct H as [->|H]; auto.
Qed.

Lemma ffill_from_valid (p : float64) (s : list float64) :
  isna p = false -> existsb isna (ffill_from p s) = false.
Proof.
  revert p. induction s as [|y s IH]; intros p Hp; simpl; [reflexivity|].
  destruct (isna y) eqn:E; simpl.
  - rewrite Hp. now apply IH.
  - rewrite E. now apply IH.
Qed.

(** After a forward fill the values still missing are at the head of the
    column, and they are all of it when the column had no value at all. *)
Lemma ffill_shape (s : list float64) :
  exists k u,
    ffill s = List.repeat NaN k ++ u /\ existsb isna u = false
    /\ (u = [] -> forall x, List.In x s -> x = NaN).
Proof.
  unfold ffill. induction s as [|y s IH]; simpl.
  - exists 0%nat, []. now repeat split.
  - destruct (isna y) eqn:E.
    + destruct IH as (k & u & Ek & Hu & Hall).
      exists (S k), u. rewrite Ek. repeat split; [assumption|].
      intros Hnil x [<-|Hx]; [now apply isna_NaN|now apply Hall].
    + exists 0%nat, (y :: ffill_from y s). repeat split.
      * simpl. rewrite E. now apply ffill_from_valid.
      * discriminate.
Qed.

Lemma bfill_length (s : list float64) :
  List.length (bfill s) = List.length s.
Proof.
  induction s as [|x s IH]; simpl; [reflexivity|].
  destruct (isna x); simpl; now rewrite IH.
Qed.

Lemma bfill_nth (s : list float64) (i : nat) (x : float64) :
  List.nth_error s i = Some x -> isna x = false ->
  List.nth_error (bfill s) i = Some x.
Proof.
  revert i. induction s as [|y s IH]; intros [|i]; simpl; try discriminate.
  - intros [= ->] Hx. now rewrite Hx.
  - intros Hi Hx. destruct (isna y); simpl; now apply IH.
Qed.

Lemma bfill_in (s : list float64) (x : float64) :
  List.In x (bfill s) -> List.In x s.
Proof.
  induction s as [|y s IH]; simpl; [tauto|].
  destruct (isna y) eqn:E; simpl; intros [<-|H]; auto.
  destruct (bfill s) as [|z t] eqn:B; simpl.
  - left. now apply isna_NaN.
  - right. apply IH. now left.
Qed.

Lemma bfill_valid (u : list float64) :
  existsb isna u = false -> bfill u = u.
Proof.
  induction u as [|x u IH]; simpl; [reflexivity|].
  intros H. apply orb_false_iff in H. destruct H as [Hx Hu].
  rewrite Hx. f_equal. now apply IH.
Qed.

Lemma bfill_after_gap (k : nat) (u : list float64) :
  bfill (List.repeat NaN k ++ u)
  = List.repeat (List.hd NaN (bfill u)) k ++ bfill u.
Proof.
  induction k as [|k IH]; simpl; [reflexivity|].
  rewrite IH. f_equal. destruct k; reflexivity.
Qed.

Lemma not_special_is_Fin (x : float64) :
  isinf x = false -> isna x = false -> exists q, x = Fin q.
Proof. destruct x; simpl; try discriminate. now exists q. Qed.

Lemma existsb_false_in {A : Type} (f : A -> bool) (l : list A) (x : A) :
  existsb f l = false -> List.In x l -> f x = false.
Proof.
  intros H Hx. destruct (f x) eqn:E; [|reflexivity].
  assert (Ht : existsb f l = true) by (apply List.existsb_exists; eauto).
  congruence.
Qed.

Lemma fix_column_length (s : list float64) :
  List.length (fix_column s) = List.length s.
Proof.
  unfold fix_column. destruct (_ || _); [|reflexivity].
  unfold ffill. now rewrite bfill_length, ffill_from_length, List.length_map.
Qed.

(** A repaired column holds numbers only, or nothing at all. *)
Lemma fix_column_shape (s : list float64) :
  (forall x, List.In x (fix_column s) -> exists q, x = Fin q)
  \/ (forall x, List.In x (fix_column s) -> x = NaN).
Proof.
  unfold fix_column. destruct (existsb isinf s || existsb isna s) eqn:E.
  - set (s' := List.map replace_inf s).
    assert (Hs' : forall x, List.In x s' -> isna x = false ->
                            exists q, x = Fin q).
    { intros x Hx Hn. apply List.in_map_iff in Hx.
      destruct Hx as (y & <- & _). destruct y; simpl in *; try discriminate.
      now exists q. }
    destruct (ffill_shape s') as (k & u & Ek & Hu & Hall).
    rewrite Ek, bfill_after_gap, (bfill_valid u Hu).
    assert (Hin : forall x, List.In x u -> exists q, x = Fin q).
    { intros x Hx. pose proof (existsb_false_in _ _ _ Hu Hx) as Hn.
      assert (Hx' : List.In x (ffill s'))
        by (rewrite Ek; apply List.in_or_app; now right).
      apply ffill_from_in in Hx'. destruct Hx' as [->|Hx']; [discriminate|].
      now apply Hs'. }
    destruct u as [|y u].
    + right. intros x Hx. rewrite List.app_nil_r in Hx.
      now apply List.repeat_spec in Hx.
    + left. intros x Hx. apply List.in_app_or in Hx.
      destruct Hx as [Hx|Hx]; [|now apply Hin].
      apply List.repeat_spec in Hx. subst x. apply Hin. now left.
  - left. apply orb_false_iff in E. destruct E as [Ei En].
    intros x Hx. apply not_special_is_Fin; eapply existsb_false_in; eassumption.
Qed.

(** A repair leaves every number where it was. *)
Lemma fix_column_nth (s : list float64) (i : nat) (q : Q) :
  List.nth_error s i = Some (Fin q) ->
  List.nth_error (fix_column s) i = Some (Fin q).
Proof.
  intros H. unfold fix_column. destruct (_ || _); [|exact H].
  apply bfill_nth; [|reflexivity]. apply ffill_from_nth; [|reflexivity].
  rewrite List.nth_error_map, H. reflexivity.
Qed.

Lemma fix_column_id (s : list float64) :
  (forall x, List.In x s -> exists q, x = Fin q) -> fix_column s = s.
Proof.
  intros H. unfold fix_column.
  assert (Ei : existsb isinf s = false).
  { destruct (existsb isinf s) eqn:E; [|reflexivity].
    apply List.existsb_exists in E. destruct E as (x & Hx & Hi).
    destruct (H x Hx) as [q ->]. discriminate. }
  assert (En : existsb isna s = false).
  { destruct (existsb isna s) eqn:E; [|reflexivity].
    apply List.existsb_exists in E. destruct E as (x & Hx & Hi).
    destruct (H x Hx) as [q ->]. discriminate. }
  now rewrite Ei, En.
Qed.

(** ** The last check before a chart *)

Lemma assign_length (c : NumCol) (vs : list float64) (l : list Row) :
  List.length vs = List.length l ->
  List.length (assign c vs l) = List.length l.
Proof.
  intros H. unfold assign. rewrite List.length_map, List.length_combine. lia.
Qed.

Lemma assign_column (c c' : NumCol) (vs : list float64) (l : list Row) :
  List.length vs = List.length l ->
  List.map (get_col c') (assign c vs l)
  = if NumCol_eq_dec c c' then vs else List.map (get_col c') l.
Proof.
  unfold assign. revert l.
  induction vs as [|v vs IH]; intros [|r l]; simpl; try discriminate.
  - now destruct (NumCol_eq_dec c c').
  - intros [= H]. rewrite (IH l H).
    destruct (NumCol_eq_dec c c') as [<-|Hne].
    + now rewrite get_set_same.
    + now rewrite get_set_other.
Qed.

Lemma assign_dates (c : NumCol) (vs : list float64) (l : list Row) :
  List.length vs = List.length l ->
  List.map Date (assign c vs l) = List.map Date l.
Proof.
  unfold assign. revert l.
  induction vs as [|v vs IH]; intros [|r l]; simpl; try discriminate;
    [reflexivity|].
  intros [= H]. now rewrite (IH l H), date_set_col.
Qed.

Lemma set_col_get_col (c : NumCol) (r : Row) : set_col c (get_col c r) r = r.
Proof. now destruct c, r. Qed.

Lemma assign_id (c : NumCol) (l : list Row) :
  assign c (List.map (get_col c) l) l = l.
Proof.
  unfold assign. induction l as [|r l IH]; simpl; [reflexivity|].
  now rewrite set_col_get_col, IH.
Qed.

Lemma repair_column_length (c : NumCol) (l : list Row) :
  List.length (repair_column c l) = List.length l.
Proof.
  apply assign_length. now rewrite fix_column_length, List.length_map.
Qed.

Lemma repair_column_dates (c : NumCol) (l : list Row) :
  List.map Date (repair_column c l) = List.map Date l.
Proof.
  apply assign_dates. now rewrite fix_column_length, List.length_map.
Qed.

Lemma repair_column_same (c : NumCol) (l : list Row) :
  List.map (get_col c) (repair_column c l)
  = fix_column (List.map (get_col c) l).
Proof.
  unfold repair_column. rewrite assign_column
    by now rewrite fix_column_length, List.length_map.
  destruct (NumCol_eq_dec c c); [reflexivity|contradiction].
Qed.

Lemma repair_column_other (c c' : NumCol) (l : list Row) :
  c <> c' ->
  List.map (get_col c') (repair_column c l) = List.map (get_col c') l.
Proof.
  intros Hne. unfold repair_column. rewrite assign_column
    by now rewrite fix_column_length, List.length_map.
  destruct (NumCol_eq_dec c c'); [contradiction|reflexivity].
Qed.

Lemma numeric_names_present (cols : list string) :
  List.filter (fun n => negb (has_column n cols)) numeric_names = [] ->
  forall c, has_column (col_name c) cols = true.
Proof.
  unfold numeric_names. simpl.
  destruct (has_column "Open" cols) eqn:E1; simpl; [|discriminate].
  destruct (has_column "High" cols) eqn:E2; simpl; [|discriminate].
  destruct (has_column "Low" cols) eqn:E3; simpl; [|discriminate].
  destruct (has_column "Close" cols) eqn:E4; simpl; [|discriminate].
  destruct (has_column "Volume" cols) eqn:E5; simpl; [|discriminate].
  intros _ []; assumption.
Qed.

(** With the five columns there, the loop repairs each of them on its own
    and touches nothing else. *)
Lemma repaired_columns (df : DataFrame) :
  (forall c, has_column (col_name c) (columns df) = true) ->
  let repaired :=
    List.fold_left
      (fun acc c =>
         if has_column (col_name c) (columns df)
         then repair_column c acc
         else acc)
      numeric_cols (rows df) in
  List.length repaired = List.length (rows df)
  /\ List.map Date repaired = List.map Date (rows df)
  /\ forall c, List.map (get_col c) repaired
               = fix_column (List.map (get_col c) (rows df)).
Proof.
  intros Hcols. unfold numeric_cols. cbn [List.fold_left].
  rewrite (Hcols ColOpen), (Hcols ColHigh), (Hcols ColLow),
    (Hcols ColClose), (Hcols ColVolume).
  split; [|split].
  - now rewrite !repair_column_length.
  - now rewrite !repair_column_dates.
  - intros c.
    destruct c;
      repeat first
        [ rewrite repair_column_other by discriminate
        | rewrite repair_column_same ];
      reflexivity.
Qed.

Lemma numeric_has_na_get (r : Row) :
  numeric_has_na r = true <-> exists c, get_col c r = NaN.
Proof.
  unfold numeric_has_na. split.
  - intros H. repeat (apply orb_true_iff in H; destruct H as [H|H]);
      apply isna_NaN in H;
      [exists ColOpen|exists ColHigh|exists ColLow|exists ColClose
      |exists ColVolume]; exact H.
  - intros [c H]. destruct c; simpl in H; rewrite H; simpl;
      repeat rewrite orb_true_r; reflexivity.
Qed.

(** X6: [validate_data_for_charts] keeps all the rows or none.  No
    returned row has a missing or infinite cell in the five numeric columns.
    Unless no row at all is returned, as many rows come back as were given,
    with the same dates in the same order, and every cell that held a number
    still holds that number: only infinite and missing cells are filled. *)
Theorem chart_validation_keeps_all_or_none (df out : DataFrame) :
  validate_data_for_charts df = Ok out ->
  columns out = columns df
  /\ List.Forall (fun r => forall c, exists q, get_col c r = Fin q) (rows out)
  /\ (rows out = []
      \/ (List.length (rows out) = List.length (rows df)
          /\ List.map Date (rows out) = List.map Date (rows df)
          /\ forall i r r' c q,
               List.nth_error (rows df) i = Some r ->
               List.nth_error (rows out) i = Some r' ->
               get_col c r = Fin q -> get_col c r' = Fin q)).
Proof.
  unfold validate_data_for_charts.
  destruct (List.filter _ numeric_names) eqn:Hmiss; [|discriminate].
  pose proof (numeric_names_present _ Hmiss) as Hcols.
  destruct (repaired_columns df Hcols) as (Hlen & Hdates & Hcol).
  set (repaired := List.fold_left _ numeric_cols (rows df)) in *.
  intros [= <-]. cbn [columns rows]. split; [reflexivity|].
  assert (Hcases :
    (forall r, List.In r repaired -> forall c, exists q, get_col c r = Fin q)
    \/ (forall r, List.In r repaired -> numeric_has_na r = true)).
  { assert (Hone : forall c,
              (forall r, List.In r repaired -> exists q, get_col c r = Fin q)
              \/ (forall r, List.In r repaired -> get_col c r = NaN)).
    { intros c.
      destruct (fix_column_shape (List.map (get_col c) (rows df))) as [H|H];
        [left|right]; intros r Hr; apply H; rewrite <- Hcol;
        now apply List.in_map. }
    destruct (Hone ColOpen) as [Ho|Ho];
      [|right; intros r Hr; apply numeric_has_na_get; eauto].
    destruct (Hone ColHigh) as [Hh|Hh];
      [|right; intros r Hr; apply numeric_has_na_get; eauto].
    destruct (Hone ColLow) as [Hl|Hl];
      [|right; intros r Hr; apply numeric_has_na_get; eauto].
    destruct (Hone ColClose) as [Hc|Hc];
      [|right; intros r Hr; apply numeric_has_na_get; eauto].
    destruct (Hone ColVolume) as [Hv|Hv];
      [|right; intros r Hr; apply numeric_has_na_get; eauto].
    left. intros r Hr []; auto. }
  destruct Hcases as [Hfin|Hnan].
  - assert (Hkeep : List.filter (fun r => negb (numeric_has_na r)) repaired
                    = repaired).
    { apply filter_all. intros r Hr. apply negb_true_iff.
      destruct (numeric_has_na r) eqn:E; [|reflexivity].
      apply numeric_has_na_get in E. destruct E as [c E].
      destruct (Hfin r Hr c) as [q Hq]. congruence. }
    rewrite Hkeep. split; [now apply List.Forall_forall|]. right.
    split; [assumption|]. split; [assumption|].
    intros i r r' c q Hr Hr' Hq.
    assert (H1 : List.nth_error (List.map (get_col c) (rows df)) i
                 = Some (Fin q))
      by (rewrite List.nth_error_map, Hr; simpl; now rewrite Hq).
    apply fix_column_nth in H1. rewrite <- Hcol in H1.
    rewrite List.nth_error_map, Hr' in H1. now injection H1.
  - assert (Hdrop : List.filter (fun r => negb (numeric_has_na r)) repaired
                    = []).
    { apply filter_none. intros r Hr. now rewrite (Hnan r Hr). }
    rewrite Hdrop. split; [constructor|now left].
Qed.

(** A frame with a gap in Open and an infinite High. *)
Lemma chart_validation_keeps_all_or_none_witness :
  exists out,
    validate_data_for_charts
      (mkFrame required_columns
         [rowQ 1 10 12 9 11 100;
          mkRow (Some 2%Z) NaN PosInf (Fin 10) (Fin 12) (Fin 100);
          rowQ 3 12 14 11 13 100])
    = Ok out
    /\ columns out = required_columns
    /\ List.map Open (rows out) = [Fin 10; Fin 10; Fin 12]
    /\ List.map High (rows out) = [Fin 12; Fin 12; Fin 14].
Proof.
  eexists.
  assert (H : validate_data_for_charts
                (mkFrame required_columns
                   [rowQ 1 10 12 9 11 100;
                    mkRow (Some 2%Z) NaN PosInf (Fin 10) (Fin 12) (Fin 100);
                    rowQ 3 12 14 11 13 100]) = Ok _)
    by (vm_compute; reflexivity).
  split; [exact H|].
  destruct (chart_validation_keeps_all_or_none _ _ H) as (Hc & _).
  split; [exact Hc|]. split; vm_compute; reflexivity.
Defined.

(** X7: a series that [process_uploaded_data] returned comes back from
    [validate_data_for_charts] as it is: same columns, same rows, same
    values. *)
Theorem chart_validation_of_a_cleaned_series
  (P : Text.DateParser) (raw : RawFrame) (market_type : string)
  (df : DataFrame) :
  process_uploaded_data P raw market_type = Ok df ->
  validate_data_for_charts df = Ok df.
Proof.
  unfold process_uploaded_data.
  destruct (read_format P market_type _) as [df1|e]; simpl; [|discriminate].
  destruct (_final_data_cleaning df1) as [df2|e] eqn:Hc; simpl;
    [|discriminate].
  destruct (empty df2); [discriminate|]. intros [= <-].
  apply final_cleaning_rows in Hc. subst df2.
  pose proof (cap_outliers_sane _ (validated_rows_sane df1)) as Hs.
  set (l := cap_outliers (validated_rows df1)) in *.
  rewrite List.Forall_forall in Hs.
  assert (Hfix : forall c, repair_column c l = l).
  { intros c. unfold repair_column. rewrite fix_column_id; [apply assign_id|].
    intros x Hx. apply List.in_map_iff in Hx. destruct Hx as (r & <- & Hr).
    destruct (Hs r Hr) as [_ Hcol]. destruct (Hcol c) as (q & Hq & _).
    now exists q. }
  unfold validate_data_for_charts. cbn [columns rows].
  change (List.filter _ numeric_names) with (@nil string).
  unfold numeric_cols. cbn [List.fold_left].
  change (has_column (col_name ColOpen) required_columns) with true.
  change (has_column (col_name ColHigh) required_columns) with true.
  change (has_column (col_name ColLow) required_columns) with true.
  change (has_column (col_name ColClose) required_columns) with true.
  change (has_column (col_name ColVolume) required_columns) with true.
  cbv iota. rewrite !Hfix. f_equal. f_equal.
  apply filter_all. intros r Hr. apply negb_true_iff.
  destruct (numeric_has_na r) eqn:E; [|reflexivity].
  apply numeric_has_na_get in E. destruct E as [c E].
  destruct (Hs r Hr) as [_ Hcol]. destruct (Hcol c) as (q & Hq & _).
  congruence.
Qed.

Lemma chart_validation_of_a_cleaned_series_witness :
  validate_data_for_charts indian_sample_cleaned = Ok indian_sample_cleaned.
Proof.
  apply (chart_validation_of_a_cleaned_series iso_only indian_sample
           "Indian Market").
  vm_compute. reflexivity.
Defined.

(** ** The alternative column names of the Indian reader *)







(** ** What the Indian loader returns *)

Lemma replace_inf_not_na (x : float64) :
  isna (replace_inf x) = false -> exists q, x = Fin q.
Proof. destruct x; simpl; try discriminate. now exists q. Qed.

(** A row that survives [replace([inf, -inf], nan).dropna()] has a date and
    five numbers. *)
Lemma complete_after_replace (r : Row) :
  row_has_na (replace_inf_row r) = false ->
  (exists d, Date r = Some d) /\ forall c, exists q, get_col c r = Fin q.
Proof.
  unfold row_has_na, replace_inf_row. simpl. intros H.
  repeat (apply orb_false_iff in H; destruct H as [H ?]).
  split; [destruct (Date r) as [d|]; [now exists d|discriminate]|].
  intros []; simpl; now apply replace_inf_not_na.
Qed.

Lemma date_leb_trans (a b c : Row) :
  date_leb a b = true -> date_leb b c = true -> date_leb a c = true.
Proof.
  unfold date_leb. destruct (Date a), (Date b), (Date c); try easy.
  rewrite !Z.leb_le. lia.
Qed.

Lemma StronglySorted_filter {A : Type} (R : A -> A -> Prop) (f : A -> bool)
  (l : list A) :
  StronglySorted R l -> StronglySorted R (List.filter f l).
Proof.
  induction 1 as [|x l Hs IH Hall]; simpl; [constructor|].
  destruct (f x); [|assumption]. constructor; [assumption|].
  rewrite List.Forall_forall in *. intros y Hy.
  apply List.filter_In in Hy. now apply Hall.
Qed.

Lemma StronglySorted_map {A B : Type} (R : B -> B -> Prop) (g : A -> B)
  (l : list A) :
  StronglySorted (fun x y => R (g x) (g y)) l ->
  StronglySorted R (List.map g l).
Proof.
  induction 1 as [|x l Hs IH Hall]; simpl; constructor; [assumption|].
  rewrite List.Forall_forall in *. intros y Hy.
  apply List.in_map_iff in Hy. destruct Hy as (z & <- & Hz). now apply Hall.
Qed.

Lemma dates_ascending_of_sorted (l : list Row) :
  List.Forall (fun r => exists d, Date r = Some d) l ->
  StronglySorted (fun a b => date_leb a b = true) l -> dates_ascending l.
Proof.
  unfold dates_ascending. intros Hall Hs. apply StronglySorted_Sorted in Hs.
  induction Hs as [|r l Hs IH Hhd]; simpl; [constructor|].
  inversion Hall as [|? ? Hr Hl]; subst.
  constructor; [now apply IH|].
  destruct Hhd as [|r' l' Hrr']; simpl; constructor.
  inversion Hl as [|? ? Hr' _]; subst.
  destruct Hr as [d Ed], Hr' as [d' Ed'].
  unfold date_leb in Hrr'. rewrite Ed, Ed' in *. simpl.
  now apply Z.leb_le.
Qed.

(** X9: a frame returned by [load_indian_csv] has exactly the six columns
    and at least one row; every row has a date and five finite numbers; the
    dates are ascending.  Whatever goes wrong inside arrives as an
    [Exception] whose text starts with the loader's prefix. *)
Theorem indian_loader_result (P : Text.DateParser) (df : RawFrame) :
  (forall out,
     IndianDataLoader.load_indian_csv P df = Ok out ->
     columns out = required_columns
     /\ rows out <> []
     /\ List.Forall
          (fun r => (exists d, Date r = Some d)
                    /\ forall c, exists q, get_col c r = Fin q) (rows out)
     /\ dates_ascending (rows out))
  /\ (forall e,
        IndianDataLoader.load_indian_csv P df = Raise e ->
        exists m,
          e = Exception ("Error processing Indian CSV file: " ++ m)%string).
Proof.
  unfold IndianDataLoader.load_indian_csv. split.
  - intros out.
    destruct (IndianDataLoader.load_indian_csv_body P df) as [d|e] eqn:Hb;
      [|discriminate].
    intros [= ->]. unfold IndianDataLoader.load_indian_csv_body in Hb.
    destruct (List.filter _ (List.map fst IndianDataLoader.column_mapping));
      [|discriminate].
    destruct (existsb _ required_columns); [discriminate|].
    destruct (IndianDataLoader.load_dates P _) as [dates|e]; [|discriminate].
    cbn [bind] in Hb. cbv zeta in Hb.
    set (typed := List.map _ (List.combine dates (raw_rows df))) in Hb.
    set (sorted := sort_by (fun a b => date_leb (fst a) (fst b)) typed) in Hb.
    set (complete := List.filter _ sorted) in Hb.
    set (finite := List.filter _ complete) in Hb.
    destruct finite as [|x fin] eqn:Hfin; [discriminate|].
    injection Hb as <-. cbn [columns rows].
    split; [reflexivity|]. split; [discriminate|].
    assert (Hin : forall rm, List.In rm (x :: fin) ->
              row_has_na (replace_inf_row (fst rm)) = false).
    { intros rm Hrm. rewrite <- Hfin in Hrm. unfold finite in Hrm.
      apply List.filter_In in Hrm. destruct Hrm as [_ Hrm].
      apply andb_true_iff in Hrm. destruct Hrm as [Hrm _].
      now apply negb_true_iff. }
    assert (Hall : List.Forall
              (fun r => (exists d, Date r = Some d)
                        /\ forall c, exists q, get_col c r = Fin q)
              (List.map fst (x :: fin))).
    { apply List.Forall_forall. intros r Hr.
      apply List.in_map_iff in Hr. destruct Hr as (rm & <- & Hrm).
      apply complete_after_replace. now apply Hin. }
    split; [exact Hall|].
    apply dates_ascending_of_sorted.
    + eapply List.Forall_impl; [|exact Hall]. now intros r [Hd _].
    + change (StronglySorted (fun a b => date_leb a b = true)
                (List.map fst (x :: fin))).
      apply StronglySorted_map. rewrite <- Hfin. unfold finite, complete.
      do 2 apply StronglySorted_filter.
      apply Sorted_StronglySorted.
      * intros a b c. apply date_leb_trans.
      * apply (sort_by_sorted (fun a b => date_leb (fst a) (fst b))).
        intros a b. apply date_leb_total.
  - intros e. destruct (IndianDataLoader.load_indian_csv_body P df) as [d|e0];
      [discriminate|].
    intros [= <-]. now exists (IndianDataLoader.error_text e0).
Qed.

(** ** Fetching an Indian ticker *)

Lemma list_ascii_of_string_app (a b : string) :
  list_ascii_of_string (a ++ b)
  = list_ascii_of_string a ++ list_ascii_of_string b.
Proof. induction a as [|c a IH]; simpl; [reflexivity|now rewrite IH]. Qed.

Lemma starts_with_chars_app (p s : list ascii) :
  Text.starts_with_chars p (p ++ s) = true.
Proof.
  induction p as [|c p IH]; simpl; [reflexivity|].
  now rewrite Ascii.eqb_refl.
Qed.

Lemma endswith_app (s suffix : string) :
  Text.endswith (s ++ suffix) suffix = true.
Proof.
  unfold Text.endswith.
  rewrite list_ascii_of_string_app, List.rev_app_distr.
  apply starts_with_chars_app.
Qed.

Section TickerProperties.
Context {Info : Type} (yf : IndianDataLoader.Yahoo Info).

Lemma clean_history_result (t : string) (hist : list Row) (df : DataFrame)
  (i : Info) (t' : string) :
  IndianDataLoader.reraise t (IndianDataLoader.clean_history yf t hist)
  = Ok (df, i, t') ->
  t' = t /\ IndianDataLoader.info yf t = Ok i
  /\ columns df = required_columns /\ rows df <> []
  /\ List.Forall
       (fun r => (exists d, Date r = Some d)
                 /\ forall c, exists q, get_col c r = Fin q) (rows df).
Proof.
  unfold IndianDataLoader.reraise, IndianDataLoader.clean_history.
  destruct hist as [|r0 hist]; [discriminate|].
  destruct (dropna (List.map replace_inf_row (r0 :: hist))) as [|r l] eqn:E;
    [discriminate|].
  destruct (IndianDataLoader.info yf t) as [i0|e]; [|discriminate].
  cbn [bind]. intros [= <- <- <-]. cbn [columns rows].
  repeat split; try reflexivity; try discriminate.
  apply List.Forall_forall. intros x Hx. rewrite <- E in Hx.
  unfold dropna in Hx. apply List.filter_In in Hx. destruct Hx as [Hx Hna].
  apply List.in_map_iff in Hx. destruct Hx as (y & <- & _).
  apply negb_true_iff in Hna.
  destruct (complete_after_replace y Hna) as [[d Hd] Hc].
  split; [now exists d|].
  intros c. destruct (Hc c) as [q Hq]. exists q.
  destruct c; simpl in *; now rewrite Hq.
Qed.

Lemma reraise_error {A : Type} (t : string) (r : result A) (e : error) :
  IndianDataLoader.reraise t r = Raise e ->
  exists m,
    e = Exception
          ("Error fetching Indian stock data for " ++ t ++ ": " ++ m)%string.
Proof.
  destruct r as [a|e0]; [discriminate|]. intros [= <-].
  now exists (IndianDataLoader.error_text e0).
Qed.

(** X10: when [load_indian_ticker] succeeds, the ticker it reports ends in
    [.NS] or [.BO] and is the one given or the one given with one of the two
    suffixes, the BSE suffix only when the NSE history came back empty; the
    company record is the one of the reported ticker; the frame has the six
    columns, at least one row, and a date and five finite numbers in every
    row.  A failure arrives as an [Exception] that names the ticker in use
    at that moment. *)
Theorem indian_ticker_result (ticker period : string) :
  (forall df i t,
     IndianDataLoader.load_indian_ticker yf ticker period = Ok (df, i, t) ->
     (Text.endswith t ".NS" = true \/ Text.endswith t ".BO" = true)
     /\ (t = ticker \/ t = (ticker ++ ".NS")%string
         \/ (t = (ticker ++ ".BO")%string
             /\ IndianDataLoader.history yf (ticker ++ ".NS") period = Ok []))
     /\ IndianDataLoader.info yf t = Ok i
     /\ columns df = required_columns /\ rows df <> []
     /\ List.Forall
          (fun r => (exists d, Date r = Some d)
                    /\ forall c, exists q, get_col c r = Fin q) (rows df))
  /\ (forall e,
        IndianDataLoader.load_indian_ticker yf ticker period = Raise e ->
        exists t m,
          e = Exception
                ("Error fetching Indian stock data for " ++ t ++ ": " ++ m)
                %string
          /\ (t = ticker \/ t = (ticker ++ ".NS")%string
              \/ t = (ticker ++ ".BO")%string)).
Proof.
  unfold IndianDataLoader.load_indian_ticker. split.
  - intros df i t.
    destruct (Text.endswith ticker ".NS") eqn:Ens; cbn [negb andb].
    { destruct (IndianDataLoader.history yf ticker period) as [hist|e];
        [|discriminate].
      intros H. apply clean_history_result in H.
      destruct H as (-> & Hi & Hrest). auto. }
    destruct (Text.endswith ticker ".BO") eqn:Ebo; cbn [negb].
    { destruct (IndianDataLoader.history yf ticker period) as [hist|e];
        [|discriminate].
      intros H. apply clean_history_result in H.
      destruct H as (-> & Hi & Hrest). auto. }
    destruct (IndianDataLoader.history yf (ticker ++ ".NS") period)
      as [[|r hist]|e] eqn:Hn; [| |discriminate].
    + destruct (IndianDataLoader.history yf (ticker ++ ".BO") period)
        as [hist|e]; [|discriminate].
      intros H. apply clean_history_result in H.
      destruct H as (-> & Hi & Hrest).
      split; [right; apply endswith_app|]. auto.
    + intros H. apply clean_history_result in H.
      destruct H as (-> & Hi & Hrest).
      split; [left; apply endswith_app|]. auto.
  - intros e.
    destruct (negb (Text.endswith ticker ".NS")
              && negb (Text.endswith ticker ".BO")).
    + destruct (IndianDataLoader.history yf (ticker ++ ".NS") period)
        as [[|r hist]|e0].
      * destruct (IndianDataLoader.history yf (ticker ++ ".BO") period)
          as [hist|e1].
        -- intros H. apply reraise_error in H. destruct H as [m ->].
           exists (ticker ++ ".BO")%string, m. auto.
        -- intros [= <-]. exists ticker, (IndianDataLoader.error_text e1).
           auto.
      * intros H. apply reraise_error in H. destruct H as [m ->].
        exists (ticker ++ ".NS")%string, m. auto.
      * intros [= <-]. exists ticker, (IndianDataLoader.error_text e0). auto.
    + destruct (IndianDataLoader.history yf ticker period) as [hist|e0].
      * intros H. apply reraise_error in H. destruct H as [m ->].
        exists ticker, m. auto.
      * intros [= <-]. exists ticker, (IndianDataLoader.error_text e0). auto.
Qed.

End TickerProperties.

(** * Further properties of the analysis *)

(** ** The guards of [analyze_stock] *)

(** X11: [analyze_stock] returns at once, without a result, when the frame
    has no row or no column, or when one of the six required columns is
    missing: nothing is appended to the instance, no frame is created and
    none is changed. *)
Theorem analyze_stock_guards
  (ta : TaLib) (df : nat) (f : Frame) (w : World) :
  heap w !! df = Some f ->
  nrows f = 0%nat \/ size (data f) = 0%nat
  \/ (exists c, List.In c required_cols /\ data f !! c = None) ->
  analyze_stock ta df w = (Ok None, w).
Proof.
  intros Hf Hcase. unfold analyze_stock.
  rewrite (mbind_ok _ _ _ _ _ (is_empty_ok df f w Hf)).
  destruct ((nrows f =? 0)%nat || (size (data f) =? 0)%nat) eqn:E;
    [reflexivity|].
  apply orb_false_iff in E. destruct E as [E1 E2].
  apply Nat.eqb_neq in E1, E2.
  destruct Hcase as [H|[H|(c & Hc & Hnone)]]; try contradiction.
  rewrite (mbind_ok _ _ _ _ _ (read_frame_ok df f w Hf)).
  destruct (List.filter _ required_cols) as [|x l] eqn:Hfil; [|reflexivity].
  assert (Hin : List.In c (List.filter
            (fun c => match data f !! c with Some _ => false | None => true end)
            required_cols))
    by (apply List.filter_In; split; [assumption|now rewrite Hnone]).
  rewrite Hfil in Hin. contradiction.
Qed.

Lemma analyze_stock_guards_witness :
  analyze_stock partial_ta 0
    (world_of (frame_of 3 [("Close", fins [11; 12; 13])]%string))
  = (Ok None, world_of (frame_of 3 [("Close", fins [11; 12; 13])]%string)).
Proof.
  apply (analyze_stock_guards partial_ta 0
           (frame_of 3 [("Close", fins [11; 12; 13])]%string)).
  - apply lookup_singleton_eq.
  - right. right. exists "Date"%string. split; [now left|].
    vm_compute. reflexivity.
Defined.

(** ** Reading does not write *)

Lemma reads_ret {A : Type} (a : A) : reads (ret a).
Proof. intros w. reflexivity. Qed.

Lemma reads_raise {A : Type} (e : error) : reads (@raise A e).
Proof. intros w. reflexivity. Qed.

Lemma reads_of_option {A : Type} (e : error) (o : option A) :
  reads (of_option e o).
Proof. destruct o; [apply reads_ret|apply reads_raise]. Qed.

Lemma reads_bind {A B : Type} (m : M A) (k : A -> M B) :
  reads m -> (forall a, reads (k a)) -> reads (mbind m k).
Proof.
  intros Hm Hk w. unfold mbind. specialize (Hm w).
  destruct (m w) as [[a|e] w']; simpl in *; subst; [apply Hk|reflexivity].
Qed.

Lemma reads_read_frame (df : nat) : reads (read_frame df).
Proof. intros w. unfold read_frame. apply reads_of_option. Qed.

Lemma reads_get_column (df : nat) (col : string) : reads (get_column df col).
Proof.
  apply reads_bind; [apply reads_read_frame|]. intros f. apply reads_of_option.
Qed.

Lemma reads_last_value (df : nat) (col : string) (k : nat) :
  reads (last_value df col k).
Proof.
  apply reads_bind; [apply reads_get_column|]. intros s. apply reads_of_option.
Qed.

Lemma reads_len (df : nat) : reads (len df).
Proof.
  apply reads_bind; [apply reads_read_frame|]. intros f. apply reads_ret.
Qed.

Lemma reads_has_col (df : nat) (col : string) : reads (has_col df col).
Proof.
  apply reads_bind; [apply reads_read_frame|]. intros f. apply reads_ret.
Qed.

Lemma reads_is_empty (df : nat) : reads (is_empty df).
Proof.
  apply reads_bind; [apply reads_read_frame|]. intros f. apply reads_ret.
Qed.

Lemma keeps_of_reads {A : Type} (m : M A) : reads m -> keeps_signals m.
Proof. intros H w. now rewrite H. Qed.

Lemma keeps_set_column (df : nat) (col : string) (s : list float64) :
  keeps_signals (set_column df col s).
Proof.
  intros w. unfold set_column, mbind, read_frame.
  now destruct (heap w !! df).
Qed.

Lemma keeps_copy (df : nat) : keeps_signals (copy df).
Proof.
  intros w. unfold copy, mbind, read_frame, alloc.
  now destruct (heap w !! df).
Qed.

Lemma keeps_try {A : Type} (m : M A) (h : error -> M A) :
  keeps_signals m -> (forall e, keeps_signals (h e)) ->
  keeps_signals (try_except m h).
Proof.
  intros Hm Hh w. unfold try_except. specialize (Hm w).
  destruct (m w) as [[a|e] w']; simpl in *; [assumption|].
  now rewrite Hh.
Qed.

Create HintDb reads.
#[local] Hint Resolve reads_ret reads_raise reads_of_option reads_read_frame
  reads_get_column reads_last_value reads_len reads_has_col reads_is_empty
  : reads.

Ltac reads_auto :=
  repeat first
    [ progress auto with reads
    | apply reads_bind; [|intros ?]
    | match goal with
      | |- reads (if ?b then _ else _) => destruct b
      end ].

(** Leaves [self.signals] alone: a reader, a write into a frame, an append
    to the summary points, or a sequence of these. *)
Ltac keeps_all :=
  repeat first
    [ apply keeps_of_reads; solve [reads_auto]
    | apply keeps_set_column
    | apply keeps_append_summary
    | apply keeps_copy
    | apply keeps_bind; [|intros ?]
    | progress cbv zeta
    | match goal with
      | |- keeps_signals (if ?b then _ else _) => destruct b
      end ].

(** ** The signals one run can append *)

Lemma emits_of_keeps (n : nat) {A : Type} (m : M A) :
  keeps_signals m -> emits n m.
Proof.
  intros H w. exists []. rewrite List.app_nil_r.
  split; [apply H|]. split; [simpl; lia|constructor].
Qed.

Lemma emits_weaken (n k : nat) {A : Type} (m : M A) :
  (n <= k)%nat -> emits n m -> emits k m.
Proof.
  intros Hnk H w. destruct (H w) as (l & E & Hl & Hv).
  exists l. split; [assumption|]. split; [lia|assumption].
Qed.

Lemma emits_bind (n k : nat) {A B : Type} (m : M A) (f : A -> M B) :
  emits n m -> (forall a, emits k (f a)) -> emits (n + k) (mbind m f).
Proof.
  intros Hm Hf w. unfold mbind. destruct (Hm w) as (l & E & Hl & Hv).
  destruct (m w) as [[a|e] w']; simpl in *.
  - destruct (Hf a w') as (l' & E' & Hl' & Hv').
    exists (l ++ l'). rewrite E', E, List.app_assoc.
    split; [reflexivity|]. split; [rewrite List.length_app; lia|].
    apply List.Forall_app. now split.
  - exists l. split; [assumption|]. split; [lia|assumption].
Qed.

Lemma emits_after {A B : Type} (n : nat) (m : M A) (f : A -> M B) :
  keeps_signals m -> (forall a, emits n (f a)) -> emits n (mbind m f).
Proof.
  intros Hm Hf. apply (emits_bind 0 n); [now apply emits_of_keeps|assumption].
Qed.

Lemma emits_before {A B : Type} (n : nat) (m : M A) (f : A -> M B) :
  emits n m -> (forall a, keeps_signals (f a)) -> emits n (mbind m f).
Proof.
  intros Hm Hf. apply (emits_weaken (n + 0)); [lia|].
  apply emits_bind; [assumption|]. intros a. now apply emits_of_keeps.
Qed.

Lemma emits_signal (n : nat) (s : string) :
  List.In s signal_vocabulary -> emits (S n) (append_signal s).
Proof.
  intros Hs w. exists [s]. split; [reflexivity|].
  split; [simpl; lia|]. constructor; [assumption|constructor].
Qed.

(** One rule: reads, then one of its branches, each appending at most one
    signal followed by summary points. *)
Ltac emits_rule :=
  repeat first
    [ apply emits_signal; in_written
    | apply emits_before; [apply emits_signal; in_written
                          |intros ?; solve [keeps_all]]
    | apply emits_after; [solve [keeps_all]|intros ?]
    | apply emits_of_keeps; solve [keeps_all]
    | progress cbv zeta
    | match goal with
      | |- emits _ (if ?b then _ else _) => destruct b
      end ].

Lemma emits_cross_analysis (df : nat) : emits 1 (_cross_analysis df).
Proof.
  unfold _cross_analysis. apply emits_after; [solve [keeps_all]|intros n].
  apply emits_before; [|intros ?; solve [keeps_all]].
  unfold cross_signal. emits_rule.
Qed.

Lemma emits_rsi_analysis (df : nat) : emits 1 (_rsi_analysis df).
Proof. unfold _rsi_analysis. emits_rule. Qed.

Lemma emits_macd_analysis (df : nat) : emits 1 (_macd_analysis df).
Proof. unfold _macd_analysis. emits_rule. Qed.

Lemma emits_stochastic_analysis (df : nat) :
  emits 1 (_stochastic_analysis df).
Proof. unfold _stochastic_analysis. emits_rule. Qed.

Lemma emits_bollinger_bands_analysis (df : nat) :
  emits 1 (_bollinger_bands_analysis df).
Proof. unfold _bollinger_bands_analysis. emits_rule. Qed.

Lemma emits_obv_analysis (df : nat) : emits 1 (_obv_analysis df).
Proof. unfold _obv_analysis. emits_rule. Qed.

Lemma keeps_trend_analysis (df : nat) : keeps_signals (_trend_analysis df).
Proof.
  unfold _trend_analysis, _support_resistance_analysis,
    _fifty_two_week_analysis. keeps_all.
Qed.

Lemma keeps_atr_analysis (df : nat) : keeps_signals (_atr_analysis df).
Proof. unfold _atr_analysis. keeps_all. Qed.

Lemma keeps_volume_chart (df : nat) : keeps_signals (_volume_chart df).
Proof. unfold _volume_chart. keeps_all. Qed.

Lemma keeps_vwap_analysis (df : nat) : keeps_signals (_vwap_analysis df).
Proof. unfold _vwap_analysis. keeps_all. Qed.

Lemma keeps_liquidity_analysis (df : nat) :
  keeps_signals (_liquidity_analysis df).
Proof. unfold _liquidity_analysis. keeps_all. Qed.

Lemma keeps_calculate_all_indicators (ta : TaLib) (df : nat) :
  keeps_signals (_calculate_all_indicators ta df).
Proof.
  unfold _calculate_all_indicators.
  apply keeps_bind; [apply keeps_copy|intros c].
  unfold try_indicators, of_ta.
  apply keeps_try; [|intros e; apply keeps_ret]. keeps_all.
Qed.

Lemma emits_run_tabs (c : nat) : emits 6 (run_tabs c).
Proof.
  unfold run_tabs.
  apply emits_after; [apply keeps_trend_analysis|intros _].
  apply (emits_bind 1 5).
  { unfold _moving_averages_analysis.
    apply emits_after; [solve [keeps_all]|intros _].
    apply emits_after; [solve [keeps_all]|intros _].
    apply emits_after; [solve [keeps_all]|intros _].
    apply emits_after; [solve [keeps_all]|intros _].
    apply emits_cross_analysis. }
  intros _. apply (emits_bind 3 2).
  { unfold _momentum_analysis.
    apply (emits_bind 1 2); [apply emits_rsi_analysis|intros _].
    apply (emits_bind 1 1); [apply emits_macd_analysis|intros _].
    apply emits_stochastic_analysis. }
  intros _. apply (emits_bind 1 1).
  { unfold _volatility_analysis.
    apply emits_before; [apply emits_bollinger_bands_analysis|intros _].
    apply keeps_atr_analysis. }
  intros _. apply (emits_bind 1 0).
  { unfold _volume_analysis.
    apply emits_after; [apply keeps_volume_chart|intros _].
    apply emits_after; [apply keeps_vwap_analysis|intros _].
    apply emits_before; [apply emits_obv_analysis|intros _].
    apply keeps_liquidity_analysis. }
  intros _. apply emits_of_keeps, keeps_signals_and_summary.
Qed.

Lemma emits_analyze_stock (ta : TaLib) (df : nat) :
  emits 6 (analyze_stock ta df).
Proof.
  unfold analyze_stock.
  apply emits_after; [solve [keeps_all]|intros e].
  destruct e; [apply emits_of_keeps, keeps_ret|].
  apply emits_after; [solve [keeps_all]|intros f].
  destruct (List.filter _ required_cols); [|apply emits_of_keeps, keeps_ret].
  apply emits_after; [apply keeps_calculate_all_indicators|intros c].
  apply emits_before; [apply emits_run_tabs|intros r]. apply keeps_ret.
Qed.

Lemma vocabulary_directions (s : string) :
  List.In s signal_vocabulary ->
  String.prefix "SELL" s = negb (String.prefix "BUY" s).
Proof.
  unfold signal_vocabulary. simpl.
  intros H. repeat (destruct H as [<-|H]; [reflexivity|]). contradiction.
Qed.

Lemma filter_partition {A : Type} (p q : A -> bool) (l : list A) :
  (forall x, List.In x l -> q x = negb (p x)) ->
  (List.length (List.filter p l) + List.length (List.filter q l)
   = List.length l)%nat.
Proof.
  induction l as [|x l IH]; simpl; intros H; [reflexivity|].
  rewrite (H x (or_introl eq_refl)).
  assert (IH' := IH (fun y Hy => H y (or_intror Hy))).
  destruct (p x); simpl; lia.
Qed.

(** X12: one run of [analyze_stock] appends at most six signals to the
    instance, whatever the series and the indicator values, and each of them
    is one of the eleven texts of the rules, starting with BUY or with SELL.
    So on a new instance the BUY and SELL lists of the summary together hold
    every signal of the run: none goes uncounted. *)
Theorem run_appends_known_signals
  (ta : TaLib) (df : nat) (w : World) :
  (exists l,
     signals (snd (analyze_stock ta df w)) = signals w ++ l
     /\ (List.length l <= 6)%nat
     /\ List.Forall
          (fun s => List.In s signal_vocabulary
                    /\ (String.prefix "BUY" s = true
                        \/ String.prefix "SELL" s = true)) l)
  /\ (signals w = [] ->
      forall r,
        fst (analyze_stock ta df w) = Ok (Some r) ->
        (List.length (buy_signals r) + List.length (sell_signals r)
         = List.length (signals (snd (analyze_stock ta df w))))%nat
        /\ (List.length (signals (snd (analyze_stock ta df w))) <= 6)%nat).
Proof.
  destruct (emits_analyze_stock ta df w) as (l & E & Hl & Hv).
  split.
  - exists l. split; [assumption|]. split; [assumption|].
    eapply List.Forall_impl; [|exact Hv]. intros s Hs. split; [assumption|].
    pose proof (vocabulary_directions s Hs) as Hd.
    destruct (String.prefix "BUY" s); [now left|right; exact Hd].
  - intros Hw r Hr. rewrite Hw in E. simpl in E.
    destruct (analyze_stock ta df w) as [x w'] eqn:Hrun. simpl in *.
    subst x. apply analyze_stock_result in Hrun. subst r.
    unfold summarize. cbn [buy_signals sell_signals]. rewrite E.
    split; [|assumption]. apply filter_partition.
    rewrite List.Forall_forall in Hv. intros s Hs.
    now apply vocabulary_directions, Hv.
Qed.

(** ** Missing values and the momentum rules *)

Lemma bind_reader {A B : Type} (m : M A) (k : A -> M B) (w : World) :
  reads m ->
  mbind m k w = match fst (m w) with
                | Ok a => k a w
                | Raise e => (Raise e, w)
                end.
Proof.
  intros H. unfold mbind. specialize (H w).
  destruct (m w) as [[a|e] w']; simpl in *; now subst.
Qed.

Lemma flt_of_isna (a b : float64) : isna a || isna b = true -> flt a b = false.
Proof. destruct a, b; simpl; try discriminate; reflexivity. Qed.

Lemma fle_of_isna (a b : float64) : isna a || isna b = true -> fle a b = false.
Proof. destruct a, b; simpl; try discriminate; reflexivity. Qed.

(** One read at the head of the computation: its value is the one a
    hypothesis gives, or any; a read that raises ends the rule. *)
Ltac step_read :=
  match goal with
  | |- context [mbind ?m ?k ?w] =>
      rewrite (bind_reader m k w) by solve [reads_auto]
  end;
  match goal with
  | H : fst ?x = Ok _ |- context [match fst ?x with _ => _ end] => rewrite H
  | |- context [match fst ?x with _ => _ end] =>
      destruct (fst x) as [?|?]; [|reflexivity]
  end;
  cbv beta.

(** X13: a missing last value never triggers a momentum or band signal:
    with a NaN at the end of the RSI column [_rsi_analysis] appends none;
    with a NaN in the last or in the second-to-last pair of MACD and signal
    line [_macd_analysis] appends none; with a NaN at the end of %K or %D
    [_stochastic_analysis] appends none; with a NaN at the end of the lower
    band [_bollinger_bands_analysis] appends none. *)
Theorem missing_values_trigger_no_momentum_signal (df : nat) (w : World) :
  (fst (last_value df "RSI" 1 w) = Ok NaN ->
   signals (snd (_rsi_analysis df w)) = signals w)
  /\ (forall cm cs,
        fst (last_value df "MACD" 1 w) = Ok cm ->
        fst (last_value df "MACD_Signal" 1 w) = Ok cs ->
        isna cm || isna cs = true ->
        signals (snd (_macd_analysis df w)) = signals w)
  /\ (forall pm ps,
        fst (last_value df "MACD" 2 w) = Ok pm ->
        fst (last_value df "MACD_Signal" 2 w) = Ok ps ->
        isna pm || isna ps = true ->
        signals (snd (_macd_analysis df w)) = signals w)
  /\ (forall k d,
        fst (last_value df "Stoch_K" 1 w) = Ok k ->
        fst (last_value df "Stoch_D" 1 w) = Ok d ->
        isna k || isna d = true ->
        signals (snd (_stochastic_analysis df w)) = signals w)
  /\ (fst (last_value df "BB_Lower" 1 w) = Ok NaN ->
      signals (snd (_bollinger_bands_analysis df w)) = signals w).
Proof.
  split; [|split; [|split; [|split]]].
  - intros H. unfold _rsi_analysis. step_read. reflexivity.
  - intros cm cs Hm Hs Hna. unfold _macd_analysis.
    do 6 step_read.
    rewrite (fgt_of_isna _ _ Hna), (flt_of_isna _ _ Hna).
    destruct (1 <? _)%nat; [|reflexivity].
    do 2 step_read. rewrite !andb_false_r. reflexivity.
  - intros pm ps Hm Hs Hna. unfold _macd_analysis.
    do 6 step_read.
    destruct (1 <? _)%nat; [|reflexivity].
    do 2 step_read.
    assert (Hge : fge pm ps = false).
    { unfold fge. apply fle_of_isna. now rewrite orb_comm. }
    rewrite (fle_of_isna _ _ Hna), Hge. reflexivity.
  - intros k d Hk Hd Hna. unfold _stochastic_analysis.
    do 2 step_read.
    assert (H1 : fgt k (Fin 80) && fgt d (Fin 80) = false).
    { destruct k, d; simpl in *; try discriminate; try reflexivity;
        now rewrite ?andb_false_r. }
    assert (H2 : flt k (Fin 20) && flt d (Fin 20) = false).
    { destruct k, d; simpl in *; try discriminate; try reflexivity;
        now rewrite ?andb_false_r. }
    rewrite H1, H2. reflexivity.
  - intros H. unfold _bollinger_bands_analysis.
    do 6 step_read.
    match goal with
    | |- context [fgt ?a ?b] => destruct (fgt a b); [reflexivity|]
    end.
    assert (Hl : forall a, flt a NaN = false) by (now intros []).
    rewrite Hl. reflexivity.
Qed.

(** ** The range and the warm-up of the stochastic oscillator *)

Lemma nth_error_stoch_k (close high low : list float64) (i : nat)
  (c mx mn : float64) :
  List.nth_error close i = Some c ->
  List.nth_error (Series.rolling_max 14 high) i = Some mx ->
  List.nth_error (Series.rolling_min 14 low) i = Some mn ->
  List.nth_error (stoch_k close high low) i
  = Some (fmul (fdiv (fsub c mn) (fsub mx mn)) (Fin 100)).
Proof.
  intros Hc Hmx Hmn. unfold stoch_k, Series.scale, Series.div, Series.sub.
  erewrite List.map_nth_error; [reflexivity|].
  apply nth_error_zip_with; apply nth_error_zip_with; assumption.
Qed.

(** X14: on a bar whose Close lies between its Low and its High, and with
    the 14-period high above the 14-period low, %K is a number between 0
    and 100. *)
Theorem stoch_k_between_0_and_100
  (close high low : list float64) (i : nat) (hi lo c h l : Q) :
  List.nth_error (Series.rolling_max 14 high) i = Some (Fin hi) ->
  List.nth_error (Series.rolling_min 14 low) i = Some (Fin lo) ->
  lo < hi ->
  List.nth_error close i = Some (Fin c) ->
  List.nth_error high i = Some (Fin h) ->
  List.nth_error low i = Some (Fin l) ->
  l <= c -> c <= h ->
  exists k,
    List.nth_error (stoch_k close high low) i = Some (Fin k)
    /\ 0 <= k /\ k <= 100.
Proof.
  intros Hhi Hlo Hlt Hc Hh Hl Hlc Hch.
  pose proof (rolling_min_le low i lo l Hlo Hl) as H1.
  pose proof (rolling_max_ge high i hi h Hhi Hh) as H2.
  rewrite (nth_error_stoch_k close high low i _ _ _ Hc Hhi Hlo).
  simpl.
  assert (E0 : Qeq_bool (hi + - lo) 0 = false).
  { destruct (Qeq_bool (hi + - lo) 0) eqn:E; [|reflexivity].
    apply Qeq_bool_iff in E. lra. }
  rewrite E0. eexists. split; [reflexivity|].
  assert (Hpos : 0 < hi + - lo) by lra.
  assert (Hr0 : 0 <= (c + - lo) / (hi + - lo))
    by (apply Qle_shift_div_l; [assumption|lra]).
  assert (Hr1 : (c + - lo) / (hi + - lo) <= 1)
    by (apply Qle_shift_div_r; [assumption|lra]).
  split; nra.
Qed.

Lemma stoch_k_between_0_and_100_witness :
  exists k,
    List.nth_error
      (stoch_k (List.repeat (Fin 11) 14) (List.repeat (Fin 12) 14)
         (List.repeat (Fin 10) 14)) 13 = Some (Fin k)
    /\ 0 <= k /\ k <= 100.
Proof.
  apply (stoch_k_between_0_and_100 _ _ _ 13 12 10 11 12 10);
    try (vm_compute; reflexivity); lra.
Defined.

Lemma nth_error_rolling_at (agg : list float64 -> float64) (w i : nat)
  (s : list float64) :
  (i < List.length s)%nat ->
  List.nth_error (Series.rolling agg w s) i
  = Some (if (i + 1 <? w)%nat then NaN
          else if existsb isna (Series.window_at w i s) then NaN
          else agg (Series.window_at w i s)).
Proof.
  intros Hi. unfold Series.rolling.
  rewrite List.nth_error_map, List.nth_error_seq.
  apply Nat.ltb_lt in Hi. rewrite Hi. reflexivity.
Qed.

Lemma zip_with_length (f : float64 -> float64 -> float64)
  (a b : list float64) :
  List.length (Series.zip_with f a b)
  = Nat.min (List.length a) (List.length b).
Proof.
  revert b. induction a as [|x a IH]; intros [|y b]; simpl; try reflexivity.
  now rewrite IH.
Qed.

Lemma rolling_length (agg : list float64 -> float64) (w : nat)
  (s : list float64) :
  List.length (Series.rolling agg w s) = List.length s.
Proof. unfold Series.rolling. now rewrite List.length_map, List.length_seq. Qed.

Lemma stoch_k_length (close high low : list float64) :
  List.length (stoch_k close high low)
  = Nat.min (List.length close)
      (Nat.min (List.length high) (List.length low)).
Proof.
  unfold stoch_k, Series.scale, Series.div, Series.sub,
    Series.rolling_max, Series.rolling_min.
  rewrite List.length_map, !zip_with_length, !rolling_length. lia.
Qed.

(** X15: the warm-up of the stochastic oscillator.  On three aligned
    columns, %K is missing on each of the first 13 rows and %D, its 3-period
    mean, on each of the first 15; so a series of fewer than 16 rows has no
    %D at all. *)
Theorem stochastic_warm_up (close high low : list float64) (i : nat) :
  List.length high = List.length close ->
  List.length low = List.length close ->
  (i < List.length close)%nat ->
  ((i < 13)%nat -> List.nth_error (stoch_k close high low) i = Some NaN)
  /\ ((i < 15)%nat ->
      List.nth_error (Series.rolling_mean 3 (stoch_k close high low)) i
      = Some NaN).
Proof.
  intros Hh Hl Hi.
  assert (Hk : forall j, (j < 13)%nat -> (j < List.length close)%nat ->
            List.nth_error (stoch_k close high low) j = Some NaN).
  { intros j Hj Hjl.
    destruct (List.nth_error close j) as [c|] eqn:Ec;
      [|apply List.nth_error_None in Ec; lia].
    assert (Ej : (j + 1 <? 14)%nat = true) by (apply Nat.ltb_lt; lia).
    rewrite (nth_error_stoch_k close high low j c NaN NaN Ec).
    - now destruct c.
    - unfold Series.rolling_max. rewrite nth_error_rolling_at by lia.
      now rewrite Ej.
    - unfold Series.rolling_min. rewrite nth_error_rolling_at by lia.
      now rewrite Ej. }
  split; [intros H; now apply Hk|].
  intros H. unfold Series.rolling_mean.
  assert (Hlen : List.length (stoch_k close high low) = List.length close)
    by (rewrite stoch_k_length; lia).
  rewrite nth_error_rolling_at by lia.
  destruct (i + 1 <? 3)%nat eqn:E; [reflexivity|].
  apply Nat.ltb_ge in E.
  assert (Hex : existsb isna (Series.window_at 3 i (stoch_k close high low))
                = true).
  { apply List.existsb_exists. exists NaN. split; [|reflexivity].
    apply (List.nth_error_In _ 0). unfold Series.window_at.
    rewrite List.nth_error_firstn.
    change (0 <? 3)%nat with true. cbv iota.
    rewrite List.nth_error_skipn, Nat.add_0_r.
    apply Hk; lia. }
  now rewrite Hex.
Qed.

Lemma stochastic_warm_up_witness :
  List.nth_error (stoch_k close_inside flat_high flat_low) 12 = Some NaN.
Proof.
  assert (Hh : List.length flat_high = List.length close_inside)
    by reflexivity.
  assert (Hl : List.length flat_low = List.length close_inside)
    by reflexivity.
  assert (Hi : (12 < List.length close_inside)%nat) by (vm_compute; lia).
  destruct (stochastic_warm_up close_inside flat_high flat_low 12 Hh Hl Hi)
    as [H _].
  apply H. lia.
Defined.

(** ** The range of the volume-weighted average price *)





(** ** The score of the summary tab *)

(** X17: the summary tab of [TechnicalAnalysis] scores five tests.  The two
    price tests and the MACD test each count for one side or the other, so
    bullish and bearish signals together number between three and five; the
    sentiment follows the larger count.  A missing average or MACD value
    counts as bearish: with SMA_20 and SMA_50 both missing and MACD or its
    signal line missing, the sentiment is BEARISH whatever the prices. *)
Theorem summary_score_counts
  (close sma_20 sma_50 rsi macd macd_signal stoch_k : float64) :
  let s :=
    TechnicalAnalysis.score close sma_20 sma_50 rsi macd macd_signal stoch_k in
  let b := TechnicalAnalysis.bullish_signals s in
  let r := TechnicalAnalysis.bearish_signals s in
  TechnicalAnalysis.total_signals s = 5%nat
  /\ (3 <= b + r <= 5)%nat
  /\ ((r < b)%nat -> TechnicalAnalysis.sentiment s = TechnicalAnalysis.Bullish)
  /\ ((b < r)%nat -> TechnicalAnalysis.sentiment s = TechnicalAnalysis.Bearish)
  /\ (b = r -> TechnicalAnalysis.sentiment s = TechnicalAnalysis.Neutral)
  /\ (isna sma_20 = true -> isna sma_50 = true ->
      isna macd || isna macd_signal = true ->
      TechnicalAnalysis.sentiment s = TechnicalAnalysis.Bearish).
Proof.
  unfold TechnicalAnalysis.score.
  assert (H20 : isna sma_20 = true -> fgt close sma_20 = false)
    by (intros H; apply fgt_of_isna; rewrite H; apply orb_true_r).
  assert (H50 : isna sma_50 = true -> fgt close sma_50 = false)
    by (intros H; apply fgt_of_isna; rewrite H; apply orb_true_r).
  pose proof (fgt_of_isna macd macd_signal) as Hm.
  destruct (fgt close sma_20), (fgt close sma_50), (flt rsi (Fin 30)),
    (fgt rsi (Fin 70)), (fgt macd macd_signal), (flt stoch_k (Fin 20)),
    (fgt stoch_k (Fin 80)); cbn;
    (split; [reflexivity|]); (split; [lia|]);
    (split; [try reflexivity; lia|]); (split; [try reflexivity; lia|]);
    (split; [try reflexivity; lia|]);
    intros Ha Hb Hc; try reflexivity;
    first [ specialize (H20 Ha); discriminate
          | specialize (H50 Hb); discriminate
          | specialize (Hm Hc); discriminate ].
Qed.

(** What [display_summary] returns is the score of the values on the last
    row of the frame. *)
Lemma display_summary_result (df : nat) (w w' : World)
  (s : TechnicalAnalysis.Score) :
  TechnicalAnalysis.display_summary df w = (Ok s, w') ->
  exists close sma_20 sma_50 rsi macd macd_signal stoch_k,
    fst (last_value df "Close" 1 w) = Ok close
    /\ fst (last_value df "SMA_20" 1 w) = Ok sma_20
    /\ fst (last_value df "SMA_50" 1 w) = Ok sma_50
    /\ fst (last_value df "RSI" 1 w) = Ok rsi
    /\ fst (last_value df "MACD" 1 w) = Ok macd
    /\ fst (last_value df "MACD_signal" 1 w) = Ok macd_signal
    /\ fst (last_value df "Stoch_K" 1 w) = Ok stoch_k
    /\ s = TechnicalAnalysis.score close sma_20 sma_50 rsi macd macd_signal
             stoch_k
    /\ w' = w.
Proof.
  unfold TechnicalAnalysis.display_summary.
  rewrite bind_reader by solve [reads_auto].
  destruct (fst (len df w)) as [n|e]; [|discriminate]. cbv beta.
  destruct (n =? 0)%nat; [discriminate|].
  repeat (rewrite bind_reader by solve [reads_auto];
          match goal with
          | |- context [match fst ?x with _ => _ end] =>
              destruct (fst x) as [?|?] eqn:?; [|discriminate]
          end; cbv beta).
  intros [= <- <-]. do 7 eexists. repeat split; reflexivity.
Qed.

(** * Further properties of the loaders *)

(** ** The international reader and bad cells *)



(** ** The Yahoo loader *)

Section YahooProperties.
Context {Info : Type} (yf : IndianDataLoader.Yahoo Info).

(** X19: when [load_from_yahoo] succeeds the frame has the six columns, at
    least one row, and a date and five finite numbers in every row, and the
    company record is the one of the ticker; a failure arrives as an
    [Exception] whose text starts with the loader's prefix and the ticker. *)
Theorem yahoo_loader_result (ticker period : string) :
  (forall df i,
     DataLoader.load_from_yahoo yf ticker period = Ok (df, i) ->
     IndianDataLoader.info yf ticker = Ok i
     /\ columns df = required_columns /\ rows df <> []
     /\ List.Forall
          (fun r => (exists d, Date r = Some d)
                    /\ forall c, exists q, get_col c r = Fin q) (rows df))
  /\ (forall e,
        DataLoader.load_from_yahoo yf ticker period = Raise e ->
        exists m,
          e = Exception ("Error fetching data for " ++ ticker ++ ": " ++ m)
                %string).
Proof.
  unfold DataLoader.load_from_yahoo. split.
  - intros df i.
    destruct (DataLoader.load_from_yahoo_body yf ticker period)
      as [[d j]|e] eqn:Hb; [|discriminate].
    intros [= -> ->]. unfold DataLoader.load_from_yahoo_body in Hb.
    destruct (IndianDataLoader.history yf ticker period) as [hist|e];
      [|discriminate].
    cbn [bind] in Hb. destruct hist as [|r0 hist]; [discriminate|].
    destruct (dropna (List.map replace_inf_row (r0 :: hist))) as [|r l] eqn:E;
      [discriminate|].
    destruct (IndianDataLoader.info yf ticker) as [i0|e]; [|discriminate].
    cbn [bind] in Hb. injection Hb as <- <-. cbn [columns rows].
    repeat split; try reflexivity; try discriminate.
    apply List.Forall_forall. intros x Hx. rewrite <- E in Hx.
    unfold dropna in Hx. apply List.filter_In in Hx. destruct Hx as [Hx Hna].
    apply List.in_map_iff in Hx. destruct Hx as (y & <- & _).
    apply negb_true_iff in Hna.
    destruct (complete_after_replace y Hna) as [[d Hd] Hc].
    split; [now exists d|].
    intros c. destruct (Hc c) as [q Hq]. exists q.
    destruct c; simpl in *; now rewrite Hq.
  - intros e.
    destruct (DataLoader.load_from_yahoo_body yf ticker period) as [x|e0];
      [discriminate|].
    intros [= <-]. now exists (IndianDataLoader.error_text e0).
Qed.

End YahooProperties.

(** * A run that completes *)

Lemma step_bind {A B : Type} (I I1 I2 : World -> Prop) (m : M A)
  (k : A -> M B) (Q : A -> Prop) (R : B -> Prop) :
  step I m Q I1 -> (forall a, Q a -> step I1 (k a) R I2) ->
  step I (mbind m k) R I2.
Proof.
  intros Hm Hk w Hw. destruct (Hm w Hw) as (a & w1 & E & Ha & Hw1).
  destruct (Hk a Ha w1 Hw1) as (b & w2 & E2 & Hb & Hw2).
  exists b, w2. unfold mbind. rewrite E. auto.
Qed.

Lemma step_ret {A : Type} (I : World -> Prop) (a : A) (Q : A -> Prop) :
  Q a -> step I (ret a) Q I.
Proof. intros Ha w Hw. now exists a, w. Qed.

Lemma step_post {A : Type} (I I' : World -> Prop) (m : M A)
  (Q Q' : A -> Prop) :
  step I m Q I' -> (forall a, Q a -> Q' a) -> step I m Q' I'.
Proof.
  intros Hm HQ w Hw. destruct (Hm w Hw) as (a & w' & E & Ha & Hw').
  exists a, w'. auto.
Qed.

Lemma step_try {A : Type} (I I' : World -> Prop) (m : M A)
  (h : error -> M A) (Q : A -> Prop) :
  step I m Q I' -> step I (try_except m h) Q I'.
Proof.
  intros Hm w Hw. destruct (Hm w Hw) as (a & w' & E & Ha & Hw').
  exists a, w'. unfold try_except. rewrite E. auto.
Qed.

Lemma iloc_back_some (k : nat) (s : list float64) :
  (1 <= k <= List.length s)%nat -> exists x, Series.iloc_back k s = Some x.
Proof.
  intros Hk. unfold Series.iloc_back.
  assert (E : (k <=? List.length s)%nat = true) by (apply Nat.leb_le; lia).
  rewrite E.
  destruct (List.nth_error s (List.length s - k)) as [x|] eqn:Ex;
    [now exists x|].
  apply List.nth_error_None in Ex. lia.
Qed.

Section Tabs.
Variables (c n : nat) (present : string -> bool).
Hypothesis Hn : (0 < n)%nat.

Local Abbreviation J := (frame_ok c n present).

Lemma tab_read_frame :
  step J (read_frame c)
    (fun g => aligned n g
              /\ forall col, col <> "Volume_MA"%string ->
                             (data g !! col <> None <-> present col = true))
    J.
Proof.
  intros w Hw. pose proof Hw as (g & Hg & Hal & Hp).
  exists g, w. unfold read_frame. rewrite Hg. auto.
Qed.

Lemma tab_get (col : string) :
  col <> "Volume_MA"%string -> present col = true ->
  step J (get_column c col) (fun s => List.length s = n) J.
Proof.
  intros Hcol Hpr. unfold get_column.
  eapply step_bind; [apply tab_read_frame|].
  intros g [[_ Hal] Hp] w Hw.
  apply (Hp col Hcol) in Hpr.
  destruct (data g !! col) as [s|] eqn:E; [|contradiction].
  exists s, w. simpl. split; [reflexivity|]. split; [now apply (Hal col)|].
  assumption.
Qed.

Lemma tab_iloc (e : error) (k : nat) (s : list float64) :
  (1 <= k <= List.length s)%nat ->
  step J (of_option e (Series.iloc_back k s)) (fun _ => True) J.
Proof.
  intros Hk. destruct (iloc_back_some k s Hk) as [x ->].
  now apply step_ret.
Qed.

Lemma tab_last (col : string) (k : nat) :
  col <> "Volume_MA"%string -> present col = true -> (1 <= k <= n)%nat ->
  step J (last_value c col k) (fun _ => True) J.
Proof.
  intros Hcol Hpr Hk. unfold last_value.
  eapply step_bind; [now apply tab_get|].
  intros s Hs. apply tab_iloc. now rewrite Hs.
Qed.

Lemma tab_len : step J (len c) (fun a => a = n) J.
Proof.
  unfold len. eapply step_bind; [apply tab_read_frame|].
  intros g [[Hrows _] _]. now apply step_ret.
Qed.

Lemma tab_has (col : string) :
  col <> "Volume_MA"%string ->
  step J (has_col c col) (fun b => b = present col) J.
Proof.
  intros Hcol. unfold has_col. eapply step_bind; [apply tab_read_frame|].
  intros g [_ Hp]. apply step_ret. specialize (Hp col Hcol).
  destruct (data g !! col), (present col); try reflexivity.
  - destruct Hp as [Hp _]. symmetry. now apply Hp.
  - destruct Hp as [_ Hp]. now specialize (Hp eq_refl).
Qed.

Lemma tab_set_volume_ma (s : list float64) :
  List.length s = n ->
  step J (set_column c "Volume_MA" s) (fun _ => True) J.
Proof.
  intros Hs w Hw. pose proof Hw as (g & Hg & [Hrows Hal] & Hp).
  unfold set_column, mbind, read_frame. rewrite Hg. simpl.
  eexists tt, _. split; [reflexivity|]. split; [exact I|].
  eexists. simpl. rewrite lookup_insert_eq. split; [reflexivity|].
  split; [split; [exact Hrows|]|].
  - simpl. intros col s' Hl. apply lookup_insert_Some in Hl.
    destruct Hl as [[_ <-]|[_ Hl]]; [assumption|now apply (Hal col)].
  - simpl. intros col Hcol. rewrite lookup_insert_ne by congruence.
    now apply Hp.
Qed.

Lemma tab_append_signal (x : string) :
  step J (append_signal x) (fun _ => True) J.
Proof. intros w Hw. eexists tt, _. split; [reflexivity|]. now split. Qed.

Lemma tab_append_summary (x : string) :
  step J (append_summary x) (fun _ => True) J.
Proof. intros w Hw. eexists tt, _. split; [reflexivity|]. now split. Qed.

Lemma tab_summary_now : step J summary_now (fun _ => True) J.
Proof. intros w Hw. eexists _, w. now split. Qed.

End Tabs.

(** What the rules ask before they apply: a column that is there, an index
    inside the frame, a column of the right length. *)
Ltac tab_side :=
  cbv beta in *;
  repeat match goal with
         | H : (_ && _)%bool = true |- _ =>
             apply andb_true_iff in H; destruct H
         | H : negb _ = false |- _ => apply negb_false_iff in H
         | H : (_ <? _)%nat = true |- _ => apply Nat.ltb_lt in H
         | H : (_ <=? _)%nat = true |- _ => apply Nat.leb_le in H
         end;
  first
    [ discriminate
    | assumption
    | match goal with
      | Hreq : forall col, List.In col _ -> _ = true |- _ = true =>
          apply Hreq; in_written
      end
    | rewrite ?rolling_length; first [assumption | lia] ].

Ltac tab_rule :=
  first
    [ apply tab_get; tab_side
    | apply tab_last; tab_side
    | apply tab_len
    | apply tab_has; tab_side
    | apply tab_set_volume_ma; unfold Series.rolling_mean; tab_side
    | apply tab_append_signal
    | apply tab_append_summary
    | apply tab_summary_now
    | apply tab_iloc; unfold Series.rolling_mean; tab_side
    | apply step_ret; exact I ].

Ltac tab_auto :=
  cbv zeta;
  lazymatch goal with
  | |- step _ (mbind _ _) _ _ =>
      first
        [ eapply step_bind;
          [ solve [tab_rule]
          | intros ? ?;
            repeat match goal with
                   | H : (fun _ => _) _ |- _ => cbv beta in H
                   end;
            try match goal with
                | H : ?a = _ |- _ => is_var a; subst a
                end;
            tab_auto ]
        | eapply (step_bind _ _ _ _ _ (fun _ => True));
          [ tab_auto | intros ? _; tab_auto ] ]
  | |- step _ (if ?b then _ else _) _ _ => destruct b eqn:?; tab_auto
  | |- _ =>
      first
        [ solve [tab_rule]
        | solve [eapply step_post; [tab_rule|intros; exact I]]
        | idtac ]
  end.

Section RunTabs.
Variables (c n : nat) (present : string -> bool).
Hypothesis Hn : (0 < n)%nat.
Hypothesis Hreq :
  forall col, List.In col (required_cols ++ written_columns) ->
              present col = true.

Lemma run_tabs_completes :
  step (frame_ok c n present) (run_tabs c) (fun _ => True)
    (frame_ok c n present).
Proof.
  unfold run_tabs, _trend_analysis, _support_resistance_analysis,
    _fifty_two_week_analysis, _moving_averages_analysis, _cross_analysis,
    cross_signal, _momentum_analysis, _rsi_analysis, _macd_analysis,
    _stochastic_analysis, _volatility_analysis, _bollinger_bands_analysis,
    _atr_analysis, _volume_analysis, _volume_chart, _vwap_analysis,
    _obv_analysis, _liquidity_analysis, _signals_and_summary.
  tab_auto.
Qed.

End RunTabs.

Lemma cumsum_from_length (a : float64) (s : list float64) :
  List.length (Series.cumsum_from a s) = List.length s.
Proof.
  revert a. induction s as [|x s IH]; intros a; simpl; [reflexivity|].
  destruct (isna x); simpl; now rewrite IH.
Qed.

Lemma vwap_length (high low close volume : list float64) :
  List.length (vwap high low close volume)
  = Nat.min (List.length volume)
      (Nat.min (Nat.min (List.length high) (List.length low))
         (List.length close)).
Proof.
  unfold vwap, Series.div, Series.cumsum, Series.over, Series.mul, Series.add.
  rewrite zip_with_length, !cumsum_from_length, List.length_map,
    !zip_with_length.
  lia.
Qed.

Section Filling.
Variables (df c n : nat) (f0 : Frame).
Hypothesis Hcd : c <> df.
Hypothesis Hal0 : aligned n f0.

Local Abbreviation F := (filling df c n f0).

Lemma fill_get (col : string) (names : list string) :
  ~ List.In col written_columns -> data f0 !! col <> None ->
  step (F names) (get_column c col) (fun s => List.length s = n) (F names).
Proof.
  intros Hcol Hpr w Hw.
  pose proof Hw as (Hdf & g & Hg & [Hrows Hal] & [_ Hext] & Hnames).
  unfold get_column, mbind, read_frame. rewrite Hg. simpl.
  destruct (data g !! col) as [s|] eqn:E.
  - exists s, w. simpl. split; [reflexivity|].
    split; [now apply (Hal col)|assumption].
  - rewrite (Hext col Hcol) in E. contradiction.
Qed.

Lemma fill_set (col : string) (s : list float64) (names : list string) :
  List.In col written_columns -> List.length s = n ->
  step (F names) (set_column c col s) (fun _ => True) (F (col :: names)).
Proof.
  intros Hcol Hs w Hw.
  pose proof Hw as (Hdf & g & Hg & [Hrows Hal] & [Hn Hext] & Hnames).
  unfold set_column, mbind, read_frame. rewrite Hg. simpl.
  eexists tt, _. split; [reflexivity|]. split; [exact I|].
  split; [simpl; now rewrite lookup_insert_ne by assumption|].
  eexists. simpl. rewrite lookup_insert_eq. split; [reflexivity|].
  split; [split; [exact Hrows|]|split; [split; [exact Hn|]|]]; simpl.
  - intros col' s' Hl. apply lookup_insert_Some in Hl.
    destruct Hl as [[_ <-]|[_ Hl]]; [assumption|now apply (Hal col')].
  - intros col' Hcol'. rewrite lookup_insert_ne by (intros ->; contradiction).
    now apply Hext.
  - intros col' [<-|Hin].
    + now rewrite lookup_insert_eq.
    + destruct (String.eqb_spec col col') as [<-|Hne].
      * now rewrite lookup_insert_eq.
      * rewrite lookup_insert_ne by assumption. now apply Hnames.
Qed.

Lemma fill_ta {A : Type} (o : option A) (r : A) (names : list string) :
  o = Some r -> step (F names) (of_ta o) (fun a => a = r) (F names).
Proof. intros ->. now apply step_ret. Qed.

Lemma fill_has_input (col : string) (names : list string) :
  step (F names) (has_col df col)
    (fun b => b = true -> data f0 !! col <> None) (F names).
Proof.
  intros w Hw. pose proof Hw as (Hdf & _).
  unfold has_col, mbind, read_frame. rewrite Hdf. simpl.
  eexists _, w. split; [reflexivity|]. split; [|assumption].
  destruct (data f0 !! col); [discriminate|discriminate].
Qed.

Lemma fill_get_input (col : string) (names : list string) :
  data f0 !! col <> None ->
  step (F names) (get_column df col) (fun s => List.length s = n) (F names).
Proof.
  intros Hpr w Hw. pose proof Hw as (Hdf & _). destruct Hal0 as [_ Hal].
  unfold get_column, mbind, read_frame. rewrite Hdf. simpl.
  destruct (data f0 !! col) as [s|] eqn:E; [|contradiction].
  exists s, w. simpl. split; [reflexivity|].
  split; [now apply (Hal col)|assumption].
Qed.

End Filling.

Ltac fill_side :=
  cbv beta in *;
  first
    [ assumption
    | solve [in_written]
    | unfold Series.rolling_mean;
      rewrite ?rolling_length, ?stoch_k_length, ?vwap_length;
      first [congruence | lia] ].

Ltac fill_step :=
  cbv zeta;
  lazymatch goal with
  | |- step _ (mbind (of_ta ?o) _) _ _ =>
      match goal with
      | E : o = Some _ |- _ =>
          eapply step_bind;
          [ eapply fill_ta; exact E
          | let a := fresh "a" in intros a ?; cbv beta in *; subst a ]
      end
  | |- step _ (mbind (set_column _ _ _) _) _ _ =>
      eapply step_bind;
      [ eapply fill_set; fill_side
      | intros _ _ ]
  | |- step _ (mbind (get_column _ _) _) _ _ =>
      eapply step_bind;
      [ eapply fill_get; fill_side
      | intros ? ? ]
  end.

Section Indicators.
Variables (ta : TaLib) (df c n : nat) (f0 : Frame).
Hypothesis Hta : aligned_ta n ta.
Hypothesis Hcd : c <> df.
Hypothesis Hal0 : aligned n f0.
Hypothesis Hreq0 :
  forall col, List.In col required_cols -> data f0 !! col <> None.

Lemma try_indicators_completes :
  step (filling df c n f0 []) (try_indicators ta df c) (fun a => a = c)
    (filling df c n f0
       ["VWAP"; "OBV"; "ATR"; "BB_Lower"; "BB_Middle"; "BB_Upper";
        "Stoch_D"; "Stoch_K"; "MACD_Histogram"; "MACD_Signal"; "MACD";
        "RSI"; "EMA_20"; "SMA_200"; "SMA_50"; "SMA_20"]%string).
Proof.
  unfold aligned_ta in Hta. cbv zeta beta in Hta.
  destruct Hta as (Hsma & Hema & Hrsi & Hmacd & Hmsig & Hmdiff
                   & Hbh & Hbm & Hbl & Hatr & Hobv).
  assert (Hclose : data f0 !! "Close"%string <> None)
    by (apply Hreq0; in_written).
  assert (Hlow : data f0 !! "Low"%string <> None)
    by (apply Hreq0; in_written).
  assert (Hhigh : data f0 !! "High"%string <> None)
    by (apply Hreq0; in_written).
  assert (Hvolume : data f0 !! "Volume"%string <> None)
    by (apply Hreq0; in_written).
  assert (Wclose : ~ List.In "Close"%string written_columns)
    by (simpl; intuition discriminate).
  assert (Wlow : ~ List.In "Low"%string written_columns)
    by (simpl; intuition discriminate).
  assert (Whigh : ~ List.In "High"%string written_columns)
    by (simpl; intuition discriminate).
  assert (Wvolume : ~ List.In "Volume"%string written_columns)
    by (simpl; intuition discriminate).
  unfold try_indicators. apply step_try.
  eapply step_bind; [eapply fill_get; fill_side|intros close Lc].
  cbv beta in Lc.
  destruct (Hsma 20%nat close Lc) as (sma_20 & E1 & L1).
  destruct (Hsma 50%nat close Lc) as (sma_50 & E2 & L2).
  destruct (Hsma 200%nat close Lc) as (sma_200 & E3 & L3).
  destruct (Hema 20%nat close Lc) as (ema_20 & E4 & L4).
  destruct (Hrsi 14%nat close Lc) as (r & E5 & L5).
  destruct (Hmacd close Lc) as (m & E6 & L6).
  destruct (Hmsig close Lc) as (ms & E7 & L7).
  destruct (Hmdiff close Lc) as (md & E8 & L8).
  destruct (Hbh close Lc) as (hb & E9 & L9).
  destruct (Hbm close Lc) as (mb & E10 & L10).
  destruct (Hbl close Lc) as (lb & E11 & L11).
  do 16 fill_step.
  eapply step_bind; [eapply fill_get; fill_side|intros low Ll].
  eapply step_bind; [eapply fill_get; fill_side|intros high Lh].
  cbv beta in Ll, Lh.
  destruct (Hatr high low close Lh Ll Lc) as (atr & E12 & L12).
  do 10 fill_step.
  eapply step_bind; [eapply fill_get; fill_side|intros volume Lv].
  cbv beta in Lv.
  destruct (Hobv close volume Lc Lv) as (obv & E13 & L13).
  do 2 fill_step.
  eapply step_bind; [apply fill_has_input|intros given Hgiven].
  destruct given.
  - eapply step_bind; [|intros _ _; now apply step_ret].
    eapply step_bind;
      [eapply fill_get_input; [eassumption|now apply Hgiven]|intros v Hv].
    eapply fill_set; fill_side.
  - eapply step_bind; [|intros _ _; now apply step_ret].
    eapply fill_set; fill_side.
Qed.

End Indicators.

Lemma nonempty_columns (f : Frame) (col : string) :
  data f !! col <> None -> size (data f) <> 0%nat.
Proof.
  intros H E. apply map_size_empty_iff in E. rewrite E in H.
  now rewrite lookup_empty in H.
Qed.

Lemma nothing_missing (f : Frame) (l : list string) :
  (forall col, List.In col l -> data f !! col <> None) ->
  List.filter
    (fun c => match data f !! c with Some _ => false | None => true end) l
  = [].
Proof.
  induction l as [|x l IH]; intros Hl; [reflexivity|]. simpl.
  destruct (data f !! x) eqn:Ex.
  - apply IH. intros col Hcol. apply Hl. now right.
  - exfalso. apply (Hl x); [now left|assumption].
Qed.

Lemma ewm_from_length (a : Q) (prev : float64) (s : list float64) :
  List.length (Samples.ewm_from a prev s) = List.length s.
Proof.
  revert prev. induction s as [|x s IH]; intros prev; simpl;
    [reflexivity|now rewrite IH].
Qed.

Lemma ewm_length (a : Q) (w : nat) (s : list float64) :
  List.length (Samples.ewm a w s) = List.length s.
Proof.
  unfold Samples.ewm. cbv zeta.
  rewrite List.length_map, List.length_combine, List.length_seq,
    Nat.min_id.
  destruct s as [|x s]; simpl; [reflexivity|now rewrite ewm_from_length].
Qed.

Lemma diff_length (s : list float64) :
  List.length (Samples.diff s) = List.length s.
Proof.
  destruct s as [|x s]; simpl; [reflexivity|].
  rewrite zip_with_length. simpl. lia.
Qed.

Lemma rsi_of_length (w : nat) (s : list float64) :
  List.length (Samples.rsi_of w s) = List.length s.
Proof.
  unfold Samples.rsi_of. cbv zeta.
  rewrite zip_with_length, !ewm_length, !List.length_map, diff_length. lia.
Qed.

Lemma obv_from_length (prev acc : float64) (close volume : list float64) :
  List.length (Samples.obv_from prev acc close volume)
  = Nat.min (List.length close) (List.length volume).
Proof.
  revert prev acc volume.
  induction close as [|x close IH]; intros prev acc [|v volume]; simpl;
    try reflexivity.
  now rewrite IH.
Qed.

Lemma partial_ta_aligned (n : nat) : aligned_ta n Samples.partial_ta.
Proof.
  unfold aligned_ta, Samples.partial_ta, Samples.nan_like. cbv zeta. simpl.
  repeat split; intros; eexists; (split; [reflexivity|]);
    unfold Series.rolling_mean;
    rewrite ?rolling_length, ?List.length_map, ?rsi_of_length,
      ?obv_from_length;
    lia.
Qed.

Lemma rising_bars_aligned : aligned 16 Samples.rising_bars.
Proof.
  split; [reflexivity|]. intros col s H.
  unfold Samples.rising_bars, Samples.frame_of in H. simpl in H.
  repeat (apply lookup_insert_Some in H;
          destruct H as [[_ <-]|[_ H]]; [reflexivity|]).
  now rewrite lookup_empty in H.
Qed.

(** X20: on a frame of at least one row that has the six required columns,
    all of one length, [analyze_stock] raises nothing and returns a summary,
    provided the indicator functions of [ta] return columns of that length:
    every column the six tabs read is then in the working copy, and every
    value they pick by position is there. *)
Theorem analysis_completes (ta : TaLib) (df n : nat) (f0 : Frame)
  (w : World) :
  aligned_ta n ta -> (0 < n)%nat ->
  heap w !! df = Some f0 -> aligned n f0 ->
  (forall col, List.In col required_cols -> data f0 !! col <> None) ->
  exists r w', analyze_stock ta df w = (Ok (Some r), w').
Proof.
  intros Hta Hn Hdf Hal Hreq.
  set (c := fresh (dom (heap w))).
  assert (Hc : c <> df).
  { intros E. apply (is_fresh (dom (heap w))). fold c. rewrite E.
    apply elem_of_dom. now exists f0. }
  set (w1 := mkWorld (<[c := f0]> (heap w)) (signals w) (summary_points w)).
  assert (H1 : filling df c n f0 [] w1).
  { split; [simpl; now rewrite lookup_insert_ne|].
    exists f0. simpl. rewrite lookup_insert_eq.
    split; [reflexivity|]. split; [exact Hal|].
    split; [apply extends_refl|intros col []]. }
  destruct (try_indicators_completes ta df c n f0 Hta Hc Hal Hreq w1 H1)
    as (a & w2 & E2 & -> & H2).
  set (present := fun col =>
         existsb (String.eqb col) written_columns
         || match data f0 !! col with Some _ => true | None => false end).
  assert (H3 : frame_ok c n present w2).
  { destruct H2 as (_ & g & Hg & Hag & [_ Hext] & Hnames).
    exists g. split; [exact Hg|]. split; [exact Hag|].
    intros col Hcol. unfold present.
    destruct (existsb (String.eqb col) written_columns) eqn:Ex.
    - split; [reflexivity|intros _]. apply Hnames.
      apply List.existsb_exists in Ex. destruct Ex as (x & Hx & Ee).
      apply String.eqb_eq in Ee. subst x.
      unfold written_columns in Hx.
      repeat (destruct Hx as [<-|Hx];
              [first [solve [in_written] | congruence]|]).
      contradiction.
    - assert (Hw : ~ List.In col written_columns).
      { intros Hin.
        assert (existsb (String.eqb col) written_columns = true)
          by (apply List.existsb_exists; exists col;
              split; [assumption|apply String.eqb_refl]).
        congruence. }
      rewrite (Hext col Hw). simpl.
      destruct (data f0 !! col); split; congruence. }
  assert (Hreq' : forall col,
             List.In col (required_cols ++ written_columns) ->
             present col = true).
  { intros col Hin. unfold present. apply List.in_app_or in Hin.
    destruct Hin as [Hin|Hin].
    - specialize (Hreq col Hin).
      destruct (data f0 !! col); [apply orb_true_r|contradiction].
    - apply orb_true_iff. left. apply List.existsb_exists. exists col.
      split; [assumption|apply String.eqb_refl]. }
  destruct (run_tabs_completes c n present Hn Hreq' w2 H3)
    as (r & w3 & E3 & _ & _).
  exists r, w3.
  assert (Er : read_frame df w = (Ok f0, w))
    by (unfold read_frame; now rewrite Hdf).
  assert (Ee : is_empty df w = (Ok false, w)).
  { unfold is_empty, mbind. rewrite Er. unfold ret. do 2 f_equal.
    destruct Hal as [Hr _]. rewrite Hr.
    apply orb_false_iff. split; apply Nat.eqb_neq; [lia|].
    apply nonempty_columns with "Close"%string. apply Hreq. in_written. }
  assert (Ecalc : _calculate_all_indicators ta df w = (Ok c, w2)).
  { unfold _calculate_all_indicators, copy, mbind. rewrite Er.
    unfold alloc. exact E2. }
  unfold analyze_stock, mbind. cbv beta.
  rewrite Ee. cbv beta iota. rewrite Er. cbv beta iota.
  rewrite (nothing_missing f0 required_cols Hreq). cbv beta iota.
  rewrite Ecalc. cbv beta iota. rewrite E3. reflexivity.
Qed.

Lemma analysis_completes_witness :
  exists r w',
    analyze_stock Samples.partial_ta 0
      (Samples.world_of Samples.rising_bars)
    = (Ok (Some r), w').
Proof.
  apply (analysis_completes Samples.partial_ta 0 16 Samples.rising_bars).
  - apply partial_ta_aligned.
  - lia.
  - reflexivity.
  - apply rising_bars_aligned.
  - intros col Hcol. unfold required_cols in Hcol.
    repeat (destruct Hcol as [<-|Hcol]; [vm_compute; discriminate|]).
    contradiction.
Defined.
